(** * Batch text-to-image scripts: row source, retry loop, polling, batch driver

    The repository holds three scripts built on one skeleton
    (class [SimpleImageGenerator]):

    - [qwen-image-plus.py]     synchronous adapter, three response shapes;
    - [seedream3.0&4.0.py]     synchronous adapter, two response shapes;
    - [wan2.5-t2i-preview.py]  asynchronous adapter (submit, poll, extract).

    The Python methods are embedded as Rocq functions.  Network, file system,
    base64 and image decoding are the only things outside the scripts; they
    are gathered in a record [world] that answers each call.  Every embedded
    method runs in a small monad that threads call counters, collects the
    effects it performs and may raise a Python exception. *)

From Stdlib Require Import ZArith QArith String Ascii Sorted.
From Stdlib.Strings Require Import Byte.
From stdpp Require Import base list strings gmap pretty.

Local Set Warnings "-register-all".
Local Open Scope string_scope.
Local Open Scope list_scope.
Local Open Scope Z_scope.

(** ** Python exceptions and results *)

(** The scripts only tell apart [requests.exceptions.Timeout],
    [json.JSONDecodeError] and everything else below [Exception]. *)
Inductive exn :=
| Timeout
| JSONDecodeError
| Error (kind : string).

Inductive py_result (A : Type) :=
| Ok (a : A)
| Raise (e : exn).
Arguments Ok {A} a.
Arguments Raise {A} e.

(** ** Python strings

    A [str] is a sequence of Unicode code points.  [str.isspace],
    [str.strip] and [str.lower] are those of CPython 3.11, whose tables are
    the ones of Unicode 14.0.0. *)

Definition str : Type := list N.

Module PyStr.

(** A text literal of the scripts, all of whose characters lie below
    U+0100. *)
Definition of_string (s : string) : str :=
  N_of_ascii <$> list_ascii_of_string s.

(** [a == b] *)
Fixpoint eqb (a b : str) : bool :=
  match a, b with
  | [], [] => true
  | x :: a', y :: b' => (x =? y)%N && eqb a' b'
  | _, _ => false
  end.

(** [str.isspace] on one code point: the characters of bidirectional type
    WS, B or S, and those of category Zs. *)
Definition isspace (c : N) : bool :=
  (((0x9 <=? c) && (c <=? 0xD)) || ((0x1C <=? c) && (c <=? 0x20))
   || (c =? 0x85) || (c =? 0xA0) || (c =? 0x1680)
   || ((0x2000 <=? c) && (c <=? 0x200A))
   || (c =? 0x2028) || (c =? 0x2029) || (c =? 0x202F) || (c =? 0x205F)
   || (c =? 0x3000))%N.

(** The simple lowercase mappings: the code points [lo, lo + step, ..., hi]
    go to [image, image + step, ...]. *)
Definition lower_runs : list (N * N * N * N) :=
  [(0x41, 0x5A, 1, 0x61); (0xC0, 0xD6, 1, 0xE0); (0xD8, 0xDE, 1, 0xF8);
   (0x100, 0x12E, 2, 0x101); (0x132, 0x136, 2, 0x133);
   (0x139, 0x147, 2, 0x13A); (0x14A, 0x176, 2, 0x14B);
   (0x178, 0x178, 1, 0xFF); (0x179, 0x17D, 2, 0x17A);
   (0x181, 0x181, 1, 0x253); (0x182, 0x184, 2, 0x183);
   (0x186, 0x186, 1, 0x254); (0x187, 0x187, 1, 0x188);
   (0x189, 0x18A, 1, 0x256); (0x18B, 0x18B, 1, 0x18C);
   (0x18E, 0x18E, 1, 0x1DD); (0x18F, 0x18F, 1, 0x259);
   (0x190, 0x190, 1, 0x25B); (0x191, 0x191, 1, 0x192);
   (0x193, 0x193, 1, 0x260); (0x194, 0x194, 1, 0x263);
   (0x196, 0x196, 1, 0x269); (0x197, 0x197, 1, 0x268);
   (0x198, 0x198, 1, 0x199); (0x19C, 0x19C, 1, 0x26F);
   (0x19D, 0x19D, 1, 0x272); (0x19F, 0x19F, 1, 0x275);
   (0x1A0, 0x1A4, 2, 0x1A1); (0x1A6, 0x1A6, 1, 0x280);
   (0x1A7, 0x1A7, 1, 0x1A8); (0x1A9, 0x1A9, 1, 0x283);
   (0x1AC, 0x1AC, 1, 0x1AD); (0x1AE, 0x1AE, 1, 0x288);
   (0x1AF, 0x1AF, 1, 0x1B0); (0x1B1, 0x1B2, 1, 0x28A);
   (0x1B3, 0x1B5, 2, 0x1B4); (0x1B7, 0x1B7, 1, 0x292);
   (0x1B8, 0x1B8, 1, 0x1B9); (0x1BC, 0x1BC, 1, 0x1BD);
   (0x1C4, 0x1C4, 1, 0x1C6); (0x1C5, 0x1C5, 1, 0x1C6);
   (0x1C7, 0x1C7, 1, 0x1C9); (0x1C8, 0x1C8, 1, 0x1C9);
   (0x1CA, 0x1CA, 1, 0x1CC); (0x1CB, 0x1DB, 2, 0x1CC);
   (0x1DE, 0x1EE, 2, 0x1DF); (0x1F1, 0x1F1, 1, 0x1F3);
   (0x1F2, 0x1F4, 2, 0x1F3); (0x1F6, 0x1F6, 1, 0x195);
   (0x1F7, 0x1F7, 1, 0x1BF); (0x1F8, 0x21E, 2, 0x1F9);
   (0x220, 0x220, 1, 0x19E); (0x222, 0x232, 2, 0x223);
   (0x23A, 0x23A, 1, 0x2C65); (0x23B, 0x23B, 1, 0x23C);
   (0x23D, 0x23D, 1, 0x19A); (0x23E, 0x23E, 1, 0x2C66);
   (0x241, 0x241, 1, 0x242); (0x243, 0x243, 1, 0x180);
   (0x244, 0x244, 1, 0x289); (0x245, 0x245, 1, 0x28C);
   (0x246, 0x24E, 2, 0x247); (0x370, 0x372, 2, 0x371);
   (0x376, 0x376, 1, 0x377); (0x37F, 0x37F, 1, 0x3F3);
   (0x386, 0x386, 1, 0x3AC); (0x388, 0x38A, 1, 0x3AD);
   (0x38C, 0x38C, 1, 0x3CC); (0x38E, 0x38F, 1, 0x3CD);
   (0x391, 0x3A1, 1, 0x3B1); (0x3A4, 0x3AB, 1, 0x3C4);
   (0x3CF, 0x3CF, 1, 0x3D7); (0x3D8, 0x3EE, 2, 0x3D9);
   (0x3F4, 0x3F4, 1, 0x3B8); (0x3F7, 0x3F7, 1, 0x3F8);
   (0x3F9, 0x3F9, 1, 0x3F2); (0x3FA, 0x3FA, 1, 0x3FB);
   (0x3FD, 0x3FF, 1, 0x37B); (0x400, 0x40F, 1, 0x450);
   (0x410, 0x42F, 1, 0x430); (0x460, 0x480, 2, 0x461);
   (0x48A, 0x4BE, 2, 0x48B); (0x4C0, 0x4C0, 1, 0x4CF);
   (0x4C1, 0x4CD, 2, 0x4C2); (0x4D0, 0x52E, 2, 0x4D1);
   (0x531, 0x556, 1, 0x561); (0x10A0, 0x10C5, 1, 0x2D00);
   (0x10C7, 0x10C7, 1, 0x2D27); (0x10CD, 0x10CD, 1, 0x2D2D);
   (0x13A0, 0x13EF, 1, 0xAB70); (0x13F0, 0x13F5, 1, 0x13F8);
   (0x1C90, 0x1CBA, 1, 0x10D0); (0x1CBD, 0x1CBF, 1, 0x10FD);
   (0x1E00, 0x1E94, 2, 0x1E01); (0x1E9E, 0x1E9E, 1, 0xDF);
   (0x1EA0, 0x1EFE, 2, 0x1EA1); (0x1F08, 0x1F0F, 1, 0x1F00);
   (0x1F18, 0x1F1D, 1, 0x1F10); (0x1F28, 0x1F2F, 1, 0x1F20);
   (0x1F38, 0x1F3F, 1, 0x1F30); (0x1F48, 0x1F4D, 1, 0x1F40);
   (0x1F59, 0x1F5F, 2, 0x1F51); (0x1F68, 0x1F6F, 1, 0x1F60);
   (0x1F88, 0x1F8F, 1, 0x1F80); (0x1F98, 0x1F9F, 1, 0x1F90);
   (0x1FA8, 0x1FAF, 1, 0x1FA0); (0x1FB8, 0x1FB9, 1, 0x1FB0);
   (0x1FBA, 0x1FBB, 1, 0x1F70); (0x1FBC, 0x1FBC, 1, 0x1FB3);
   (0x1FC8, 0x1FCB, 1, 0x1F72); (0x1FCC, 0x1FCC, 1, 0x1FC3);
   (0x1FD8, 0x1FD9, 1, 0x1FD0); (0x1FDA, 0x1FDB, 1, 0x1F76);
   (0x1FE8, 0x1FE9, 1, 0x1FE0); (0x1FEA, 0x1FEB, 1, 0x1F7A);
   (0x1FEC, 0x1FEC, 1, 0x1FE5); (0x1FF8, 0x1FF9, 1, 0x1F78);
   (0x1FFA, 0x1FFB, 1, 0x1F7C); (0x1FFC, 0x1FFC, 1, 0x1FF3);
   (0x2126, 0x2126, 1, 0x3C9); (0x212A, 0x212A, 1, 0x6B);
   (0x212B, 0x212B, 1, 0xE5); (0x2132, 0x2132, 1, 0x214E);
   (0x2160, 0x216F, 1, 0x2170); (0x2183, 0x2183, 1, 0x2184);
   (0x24B6, 0x24CF, 1, 0x24D0); (0x2C00, 0x2C2F, 1, 0x2C30);
   (0x2C60, 0x2C60, 1, 0x2C61); (0x2C62, 0x2C62, 1, 0x26B);
   (0x2C63, 0x2C63, 1, 0x1D7D); (0x2C64, 0x2C64, 1, 0x27D);
   (0x2C67, 0x2C6B, 2, 0x2C68); (0x2C6D, 0x2C6D, 1, 0x251);
   (0x2C6E, 0x2C6E, 1, 0x271); (0x2C6F, 0x2C6F, 1, 0x250);
   (0x2C70, 0x2C70, 1, 0x252); (0x2C72, 0x2C72, 1, 0x2C73);
   (0x2C75, 0x2C75, 1, 0x2C76); (0x2C7E, 0x2C7F, 1, 0x23F);
   (0x2C80, 0x2CE2, 2, 0x2C81); (0x2CEB, 0x2CED, 2, 0x2CEC);
   (0x2CF2, 0x2CF2, 1, 0x2CF3); (0xA640, 0xA66C, 2, 0xA641);
   (0xA680, 0xA69A, 2, 0xA681); (0xA722, 0xA72E, 2, 0xA723);
   (0xA732, 0xA76E, 2, 0xA733); (0xA779, 0xA77B, 2, 0xA77A);
   (0xA77D, 0xA77D, 1, 0x1D79); (0xA77E, 0xA786, 2, 0xA77F);
   (0xA78B, 0xA78B, 1, 0xA78C); (0xA78D, 0xA78D, 1, 0x265);
   (0xA790, 0xA792, 2, 0xA791); (0xA796, 0xA7A8, 2, 0xA797);
   (0xA7AA, 0xA7AA, 1, 0x266); (0xA7AB, 0xA7AB, 1, 0x25C);
   (0xA7AC, 0xA7AC, 1, 0x261); (0xA7AD, 0xA7AD, 1, 0x26C);
   (0xA7AE, 0xA7AE, 1, 0x26A); (0xA7B0, 0xA7B0, 1, 0x29E);
   (0xA7B1, 0xA7B1, 1, 0x287); (0xA7B2, 0xA7B2, 1, 0x29D);
   (0xA7B3, 0xA7B3, 1, 0xAB53); (0xA7B4, 0xA7C2, 2, 0xA7B5);
   (0xA7C4, 0xA7C4, 1, 0xA794); (0xA7C5, 0xA7C5, 1, 0x282);
   (0xA7C6, 0xA7C6, 1, 0x1D8E); (0xA7C7, 0xA7C9, 2, 0xA7C8);
   (0xA7D0, 0xA7D0, 1, 0xA7D1); (0xA7D6, 0xA7D8, 2, 0xA7D7);
   (0xA7F5, 0xA7F5, 1, 0xA7F6); (0xFF21, 0xFF3A, 1, 0xFF41);
   (0x10400, 0x10427, 1, 0x10428); (0x104B0, 0x104D3, 1, 0x104D8);
   (0x10570, 0x1057A, 1, 0x10597); (0x1057C, 0x1058A, 1, 0x105A3);
   (0x1058C, 0x10592, 1, 0x105B3); (0x10594, 0x10595, 1, 0x105BB);
   (0x10C80, 0x10CB2, 1, 0x10CC0); (0x118A0, 0x118BF, 1, 0x118C0);
   (0x16E40, 0x16E5F, 1, 0x16E60); (0x1E900, 0x1E921, 1, 0x1E922)]%N.

(** The code points with the property Cased that are not Case_Ignorable,
    and the Case_Ignorable ones: what the test for a final sigma looks
    at. *)
Definition cased_ranges : list (N * N) :=
  [(0x41, 0x5A); (0x61, 0x7A); (0xAA, 0xAA); (0xB5, 0xB5); (0xBA, 0xBA);
   (0xC0, 0xD6); (0xD8, 0xF6); (0xF8, 0x1BA); (0x1BC, 0x1BF); (0x1C4, 0x293);
   (0x295, 0x2AF); (0x370, 0x373); (0x376, 0x377); (0x37B, 0x37D);
   (0x37F, 0x37F); (0x386, 0x386); (0x388, 0x38A); (0x38C, 0x38C);
   (0x38E, 0x3A1); (0x3A3, 0x3F5); (0x3F7, 0x481); (0x48A, 0x52F);
   (0x531, 0x556); (0x560, 0x588); (0x10A0, 0x10C5); (0x10C7, 0x10C7);
   (0x10CD, 0x10CD); (0x10D0, 0x10FA); (0x10FD, 0x10FF); (0x13A0, 0x13F5);
   (0x13F8, 0x13FD); (0x1C80, 0x1C88); (0x1C90, 0x1CBA); (0x1CBD, 0x1CBF);
   (0x1D00, 0x1D2B); (0x1D6B, 0x1D77); (0x1D79, 0x1D9A); (0x1E00, 0x1F15);
   (0x1F18, 0x1F1D); (0x1F20, 0x1F45); (0x1F48, 0x1F4D); (0x1F50, 0x1F57);
   (0x1F59, 0x1F59); (0x1F5B, 0x1F5B); (0x1F5D, 0x1F5D); (0x1F5F, 0x1F7D);
   (0x1F80, 0x1FB4); (0x1FB6, 0x1FBC); (0x1FBE, 0x1FBE); (0x1FC2, 0x1FC4);
   (0x1FC6, 0x1FCC); (0x1FD0, 0x1FD3); (0x1FD6, 0x1FDB); (0x1FE0, 0x1FEC);
   (0x1FF2, 0x1FF4); (0x1FF6, 0x1FFC); (0x2102, 0x2102); (0x2107, 0x2107);
   (0x210A, 0x2113); (0x2115, 0x2115); (0x2119, 0x211D); (0x2124, 0x2124);
   (0x2126, 0x2126); (0x2128, 0x2128); (0x212A, 0x212D); (0x212F, 0x2134);
   (0x2139, 0x2139); (0x213C, 0x213F); (0x2145, 0x2149); (0x214E, 0x214E);
   (0x2160, 0x217F); (0x2183, 0x2184); (0x24B6, 0x24E9); (0x2C00, 0x2C7B);
   (0x2C7E, 0x2CE4); (0x2CEB, 0x2CEE); (0x2CF2, 0x2CF3); (0x2D00, 0x2D25);
   (0x2D27, 0x2D27); (0x2D2D, 0x2D2D); (0xA640, 0xA66D); (0xA680, 0xA69B);
   (0xA722, 0xA76F); (0xA771, 0xA787); (0xA78B, 0xA78E); (0xA790, 0xA7CA);
   (0xA7D0, 0xA7D1); (0xA7D3, 0xA7D3); (0xA7D5, 0xA7D9); (0xA7F5, 0xA7F6);
   (0xA7FA, 0xA7FA); (0xAB30, 0xAB5A); (0xAB60, 0xAB68); (0xAB70, 0xABBF);
   (0xFB00, 0xFB06); (0xFB13, 0xFB17); (0xFF21, 0xFF3A); (0xFF41, 0xFF5A);
   (0x10400, 0x1044F); (0x104B0, 0x104D3); (0x104D8, 0x104FB);
   (0x10570, 0x1057A); (0x1057C, 0x1058A); (0x1058C, 0x10592);
   (0x10594, 0x10595); (0x10597, 0x105A1); (0x105A3, 0x105B1);
   (0x105B3, 0x105B9); (0x105BB, 0x105BC); (0x10C80, 0x10CB2);
   (0x10CC0, 0x10CF2); (0x118A0, 0x118DF); (0x16E40, 0x16E7F);
   (0x1D400, 0x1D454); (0x1D456, 0x1D49C); (0x1D49E, 0x1D49F);
   (0x1D4A2, 0x1D4A2); (0x1D4A5, 0x1D4A6); (0x1D4A9, 0x1D4AC);
   (0x1D4AE, 0x1D4B9); (0x1D4BB, 0x1D4BB); (0x1D4BD, 0x1D4C3);
   (0x1D4C5, 0x1D505); (0x1D507, 0x1D50A); (0x1D50D, 0x1D514);
   (0x1D516, 0x1D51C); (0x1D51E, 0x1D539); (0x1D53B, 0x1D53E);
   (0x1D540, 0x1D544); (0x1D546, 0x1D546); (0x1D54A, 0x1D550);
   (0x1D552, 0x1D6A5); (0x1D6A8, 0x1D6C0); (0x1D6C2, 0x1D6DA);
   (0x1D6DC, 0x1D6FA); (0x1D6FC, 0x1D714); (0x1D716, 0x1D734);
   (0x1D736, 0x1D74E); (0x1D750, 0x1D76E); (0x1D770, 0x1D788);
   (0x1D78A, 0x1D7A8); (0x1D7AA, 0x1D7C2); (0x1D7C4, 0x1D7CB);
   (0x1DF00, 0x1DF09); (0x1DF0B, 0x1DF1E); (0x1E900, 0x1E943);
   (0x1F130, 0x1F149); (0x1F150, 0x1F169); (0x1F170, 0x1F189)]%N.

Definition case_ignorable_ranges : list (N * N) :=
  [(0x27, 0x27); (0x2E, 0x2E); (0x3A, 0x3A); (0x5E, 0x5E); (0x60, 0x60);
   (0xA8, 0xA8); (0xAD, 0xAD); (0xAF, 0xAF); (0xB4, 0xB4); (0xB7, 0xB8);
   (0x2B0, 0x36F); (0x374, 0x375); (0x37A, 0x37A); (0x384, 0x385);
   (0x387, 0x387); (0x483, 0x489); (0x559, 0x559); (0x55F, 0x55F);
   (0x591, 0x5BD); (0x5BF, 0x5BF); (0x5C1, 0x5C2); (0x5C4, 0x5C5);
   (0x5C7, 0x5C7); (0x5F4, 0x5F4); (0x600, 0x605); (0x610, 0x61A);
   (0x61C, 0x61C); (0x640, 0x640); (0x64B, 0x65F); (0x670, 0x670);
   (0x6D6, 0x6DD); (0x6DF, 0x6E8); (0x6EA, 0x6ED); (0x70F, 0x70F);
   (0x711, 0x711); (0x730, 0x74A); (0x7A6, 0x7B0); (0x7EB, 0x7F5);
   (0x7FA, 0x7FA); (0x7FD, 0x7FD); (0x816, 0x82D); (0x859, 0x85B);
   (0x888, 0x888); (0x890, 0x891); (0x898, 0x89F); (0x8C9, 0x902);
   (0x93A, 0x93A); (0x93C, 0x93C); (0x941, 0x948); (0x94D, 0x94D);
   (0x951, 0x957); (0x962, 0x963); (0x971, 0x971); (0x981, 0x981);
   (0x9BC, 0x9BC); (0x9C1, 0x9C4); (0x9CD, 0x9CD); (0x9E2, 0x9E3);
   (0x9FE, 0x9FE); (0xA01, 0xA02); (0xA3C, 0xA3C); (0xA41, 0xA42);
   (0xA47, 0xA48); (0xA4B, 0xA4D); (0xA51, 0xA51); (0xA70, 0xA71);
   (0xA75, 0xA75); (0xA81, 0xA82); (0xABC, 0xABC); (0xAC1, 0xAC5);
   (0xAC7, 0xAC8); (0xACD, 0xACD); (0xAE2, 0xAE3); (0xAFA, 0xAFF);
   (0xB01, 0xB01); (0xB3C, 0xB3C); (0xB3F, 0xB3F); (0xB41, 0xB44);
   (0xB4D, 0xB4D); (0xB55, 0xB56); (0xB62, 0xB63); (0xB82, 0xB82);
   (0xBC0, 0xBC0); (0xBCD, 0xBCD); (0xC00, 0xC00); (0xC04, 0xC04);
   (0xC3C, 0xC3C); (0xC3E, 0xC40); (0xC46, 0xC48); (0xC4A, 0xC4D);
   (0xC55, 0xC56); (0xC62, 0xC63); (0xC81, 0xC81); (0xCBC, 0xCBC);
   (0xCBF, 0xCBF); (0xCC6, 0xCC6); (0xCCC, 0xCCD); (0xCE2, 0xCE3);
   (0xD00, 0xD01); (0xD3B, 0xD3C); (0xD41, 0xD44); (0xD4D, 0xD4D);
   (0xD62, 0xD63); (0xD81, 0xD81); (0xDCA, 0xDCA); (0xDD2, 0xDD4);
   (0xDD6, 0xDD6); (0xE31, 0xE31); (0xE34, 0xE3A); (0xE46, 0xE4E);
   (0xEB1, 0xEB1); (0xEB4, 0xEBC); (0xEC6, 0xEC6); (0xEC8, 0xECD);
   (0xF18, 0xF19); (0xF35, 0xF35); (0xF37, 0xF37); (0xF39, 0xF39);
   (0xF71, 0xF7E); (0xF80, 0xF84); (0xF86, 0xF87); (0xF8D, 0xF97);
   (0xF99, 0xFBC); (0xFC6, 0xFC6); (0x102D, 0x1030); (0x1032, 0x1037);
   (0x1039, 0x103A); (0x103D, 0x103E); (0x1058, 0x1059); (0x105E, 0x1060);
   (0x1071, 0x1074); (0x1082, 0x1082); (0x1085, 0x1086); (0x108D, 0x108D);
   (0x109D, 0x109D); (0x10FC, 0x10FC); (0x135D, 0x135F); (0x1712, 0x1714);
   (0x1732, 0x1733); (0x1752, 0x1753); (0x1772, 0x1773); (0x17B4, 0x17B5);
   (0x17B7, 0x17BD); (0x17C6, 0x17C6); (0x17C9, 0x17D3); (0x17D7, 0x17D7);
   (0x17DD, 0x17DD); (0x180B, 0x180F); (0x1843, 0x1843); (0x1885, 0x1886);
   (0x18A9, 0x18A9); (0x1920, 0x1922); (0x1927, 0x1928); (0x1932, 0x1932);
   (0x1939, 0x193B); (0x1A17, 0x1A18); (0x1A1B, 0x1A1B); (0x1A56, 0x1A56);
   (0x1A58, 0x1A5E); (0x1A60, 0x1A60); (0x1A62, 0x1A62); (0x1A65, 0x1A6C);
   (0x1A73, 0x1A7C); (0x1A7F, 0x1A7F); (0x1AA7, 0x1AA7); (0x1AB0, 0x1ACE);
   (0x1B00, 0x1B03); (0x1B34, 0x1B34); (0x1B36, 0x1B3A); (0x1B3C, 0x1B3C);
   (0x1B42, 0x1B42); (0x1B6B, 0x1B73); (0x1B80, 0x1B81); (0x1BA2, 0x1BA5);
   (0x1BA8, 0x1BA9); (0x1BAB, 0x1BAD); (0x1BE6, 0x1BE6); (0x1BE8, 0x1BE9);
   (0x1BED, 0x1BED); (0x1BEF, 0x1BF1); (0x1C2C, 0x1C33); (0x1C36, 0x1C37);
   (0x1C78, 0x1C7D); (0x1CD0, 0x1CD2); (0x1CD4, 0x1CE0); (0x1CE2, 0x1CE8);
   (0x1CED, 0x1CED); (0x1CF4, 0x1CF4); (0x1CF8, 0x1CF9); (0x1D2C, 0x1D6A);
   (0x1D78, 0x1D78); (0x1D9B, 0x1DFF); (0x1FBD, 0x1FBD); (0x1FBF, 0x1FC1);
   (0x1FCD, 0x1FCF); (0x1FDD, 0x1FDF); (0x1FED, 0x1FEF); (0x1FFD, 0x1FFE);
   (0x200B, 0x200F); (0x2018, 0x2019); (0x2024, 0x2024); (0x2027, 0x2027);
   (0x202A, 0x202E); (0x2060, 0x2064); (0x2066, 0x206F); (0x2071, 0x2071);
   (0x207F, 0x207F); (0x2090, 0x209C); (0x20D0, 0x20F0); (0x2C7C, 0x2C7D);
   (0x2CEF, 0x2CF1); (0x2D6F, 0x2D6F); (0x2D7F, 0x2D7F); (0x2DE0, 0x2DFF);
   (0x2E2F, 0x2E2F); (0x3005, 0x3005); (0x302A, 0x302D); (0x3031, 0x3035);
   (0x303B, 0x303B); (0x3099, 0x309E); (0x30FC, 0x30FE); (0xA015, 0xA015);
   (0xA4F8, 0xA4FD); (0xA60C, 0xA60C); (0xA66F, 0xA672); (0xA674, 0xA67D);
   (0xA67F, 0xA67F); (0xA69C, 0xA69F); (0xA6F0, 0xA6F1); (0xA700, 0xA721);
   (0xA770, 0xA770); (0xA788, 0xA78A); (0xA7F2, 0xA7F4); (0xA7F8, 0xA7F9);
   (0xA802, 0xA802); (0xA806, 0xA806); (0xA80B, 0xA80B); (0xA825, 0xA826);
   (0xA82C, 0xA82C); (0xA8C4, 0xA8C5); (0xA8E0, 0xA8F1); (0xA8FF, 0xA8FF);
   (0xA926, 0xA92D); (0xA947, 0xA951); (0xA980, 0xA982); (0xA9B3, 0xA9B3);
   (0xA9B6, 0xA9B9); (0xA9BC, 0xA9BD); (0xA9CF, 0xA9CF); (0xA9E5, 0xA9E6);
   (0xAA29, 0xAA2E); (0xAA31, 0xAA32); (0xAA35, 0xAA36); (0xAA43, 0xAA43);
   (0xAA4C, 0xAA4C); (0xAA70, 0xAA70); (0xAA7C, 0xAA7C); (0xAAB0, 0xAAB0);
   (0xAAB2, 0xAAB4); (0xAAB7, 0xAAB8); (0xAABE, 0xAABF); (0xAAC1, 0xAAC1);
   (0xAADD, 0xAADD); (0xAAEC, 0xAAED); (0xAAF3, 0xAAF4); (0xAAF6, 0xAAF6);
   (0xAB5B, 0xAB5F); (0xAB69, 0xAB6B); (0xABE5, 0xABE5); (0xABE8, 0xABE8);
   (0xABED, 0xABED); (0xFB1E, 0xFB1E); (0xFBB2, 0xFBC2); (0xFE00, 0xFE0F);
   (0xFE13, 0xFE13); (0xFE20, 0xFE2F); (0xFE52, 0xFE52); (0xFE55, 0xFE55);
   (0xFEFF, 0xFEFF); (0xFF07, 0xFF07); (0xFF0E, 0xFF0E); (0xFF1A, 0xFF1A);
   (0xFF3E, 0xFF3E); (0xFF40, 0xFF40); (0xFF70, 0xFF70); (0xFF9E, 0xFF9F);
   (0xFFE3, 0xFFE3); (0xFFF9, 0xFFFB); (0x101FD, 0x101FD); (0x102E0, 0x102E0);
   (0x10376, 0x1037A); (0x10780, 0x10785); (0x10787, 0x107B0);
   (0x107B2, 0x107BA); (0x10A01, 0x10A03); (0x10A05, 0x10A06);
   (0x10A0C, 0x10A0F); (0x10A38, 0x10A3A); (0x10A3F, 0x10A3F);
   (0x10AE5, 0x10AE6); (0x10D24, 0x10D27); (0x10EAB, 0x10EAC);
   (0x10F46, 0x10F50); (0x10F82, 0x10F85); (0x11001, 0x11001);
   (0x11038, 0x11046); (0x11070, 0x11070); (0x11073, 0x11074);
   (0x1107F, 0x11081); (0x110B3, 0x110B6); (0x110B9, 0x110BA);
   (0x110BD, 0x110BD); (0x110C2, 0x110C2); (0x110CD, 0x110CD);
   (0x11100, 0x11102); (0x11127, 0x1112B); (0x1112D, 0x11134);
   (0x11173, 0x11173); (0x11180, 0x11181); (0x111B6, 0x111BE);
   (0x111C9, 0x111CC); (0x111CF, 0x111CF); (0x1122F, 0x11231);
   (0x11234, 0x11234); (0x11236, 0x11237); (0x1123E, 0x1123E);
   (0x112DF, 0x112DF); (0x112E3, 0x112EA); (0x11300, 0x11301);
   (0x1133B, 0x1133C); (0x11340, 0x11340); (0x11366, 0x1136C);
   (0x11370, 0x11374); (0x11438, 0x1143F); (0x11442, 0x11444);
   (0x11446, 0x11446); (0x1145E, 0x1145E); (0x114B3, 0x114B8);
   (0x114BA, 0x114BA); (0x114BF, 0x114C0); (0x114C2, 0x114C3);
   (0x115B2, 0x115B5); (0x115BC, 0x115BD); (0x115BF, 0x115C0);
   (0x115DC, 0x115DD); (0x11633, 0x1163A); (0x1163D, 0x1163D);
   (0x1163F, 0x11640); (0x116AB, 0x116AB); (0x116AD, 0x116AD);
   (0x116B0, 0x116B5); (0x116B7, 0x116B7); (0x1171D, 0x1171F);
   (0x11722, 0x11725); (0x11727, 0x1172B); (0x1182F, 0x11837);
   (0x11839, 0x1183A); (0x1193B, 0x1193C); (0x1193E, 0x1193E);
   (0x11943, 0x11943); (0x119D4, 0x119D7); (0x119DA, 0x119DB);
   (0x119E0, 0x119E0); (0x11A01, 0x11A0A); (0x11A33, 0x11A38);
   (0x11A3B, 0x11A3E); (0x11A47, 0x11A47); (0x11A51, 0x11A56);
   (0x11A59, 0x11A5B); (0x11A8A, 0x11A96); (0x11A98, 0x11A99);
   (0x11C30, 0x11C36); (0x11C38, 0x11C3D); (0x11C3F, 0x11C3F);
   (0x11C92, 0x11CA7); (0x11CAA, 0x11CB0); (0x11CB2, 0x11CB3);
   (0x11CB5, 0x11CB6); (0x11D31, 0x11D36); (0x11D3A, 0x11D3A);
   (0x11D3C, 0x11D3D); (0x11D3F, 0x11D45); (0x11D47, 0x11D47);
   (0x11D90, 0x11D91); (0x11D95, 0x11D95); (0x11D97, 0x11D97);
   (0x11EF3, 0x11EF4); (0x13430, 0x13438); (0x16AF0, 0x16AF4);
   (0x16B30, 0x16B36); (0x16B40, 0x16B43); (0x16F4F, 0x16F4F);
   (0x16F8F, 0x16F9F); (0x16FE0, 0x16FE1); (0x16FE3, 0x16FE4);
   (0x1AFF0, 0x1AFF3); (0x1AFF5, 0x1AFFB); (0x1AFFD, 0x1AFFE);
   (0x1BC9D, 0x1BC9E); (0x1BCA0, 0x1BCA3); (0x1CF00, 0x1CF2D);
   (0x1CF30, 0x1CF46); (0x1D167, 0x1D169); (0x1D173, 0x1D182);
   (0x1D185, 0x1D18B); (0x1D1AA, 0x1D1AD); (0x1D242, 0x1D244);
   (0x1DA00, 0x1DA36); (0x1DA3B, 0x1DA6C); (0x1DA75, 0x1DA75);
   (0x1DA84, 0x1DA84); (0x1DA9B, 0x1DA9F); (0x1DAA1, 0x1DAAF);
   (0x1E000, 0x1E006); (0x1E008, 0x1E018); (0x1E01B, 0x1E021);
   (0x1E023, 0x1E024); (0x1E026, 0x1E02A); (0x1E130, 0x1E13D);
   (0x1E2AE, 0x1E2AE); (0x1E2EC, 0x1E2EF); (0x1E8D0, 0x1E8D6);
   (0x1E944, 0x1E94B); (0x1F3FB, 0x1F3FF); (0xE0001, 0xE0001);
   (0xE0020, 0xE007F); (0xE0100, 0xE01EF)]%N.

Definition in_ranges (ranges : list (N * N)) (c : N) : bool :=
  existsb (λ r, (r.1 <=? c) && (c <=? r.2))%N ranges.

Definition cased (c : N) : bool := in_ranges cased_ranges c.

Definition case_ignorable (c : N) : bool := in_ranges case_ignorable_ranges c.

Fixpoint to_lower_in (runs : list (N * N * N * N)) (c : N) : N :=
  match runs with
  | [] => c
  | (lo, hi, step, image) :: rest =>
      if ((lo <=? c) && (c <=? hi) && ((c - lo) mod step =? 0))%N
      then (image + (c - lo))%N
      else to_lower_in rest c
  end.

(** The lowercase of a code point that has a single one. *)
Definition to_lower (c : N) : N := to_lower_in lower_runs c.

Fixpoint skip_ignorable (s : str) : str :=
  match s with
  | [] => []
  | c :: rest => if case_ignorable c then skip_ignorable rest else s
  end.

(** Whether a capital sigma is the last letter of a word: a cased letter
    stands before it and none after it, case-ignorable characters apart.
    [before] holds the characters before the sigma, the nearest first. *)
Definition final_sigma (before after : str) : bool :=
  match skip_ignorable before with
  | [] => false
  | c :: _ =>
      cased c
      && match skip_ignorable after with
         | [] => true
         | d :: _ => negb (cased d)
         end
  end.

(** The lowercase of the code point [c] where it stands. *)
Definition lower_at (before : str) (c : N) (after : str) : str :=
  if (c =? 0x3A3)%N then
    if final_sigma before after then [0x3C2%N] else [0x3C3%N]
  else if (c =? 0x130)%N then [0x69%N; 0x307%N]
  else [to_lower c].

Fixpoint lower_from (before s : str) : str :=
  match s with
  | [] => []
  | c :: rest => lower_at before c rest ++ lower_from (c :: before) rest
  end.

(** [str.lower()] *)
Definition lower (s : str) : str := lower_from [] s.

Fixpoint lstrip (s : str) : str :=
  match s with
  | [] => []
  | c :: s' => if isspace c then lstrip s' else s
  end.

Fixpoint rstrip (s : str) : str :=
  match s with
  | [] => []
  | c :: s' =>
      match rstrip s' with
      | [] => if isspace c then [] else [c]
      | r => c :: r
      end
  end.

(** [str.strip()] with no argument. *)
Definition strip (s : str) : str := rstrip (lstrip s).

Definition all_space (s : str) : bool := forallb isspace s.

End PyStr.

Coercion PyStr.of_string : string >-> str.

(** ** Row source: [read_texts_from_excel]

    The three scripts carry the same method. *)

Module RowSource.
Import PyStr.

(** What a cell of the data frame may hold. *)
Inductive cell :=
| CNaN                   (* float('nan'), pandas' empty cell *)
| CNone
| CText (s : str)
| CInt (z : Z)
| CBool (b : bool)
| COther (shown : str).  (* a float, a timestamp, ...: what str() gives *)

(** [str(cell)] *)
Definition py_str (c : cell) : str :=
  match c with
  | CNaN => "nan"
  | CNone => "None"
  | CText s => s
  | CInt z => pretty z
  | CBool true => "True"
  | CBool false => "False"
  | COther shown => shown
  end.

(** A data frame as [df.iterrows()] walks it: the rows in order, the
    index being the default 0, 1, 2, ... *)
Definition dataframe := list (list cell).

Definition len (row : list cell) : Z := Z.of_nat (length row).

(** [row.iloc[i]]: negative positions count from the end, a position
    outside the row raises IndexError. *)
Definition iloc (row : list cell) (i : Z) : py_result cell :=
  let j := if i <? 0 then len row + i else i in
  if (0 <=? j) && (j <? len row) then
    match row !! Z.to_nat j with
    | Some c => Ok c
    | None => Raise (Error "IndexError")
    end
  else Raise (Error "IndexError").

(** [text and text.lower() != 'nan' and text != 'None'] *)
Definition keep (text : str) : bool :=
  negb (eqb text "")
  && negb (eqb (lower text) "nan")
  && negb (eqb text "None").

(** The [for idx, row in df.iterrows()] loop, [texts] being the list
    appended to. *)
Fixpoint iterrows (rows : dataframe) (idx start_row column_index : Z)
    (texts : list (Z * str)) : py_result (list (Z * str)) :=
  match rows with
  | [] => Ok texts
  | row :: rest =>
      let row_num := idx + start_row in
      if column_index <? len row then
        match iloc row column_index with
        | Raise e => Raise e
        | Ok c =>
            let text := strip (py_str c) in
            if keep text
            then iterrows rest (idx + 1) start_row column_index
                   (texts ++ [(row_num, text)])
            else iterrows rest (idx + 1) start_row column_index texts
        end
      else iterrows rest (idx + 1) start_row column_index texts
  end.

(** The body of [read_texts_from_excel] once pandas has produced [df]. *)
Definition read_rows (df : dataframe) (column_index : Z) (has_header : bool)
    : py_result (list (Z * str)) :=
  let start_row := if has_header then 2 else 1 in
  iterrows df 0 start_row column_index [].

(** The cell the loop reads in a row, when the column is in range. *)
Definition cell_at (row : list cell) (column_index : Z) : option cell :=
  if column_index <? len row then
    match iloc row column_index with
    | Ok c => Some c
    | Raise _ => None
    end
  else None.

Definition start_of (has_header : bool) : Z := if has_header then 2 else 1.

(** The text kept for one row, if any. *)
Definition kept_text (row : list cell) (column_index : Z) : option str :=
  match cell_at row column_index with
  | Some c => let text := strip (py_str c) in
              if keep text then Some text else None
  | None => None
  end.

(** What the loop adds for the rows from position [idx] on. *)
Fixpoint selected (rows : dataframe) (idx start_row column_index : Z)
    : list (Z * str) :=
  match rows with
  | [] => []
  | row :: rest =>
      match kept_text row column_index with
      | Some text => (idx + start_row, text)
                       :: selected rest (idx + 1) start_row column_index
      | None => selected rest (idx + 1) start_row column_index
      end
  end.

(** *** From the sheet to the data frame: [pd.read_excel]

    The scripts call [pd.read_excel(excel_path, sheet_name=0)], with
    [header=None] when the sheet has no header row, and leave [na_values]
    and [keep_default_na] at their defaults. *)

(** What a cell of the sheet holds: nothing, a string, or a value of
    another kind (a number, a boolean, a date).  For the latter the frame
    holds [held], whose type pandas chooses by the column: an int or a
    float for a whole number, for instance.  A string in a column of
    numeric strings, which pandas converts, counts as such a value. *)
Inductive sheet_cell :=
| SBlank                 (* no value *)
| SText (s : str)
| SValue (held : cell).

(** The rows of the first sheet, the header row included. *)
Definition sheet := list (list sheet_cell).

(** The strings pandas reads as a missing value by default
    ([STR_NA_VALUES]); the comparison is exact. *)
Definition na_values : list str :=
  [ "" : str; "#N/A" : str; "#N/A N/A" : str; "#NA" : str; "-1.#IND" : str;
    "-1.#QNAN" : str; "-NaN" : str; "-nan" : str; "1.#IND" : str;
    "1.#QNAN" : str; "<NA>" : str; "N/A" : str; "NA" : str; "NULL" : str;
    "NaN" : str; "None" : str; "n/a" : str; "nan" : str; "null" : str ].

Definition is_na (s : str) : bool := existsb (eqb s) na_values.

(** The value of the frame for a cell of the sheet. *)
Definition parse_cell (sc : sheet_cell) : cell :=
  match sc with
  | SBlank => CNaN
  | SText s => if is_na s then CNaN else CText s
  | SValue held => held
  end.

(** The rows of the sheet that become rows of the frame: with a header
    row, the first row gives the column names. *)
Definition data_rows (sh : sheet) (has_header : bool)
    : list (list sheet_cell) :=
  if has_header then drop 1 sh else sh.

Definition pd_read_excel (sh : sheet) (has_header : bool) : dataframe :=
  (λ row : list sheet_cell, parse_cell <$> row) <$> data_rows sh has_header.


(** *** The words of the specification *)

(** The code points that count as whitespace. *)
Definition whitespace : list N :=
  [ 0x9; 0xA; 0xB; 0xC; 0xD; 0x1C; 0x1D; 0x1E; 0x1F; 0x20; 0x85; 0xA0;
    0x1680; 0x2000; 0x2001; 0x2002; 0x2003; 0x2004; 0x2005; 0x2006; 0x2007;
    0x2008; 0x2009; 0x200A; 0x2028; 0x2029; 0x202F; 0x205F; 0x3000 ]%N.

Definition blank (s : str) : Prop := Forall (λ c, c ∈ whitespace) s.

(** "nan" in every letter case. *)
Definition nan_spellings : list str :=
  [ "nan" : str; "naN" : str; "nAn" : str; "nAN" : str;
    "Nan" : str; "NaN" : str; "NAn" : str; "NAN" : str ].

(** [t] is [s] without the whitespace around it. *)
Definition trimmed (s t : str) : Prop :=
  ∃ pre post,
    s = pre ++ t ++ post ∧ blank pre ∧ blank post
    ∧ (∀ c, head t = Some c → c ∉ whitespace)
    ∧ (∀ c, last t = Some c → c ∉ whitespace).





End RowSource.

(** ** JSON values, as [response.json()] returns them *)

Inductive json :=
| JNull
| JBool (b : bool)
| JNum (q : Q)
| JStr (s : string)
| JList (l : list json)
| JDict (m : gmap string json).

(** Sequencing of operations that may raise: [x <-? r ;; k] stops at the
    first exception. *)
Definition bind_result {A B} (r : py_result A) (k : A → py_result B)
    : py_result B :=
  match r with
  | Ok a => k a
  | Raise e => Raise e
  end.

Notation "x <-? r ;; k" := (bind_result r (λ x, k))
  (at level 100, r at next level, right associativity, only parsing).

(** The Python operations the scripts apply to JSON values.  Applied to a
    value of the wrong type they raise, as Python does. *)
Module Py.

(** [bool(x)] *)
Definition truthy (j : json) : bool :=
  match j with
  | JNull => false
  | JBool b => b
  | JNum q => negb (Qeq_bool q 0)
  | JStr s => negb (String.eqb s "")
  | JList l => negb (Nat.eqb (length l) 0)
  | JDict m => negb (Nat.eqb (size m) 0)
  end.

Definition is_dict (j : json) : bool :=
  match j with JDict _ => true | _ => false end.

Definition is_str (j : json) : bool :=
  match j with JStr _ => true | _ => false end.

Definition str_eq (k : string) (j : json) : bool :=
  match j with JStr s => String.eqb s k | _ => false end.

Definition is_some {A} (o : option A) : bool :=
  match o with Some _ => true | None => false end.

Definition is_substring (k s : string) : bool :=
  match String.index 0 k s with Some _ => true | None => false end.

(** [k in x] for a string [k] *)
Definition contains (k : string) (j : json) : py_result bool :=
  match j with
  | JDict m => Ok (is_some (m !! k))
  | JStr s => Ok (is_substring k s)
  | JList l => Ok (existsb (str_eq k) l)
  | _ => Raise (Error "TypeError")
  end.

(** [isinstance(x, dict) and k in x] *)
Definition dict_has (k : string) (j : json) : bool :=
  match j with
  | JDict m => is_some (m !! k)
  | _ => false
  end.

(** [x[k]] for a string [k] *)
Definition getitem (k : string) (j : json) : py_result json :=
  match j with
  | JDict m => match m !! k with
               | Some v => Ok v
               | None => Raise (Error "KeyError")
               end
  | _ => Raise (Error "TypeError")
  end.

(** [x.get(k, default)] *)
Definition get (k : string) (default : json) (j : json) : py_result json :=
  match j with
  | JDict m => Ok (match m !! k with Some v => v | None => default end)
  | _ => Raise (Error "AttributeError")
  end.

(** [x[0]] *)
Definition getitem0 (j : json) : py_result json :=
  match j with
  | JList (x :: _) => Ok x
  | JList [] => Raise (Error "IndexError")
  | JStr (String c _) => Ok (JStr (String c EmptyString))
  | JStr EmptyString => Raise (Error "IndexError")
  | JDict _ => Raise (Error "KeyError")
  | _ => Raise (Error "TypeError")
  end.

(** [len(x)] *)
Definition len (j : json) : py_result Z :=
  match j with
  | JList l => Ok (Z.of_nat (length l))
  | JStr s => Ok (Z.of_nat (String.length s))
  | JDict m => Ok (Z.of_nat (size m))
  | _ => Raise (Error "TypeError")
  end.

(** [x[:100]], whose value is only printed *)
Definition slice (j : json) : py_result unit :=
  match j with
  | JStr _ | JList _ => Ok tt
  | _ => Raise (Error "TypeError")
  end.

(** [x.startswith(p)] *)
Definition startswith (p : string) (j : json) : py_result bool :=
  match j with
  | JStr s => Ok (String.prefix p s)
  | _ => Raise (Error "AttributeError")
  end.

End Py.

(** ** The outside world and the effects of the scripts *)

Definition bytes := list byte.

(** [if image_data:] on a value that is [None] or a bytes object *)
Definition bytes_truthy (image_data : option bytes) : bool :=
  match image_data with
  | Some (_ :: _) => true
  | _ => false
  end.

(** What [requests.post] and the status query give back: an exception, or
    a response whose [.json()] either parses or raises. *)
Inductive body :=
| NotJson
| Json (j : json).

Inductive reply :=
| Fails (e : exn)
| Response (status_code : Z) (b : body).

(** What [requests.get(image_url)] gives back. *)
Inductive download :=
| DownloadFails (e : exn)
| Downloaded (status_code : Z) (content : bytes).

(** Each kind of call is answered by its rank among the calls of that kind
    since the start of the run, and by its argument. *)
Record world := {
  time_now : Z;                                  (* int(time.time()) *)
  post_reply : nat → str → reply;                (* requests.post(api_url) *)
  query_reply : nat → json → reply;              (* requests.get(task_url) *)
  get_reply : nat → json → download;             (* requests.get(image_url) *)
  dump_ok : nat → bool;                          (* open + json.dump *)
  b64decode : json → option bytes;               (* None: it raises *)
  image_ok : bytes → bool;                       (* Image.open and save *)
  open_workbook : string → py_result RowSource.sheet
    (* the first sheet of the workbook, or what pandas raises *)
}.

(** [pd.read_excel(excel_path, sheet_name=0)], with [header=None] when
    there is no header row. *)
Definition read_excel (w : world) (excel_path : string) (has_header : bool)
    : py_result RowSource.dataframe :=
  sh <-? open_workbook w excel_path;;
  Ok (RowSource.pd_read_excel sh has_header).

Record clock := {
  posts : nat;
  queries : nat;
  gets : nat;
  dumps : nat
}.

Definition clock0 : clock :=
  {| posts := 0; queries := 0; gets := 0; dumps := 0 |}.

(** The [time.sleep] calls of the scripts, by where they stand. *)
Inductive sleep_site :=
| RateLimitWait      (* after a 429 *)
| RetryBackoff       (* "重试前等待", end of the retry loop body *)
| PollInterval       (* in get_task_result *)
| RowDelay.          (* "控制请求频率", in batch_generate *)

Inductive debug_file :=
| DebugResponse (row_num : Z)                  (* debug_response_{row_num}.json *)
| DebugTask (task_id : json) (attempt : Z).    (* task_debug_{task_id}_{attempt}.json *)

(** The path [os.path.join(output_dir, f"row_{row_num:04d}.png")]. *)
Inductive filepath :=
| RowPng (row_num : Z).

Inductive event :=
| HttpPost (prompt : str)
| TaskQuery (task_id : json)
| HttpGet (image_url : json)
| WriteDebug (f : debug_file)
| SaveImage (p : filepath)
| WriteReport (success_rows failed_rows : list Z)
| PrintReason (message : json)       (* "失败原因: ..." *)
| CallExtract                        (* extract_image_from_result is entered *)
| Sleep (site : sleep_site) (seconds : Q).

(** A method: from the call counters to its result, the counters after it
    and the effects it performed, oldest first. *)
Definition M (A : Type) : Type := clock → py_result A * clock * list event.

Definition ret {A} (a : A) : M A := λ c, (Ok a, c, []).

Definition bind {A B} (m : M A) (k : A → M B) : M B := λ c,
  let '(r, c1, t1) := m c in
  match r with
  | Ok a => let '(r2, c2, t2) := k a c1 in (r2, c2, t1 ++ t2)
  | Raise e => (Raise e, c1, t1)
  end.

Notation "x <- m ;; k" := (bind m (λ x, k))
  (at level 100, m at next level, right associativity, only parsing).

Definition raise {A} (e : exn) : M A := λ c, (Raise e, c, []).

Definition lift {A} (r : py_result A) : M A := λ c, (r, c, []).

Definition emit (e : event) : M unit := λ c, (Ok tt, c, [e]).

(** [try: body  except ...: handler] *)
Definition try_except {A} (body : M A) (handler : exn → M A) : M A := λ c,
  let '(r, c1, t1) := body c in
  match r with
  | Ok a => (Ok a, c1, t1)
  | Raise e => let '(r2, c2, t2) := handler e c1 in (r2, c2, t1 ++ t2)
  end.

Definition sleep (site : sleep_site) (seconds : Q) : M unit :=
  emit (Sleep site seconds).

Definition http_post (w : world) (prompt : str) : M (Z * body) := λ c,
  let c' := {| posts := S (posts c); queries := queries c;
               gets := gets c; dumps := dumps c |} in
  match post_reply w (posts c) prompt with
  | Fails e => (Raise e, c', [HttpPost prompt])
  | Response status_code b => (Ok (status_code, b), c', [HttpPost prompt])
  end.

Definition task_query (w : world) (task_id : json) : M (Z * body) := λ c,
  let c' := {| posts := posts c; queries := S (queries c);
               gets := gets c; dumps := dumps c |} in
  match query_reply w (queries c) task_id with
  | Fails e => (Raise e, c', [TaskQuery task_id])
  | Response status_code b => (Ok (status_code, b), c', [TaskQuery task_id])
  end.

Definition http_get (w : world) (image_url : json) : M (Z * bytes) := λ c,
  let c' := {| posts := posts c; queries := queries c;
               gets := S (gets c); dumps := dumps c |} in
  match get_reply w (gets c) image_url with
  | DownloadFails e => (Raise e, c', [HttpGet image_url])
  | Downloaded status_code content =>
      (Ok (status_code, content), c', [HttpGet image_url])
  end.

(** [response.json()] *)
Definition response_json (b : body) : M json :=
  match b with
  | NotJson => raise JSONDecodeError
  | Json j => ret j
  end.

(** [with open(debug_file, "w") as f: json.dump(result, f)] *)
Definition dump_debug (w : world) (f : debug_file) : M unit := λ c,
  let c' := {| posts := posts c; queries := queries c;
               gets := gets c; dumps := S (dumps c) |} in
  if dump_ok w (dumps c) then (Ok tt, c', [WriteDebug f])
  else (Raise (Error "OSError"), c', [WriteDebug f]).

(** How one pass through the body of a [for attempt in range(..)] loop
    ends. *)
Inductive ctl (A : Type) :=
| Return (a : A)      (* return a *)
| Continue            (* continue *)
| Break               (* break *)
| Next.               (* the end of the try statement is reached *)
Arguments Return {A} a.
Arguments Continue {A}.
Arguments Break {A}.
Arguments Next {A}.

(** [range(n)] *)
Definition range (n : Z) : list Z := Z.of_nat <$> seq 0 (Z.to_nat n).

(** [delay > 0] *)
Definition positive (delay : Q) : bool := negb (Qle_bool delay 0).

(** [x and len(x) > 0] used as a condition *)
Definition nonempty (j : json) : py_result bool :=
  if Py.truthy j then n <-? Py.len j;; Ok (n >? 0) else Ok false.

(** [isinstance(result, dict) and k in result and result[k]] *)
Definition has_truthy (k : string) (j : json) : bool :=
  match j with
  | JDict m => match m !! k with
               | Some v => Py.truthy v
               | None => false
               end
  | _ => false
  end.

(** [image = Image.open(BytesIO(image_data)); image.save(filepath, "PNG")] *)
Definition pil_save (w : world) (image_data : bytes) (p : filepath) : M unit :=
  if image_ok w image_data then emit (SaveImage p)
  else raise (Error "UnidentifiedImageError").

(** [base64.b64decode(j)] outside any local try *)
Definition b64decode_or_raise (w : world) (j : json) : M (option bytes) :=
  match b64decode w j with
  | Some data => ret (Some data)
  | None => raise (Error "binascii.Error")
  end.

(** ** Batch driver and entry point, the same in the three scripts

    [generate_image] is the adapter's method as [batch_generate] calls it:
    with the text, the row number and the defaults for the rest. *)

Record report := {
  total : Z;
  success : Z;
  failed : Z;
  success_rows : list Z;
  failed_rows : list Z
}.

Module Batch.
Section Driver.
Variable w : world.
Variable generate_image : str → Z → M (option filepath).

(** [read_texts_from_excel]: pandas reads the sheet, the loop filters it;
    an exception is printed and raised again. *)
Definition read_texts_from_excel (excel_path : string) (column_index : Z)
    (has_header : bool) : M (list (Z * str)) :=
  try_except
    (df <- lift (read_excel w excel_path has_header);;
     lift (RowSource.read_rows df column_index has_header))
    (λ e, raise e).

(** "控制请求频率" *)
Definition row_delay (delay : Q) (texts : list (Z * str)) : M unit :=
  if positive delay && (Z.of_nat (length texts) >? 1)
  then sleep RowDelay delay
  else ret tt.

(** [for row_num, text in tqdm(texts)]: [todo] is what is left of
    [texts]. *)
Fixpoint batch_loop (delay : Q) (texts todo : list (Z * str))
    (success_rows failed_rows : list Z) : M (list Z * list Z) :=
  match todo with
  | [] => ret (success_rows, failed_rows)
  | (row_num, text) :: rest =>
      result <- generate_image text row_num;;
      let '(success_rows, failed_rows) :=
        match result with
        | Some _ => (success_rows ++ [row_num], failed_rows)
        | None => (success_rows, failed_rows ++ [row_num])
        end in
      _ <- row_delay delay texts;;
      batch_loop delay texts rest success_rows failed_rows
  end.

Definition batch_generate (texts : list (Z * str)) (delay : Q)
    : M (list Z * list Z) :=
  batch_loop delay texts texts [] [].

Definition generate_report (success_rows failed_rows : list Z) : M unit :=
  emit (WriteReport success_rows failed_rows).

Definition generate_from_excel (excel_path : string) (column_index : Z)
    (has_header : bool) (delay : Q) : M (option report) :=
  texts <- read_texts_from_excel excel_path column_index has_header;;
  match texts with
  | [] => ret None
  | _ =>
      done <- batch_generate texts delay;;
      let '(success, failed) := done in
      _ <- generate_report success failed;;
      ret (Some {| total := Z.of_nat (length texts);
                   success := Z.of_nat (length success);
                   failed := Z.of_nat (length failed);
                   success_rows := success;
                   failed_rows := failed |})
  end.

End Driver.
End Batch.

(** ** qwen-image-plus.py: synchronous adapter with retry *)

Module Qwen.
Section Adapter.
Variable w : world.

(** [image_data] and [image_url] as the chain of tests leaves them;
    a missing [image_url] is [None], that is [JNull]. *)
Definition nothing : py_result (option bytes * json) := Ok (None, JNull).

(** "第一种可能：返回base64编码的图片" *)
Definition shape_images (result : json) : py_result (option bytes * json) :=
  images <-? Py.getitem "images" result;;
  first <-? Py.getitem0 images;;
  if Py.is_str first then Ok (b64decode w first, JNull) else nothing.

(** "第二种可能：返回图片URL" under output.choices[0].message.content[0].image *)
Definition shape_output (result : json) : py_result (option bytes * json) :=
  output <-? Py.get "output" (JDict ∅) result;;
  if Py.dict_has "choices" output then
    choices <-? Py.get "choices" (JList []) output;;
    filled <-? nonempty choices;;
    if filled then
      choice <-? Py.getitem0 choices;;
      if Py.dict_has "message" choice then
        message <-? Py.get "message" (JDict ∅) choice;;
        if Py.dict_has "content" message then
          contents <-? Py.get "content" (JList []) message;;
          filled' <-? nonempty contents;;
          if filled' then
            content <-? Py.getitem0 contents;;
            if Py.dict_has "image" content then
              image_url <-? Py.get "image" JNull content;;
              http <-? (if Py.truthy image_url
                      then Py.startswith "http" image_url else Ok false);;
              if http then Ok (None, image_url)
              else
                (* try: image_data = b64decode(content.get("image", "")) *)
                image <-? Py.get "image" (JStr "") content;;
                Ok (b64decode w image, image_url)
            else nothing
          else nothing
        else nothing
      else nothing
    else nothing
  else nothing.

(** "第三种可能：返回data字段" *)
Definition shape_data (result : json) : py_result (option bytes * json) :=
  data_list <-? Py.get "data" (JList []) result;;
  filled <-? nonempty data_list;;
  if filled then
    item <-? Py.getitem0 data_list;;
    has_url <-? Py.contains "url" item;;
    if has_url then
      image_url <-? Py.get "url" JNull item;;
      _ <-? Py.slice image_url;;
      Ok (None, image_url)
    else
      has_b64 <-? Py.contains "b64_json" item;;
      if has_b64 then
        (* the [.get] stands inside the try with a bare except *)
        match Py.get "b64_json" (JStr "") item with
        | Ok v => Ok (b64decode w v, JNull)
        | Raise _ => nothing
        end
      else nothing
  else nothing.

(** The if / elif / elif chain over the parsed body. *)
Definition parse_response (result : json) : py_result (option bytes * json) :=
  if Py.is_dict result then
    if has_truthy "images" result then shape_images result
    else if Py.dict_has "output" result then shape_output result
    else if has_truthy "data" result then shape_data result
    else nothing
  else nothing.

(** "如果有图片URL，下载图片" *)
Definition download_image (image_url : json) (image_data : option bytes)
    : M (option bytes) :=
  if Py.truthy image_url then
    try_except
      (_ <- lift (Py.slice image_url);;
       got <- http_get w image_url;;
       let '(status_code, content) := got in
       if status_code =? 200 then ret (Some content) else ret image_data)
      (λ _, ret image_data)
  else ret image_data.

(** "如果有图片数据，保存图片" *)
Definition save_image (row_num : Z) (image_data : option bytes)
    : M (ctl filepath) :=
  if bytes_truthy image_data then
    let filepath := RowPng row_num in
    try_except
      (_ <- pil_save w (default [] image_data) filepath;;
       ret (Return filepath))
      (λ _, ret Next)
  else ret Next.

(** The body of the [try] of one attempt. *)
Definition attempt_body (prompt : str) (row_num attempt : Z)
    : M (ctl filepath) :=
  posted <- http_post w prompt;;
  let '(status_code, b) := posted in
  if status_code =? 200 then
    result <- response_json b;;
    _ <- dump_debug w (DebugResponse row_num);;
    parsed <- lift (parse_response result);;
    let '(image_data, image_url) := parsed in
    image_data <- download_image image_url image_data;;
    save_image row_num image_data
  else if status_code =? 429 then
    _ <- sleep RateLimitWait (inject_Z ((attempt + 1) * 10));;
    ret Continue
  else if status_code =? 401 then ret Break
  else if status_code =? 400 then ret Break
  else ret Next.

(** The three [except] clauses; each one prints and goes on. *)
Definition handler (e : exn) : M (ctl filepath) :=
  match e with
  | Timeout => ret Next
  | JSONDecodeError => ret Next
  | Error _ => ret Next
  end.

(** "重试前等待" *)
Definition backoff (attempt retry_count : Z) : M unit :=
  if attempt <? retry_count - 1
  then sleep RetryBackoff (inject_Z (2 ^ attempt))
  else ret tt.

(** [for attempt in range(retry_count)], then [return None] *)
Fixpoint retry_loop (prompt : str) (row_num retry_count : Z)
    (attempts : list Z) : M (option filepath) :=
  match attempts with
  | [] => ret None
  | attempt :: rest =>
      c <- try_except (attempt_body prompt row_num attempt) handler;;
      match c with
      | Return p => ret (Some p)
      | Continue => retry_loop prompt row_num retry_count rest
      | Break => ret None
      | Next =>
          _ <- backoff attempt retry_count;;
          retry_loop prompt row_num retry_count rest
      end
  end.

(** [generate_image(prompt, row_num=None, retry_count=3, ...)]; the other
    keyword arguments only go into the request. *)
Definition generate_image (prompt : str) (row_num : option Z)
    (retry_count : Z) : M (option filepath) :=
  let row_num := match row_num with
                 | Some r => r
                 | None => time_now w
                 end in
  retry_loop prompt row_num retry_count (range retry_count).

Definition batch_generate :=
  Batch.batch_generate (λ text row_num, generate_image text (Some row_num) 3).

Definition generate_from_excel :=
  Batch.generate_from_excel w
    (λ text row_num, generate_image text (Some row_num) 3).

End Adapter.
End Qwen.

(** ** seedream3.0&4.0.py: synchronous adapter with retry *)

Module Seedream.
Section Adapter.
Variable w : world.

(** "情况1: 返回base64编码", then the [data] list.  Nothing here stands
    in a local try: what raises leaves the attempt. *)
Definition image_of (result : json) : M (option bytes) :=
  if has_truthy "images" result then
    first <- lift (images <-? Py.getitem "images" result;;
                   Py.getitem0 images);;
    b64decode_or_raise w first
  else if has_truthy "data" result then
    item <- lift (data <-? Py.getitem "data" result;; Py.getitem0 data);;
    has_b64 <- lift (Py.contains "b64_json" item);;
    if has_b64 then
      b64 <- lift (Py.getitem "b64_json" item);;
      b64decode_or_raise w b64
    else
      has_url <- lift (Py.contains "url" item);;
      if has_url then
        url <- lift (Py.getitem "url" item);;
        img_response <- http_get w url;;
        ret (Some (snd img_response))
      else ret None
  else ret None.

Definition save_image (row_num : Z) (image_data : option bytes)
    : M (ctl filepath) :=
  if bytes_truthy image_data then
    let filepath := RowPng row_num in
    try_except
      (_ <- pil_save w (default [] image_data) filepath;;
       ret (Return filepath))
      (λ _, ret Next)
  else ret Next.

(** The body of the [try] of one attempt. *)
Definition attempt_body (prompt : str) (row_num attempt : Z)
    : M (ctl filepath) :=
  posted <- http_post w prompt;;
  let '(status_code, b) := posted in
  if status_code =? 200 then
    result <- response_json b;;
    image_data <- image_of result;;
    save_image row_num image_data
  else if status_code =? 429 then
    _ <- sleep RateLimitWait (inject_Z ((attempt + 1) * 10));;
    ret Continue
  else ret Next.

(** The two [except] clauses. *)
Definition handler (e : exn) : M (ctl filepath) :=
  match e with
  | Timeout => ret Next
  | _ => ret Next
  end.

Definition backoff (attempt retry_count : Z) : M unit :=
  if attempt <? retry_count - 1
  then sleep RetryBackoff (inject_Z (2 ^ attempt))
  else ret tt.

Fixpoint retry_loop (prompt : str) (row_num retry_count : Z)
    (attempts : list Z) : M (option filepath) :=
  match attempts with
  | [] => ret None
  | attempt :: rest =>
      c <- try_except (attempt_body prompt row_num attempt) handler;;
      match c with
      | Return p => ret (Some p)
      | Continue => retry_loop prompt row_num retry_count rest
      | Break => ret None
      | Next =>
          _ <- backoff attempt retry_count;;
          retry_loop prompt row_num retry_count rest
      end
  end.

(** [generate_image(prompt, row_num, retry_count=3)] *)
Definition generate_image (prompt : str) (row_num retry_count : Z)
    : M (option filepath) :=
  retry_loop prompt row_num retry_count (range retry_count).

Definition batch_generate :=
  Batch.batch_generate (λ text row_num, generate_image text row_num 3).

Definition generate_from_excel :=
  Batch.generate_from_excel w
    (λ text row_num, generate_image text row_num 3).

End Adapter.
End Seedream.

(** ** wan2.5-t2i-preview.py: asynchronous adapter *)

Module Wan.
Section Adapter.
Variable w : world.

(** [create_async_task]: the task id, or [None] (here [JNull]). *)
Definition create_async_task (prompt : str) : M json :=
  try_except
    (posted <- http_post w prompt;;
     let '(status_code, b) := posted in
     if status_code =? 200 then
       result <- response_json b;;
       lift (has_output <-? Py.contains "output" result;;
             has_id <-? (if has_output
                         then output <-? Py.getitem "output" result;;
                              Py.contains "task_id" output
                         else Ok false);;
             if has_id
             then output <-? Py.getitem "output" result;;
                  Py.getitem "task_id" output
             else Ok JNull)
     else ret JNull)
    (λ _, ret JNull).

(** One pass through the polling loop: the value returned, if the pass
    returns. *)
Definition poll_body (task_id : json) (attempt : Z) (retry_interval : Q)
    : M (ctl json) :=
  polled <- task_query w task_id;;
  let '(status_code, b) := polled in
  if status_code =? 200 then
    result <- response_json b;;
    _ <- dump_debug w (DebugTask task_id attempt);;
    has_output <- lift (Py.contains "output" result);;
    if has_output then
      output <- lift (Py.getitem "output" result);;
      task_status <- lift (Py.get "task_status" (JStr "UNKNOWN") output);;
      if Py.str_eq "SUCCEEDED" task_status then ret (Return result)
      else if Py.str_eq "FAILED" task_status then
        has_message <- lift (Py.contains "message" output);;
        _ <- (if has_message
              then message <- lift (Py.getitem "message" output);;
                   emit (PrintReason message)
              else ret tt);;
        ret (Return JNull)
      else if Py.str_eq "RUNNING" task_status then
        _ <- sleep PollInterval retry_interval;; ret Next
      else
        _ <- sleep PollInterval retry_interval;; ret Next
    else
      _ <- sleep PollInterval retry_interval;; ret Next
  else
    _ <- sleep PollInterval retry_interval;; ret Next.

Definition poll_handler (retry_interval : Q) (e : exn) : M (ctl json) :=
  _ <- sleep PollInterval retry_interval;; ret Next.

Fixpoint poll_loop (task_id : json) (retry_interval : Q)
    (attempts : list Z) : M json :=
  match attempts with
  | [] => ret JNull
  | attempt :: rest =>
      c <- try_except (poll_body task_id attempt retry_interval)
             (poll_handler retry_interval);;
      match c with
      | Return r => ret r
      | Break => ret JNull
      | Continue | Next => poll_loop task_id retry_interval rest
      end
  end.

(** [get_task_result(task_id, max_retries=30, retry_interval=30)]: the
    task's last status document, or [None] (here [JNull]). *)
Definition get_task_result (task_id : json) (max_retries : Z)
    (retry_interval : Q) : M json :=
  poll_loop task_id retry_interval (range max_retries).

(** [try: image_data = base64.b64decode(x[k])  except: ...] *)
Definition b64_at (k : string) (x : json) : option bytes :=
  match Py.getitem k x with
  | Ok v => b64decode w v
  | Raise _ => None
  end.

(** The first half of [extract_image_from_result]: [image_data] and
    [image_url] as the tests leave them. *)
Definition find_image (result : json) : py_result (option bytes * json) :=
  has_output <-? Py.contains "output" result;;
  if has_output then
    output <-? Py.getitem "output" result;;
    has_results <-? Py.contains "results" output;;
    results <-? (if has_results then Py.getitem "results" output
                 else Ok JNull);;
    if has_results && Py.truthy results then
      n <-? Py.len results;;
      if n >? 0 then
        first_result <-? Py.getitem0 results;;
        has_url <-? Py.contains "url" first_result;;
        if has_url then
          image_url <-? Py.getitem "url" first_result;;
          _ <-? Py.slice image_url;;
          Ok (None, image_url)
        else
          has_image <-? Py.contains "image" first_result;;
          if has_image then Ok (b64_at "image" first_result, JNull)
          else Ok (None, JNull)
      else Ok (None, JNull)
    else
      has_image <-? Py.contains "image" output;;
      if has_image then Ok (b64_at "image" output, JNull)
      else Ok (None, JNull)
  else Ok (None, JNull).

Definition download_image (image_url : json) (image_data : option bytes)
    : M (option bytes) :=
  if Py.truthy image_url then
    try_except
      (got <- http_get w image_url;;
       let '(status_code, content) := got in
       if status_code =? 200 then ret (Some content) else ret image_data)
      (λ _, ret image_data)
  else ret image_data.

Definition extract_image_from_result (result : json) : M (option bytes) :=
  _ <- emit CallExtract;;
  try_except
    (found <- lift (find_image result);;
     let '(image_data, image_url) := found in
     download_image image_url image_data)
    (λ _, ret None).

(** [generate_image(prompt, row_num=None, n=1)] *)
Definition generate_image (prompt : str) (row_num : option Z)
    : M (option filepath) :=
  let row_num := match row_num with
                 | Some r => r
                 | None => time_now w
                 end in
  task_id <- create_async_task prompt;;
  if negb (Py.truthy task_id) then ret None
  else
    task_result <- get_task_result task_id 30 (inject_Z 30);;
    if negb (Py.truthy task_result) then ret None
    else
      image_data <- extract_image_from_result task_result;;
      if negb (bytes_truthy image_data) then ret None
      else
        let filepath := RowPng row_num in
        try_except
          (_ <- pil_save w (default [] image_data) filepath;;
           ret (Some filepath))
          (λ _, ret None).

Definition batch_generate :=
  Batch.batch_generate (λ text row_num, generate_image text (Some row_num)).

Definition generate_from_excel :=
  Batch.generate_from_excel w
    (λ text row_num, generate_image text (Some row_num)).

End Adapter.
End Wan.

(** ** Reading a trace *)

Definition is_post (e : event) : bool :=
  match e with HttpPost _ => true | _ => false end.

Definition is_query (e : event) : bool :=
  match e with TaskQuery _ => true | _ => false end.

Definition is_get (e : event) : bool :=
  match e with HttpGet _ => true | _ => false end.

Definition is_extract (e : event) : bool :=
  match e with CallExtract => true | _ => false end.

Definition is_sleep (e : event) : bool :=
  match e with Sleep _ _ => true | _ => false end.

Definition is_row_delay (e : event) : bool :=
  match e with Sleep RowDelay _ => true | _ => false end.

(** How many events of a kind a trace holds. *)
Definition count (kind : event → bool) (t : list event) : nat :=
  length (List.filter kind t).

(** The sleeps of a trace, in order. *)
Definition sleeps (t : list event) : list event := List.filter is_sleep t.

(** The status code of a reply that is a response. *)
Definition status_of (r : reply) : option Z :=
  match r with
  | Response status_code _ => Some status_code
  | Fails _ => None
  end.

(** The counters after [n] more POSTs, and after [n] more status queries
    with their debug dumps. *)
Definition after_posts (n : nat) (c : clock) : clock :=
  {| posts := n + posts c; queries := queries c;
     gets := gets c; dumps := dumps c |}.

Definition after_polls (n : nat) (c : clock) : clock :=
  {| posts := posts c; queries := n + queries c;
     gets := gets c; dumps := n + dumps c |}.

(** A reply the seedream loop handles by its last [else], or by an
    [except] clause. *)
Definition seedream_plain_failure (r : reply) : Prop :=
  match r with
  | Fails _ => True
  | Response status_code _ => status_code ≠ 200 ∧ status_code ≠ 429
  end.

(** A reply the qwen loop handles by its last [else], or by an [except]
    clause. *)
Definition qwen_plain_failure (r : reply) : Prop :=
  match r with
  | Fails _ => True
  | Response status_code _ =>
      status_code ≠ 200 ∧ status_code ≠ 429
      ∧ status_code ≠ 401 ∧ status_code ≠ 400
  end.

(** The wait at the end of a pass that reached the end of its [try]. *)
Definition backoff_trace (attempt retry_count : Z) : list event :=
  if attempt <? retry_count - 1
  then [Sleep RetryBackoff (inject_Z (2 ^ attempt))]
  else [].


(** The status document [{"output": {"task_status": status, ...}, ...}]. *)
Definition task_status_is (status : string) (result : json) : bool :=
  match result with
  | JDict m =>
      match m !! "output" with
      | Some (JDict output) =>
          match output !! "task_status" with
          | Some (JStr s) => String.eqb s status
          | _ => false
          end
      | _ => false
      end
  | _ => false
  end.

(** The vendor's reason in a status document, [result["output"]["message"]]. *)
Definition failure_message (result : json) : option json :=
  match result with
  | JDict m =>
      match m !! "output" with
      | Some (JDict output) => output !! "message"
      | _ => None
      end
  | _ => None
  end.

Definition reason_trace (result : json) : list event :=
  match failure_message result with
  | Some message => [PrintReason message]
  | None => []
  end.

(** The task id in the answer to the submission,
    [result["output"]["task_id"]]. *)
Definition created_task (result : json) : option json :=
  match result with
  | JDict m =>
      match m !! "output" with
      | Some (JDict output) => output !! "task_id"
      | _ => None
      end
  | _ => None
  end.

(** The effects of polls that find the task running. *)
Definition running_trace (task_id : json) (retry_interval : Q)
    (attempts : list Z) : list event :=
  attempts ≫= λ attempt,
    [TaskQuery task_id; WriteDebug (DebugTask task_id attempt);
     Sleep PollInterval retry_interval].

(** An event that is neither a status query nor the entry of the
    extraction. *)
Definition past_polling (e : event) : Prop :=
  is_query e = false ∧ is_extract e = false.

(** The wait of [batch_generate] after a row. *)
Definition delay_trace (delay : Q) (texts : list (Z * str)) : list event :=
  if positive delay && (Z.of_nat (length texts) >? 1)
  then [Sleep RowDelay delay]
  else [].

(** An event that is not the wait between rows. *)
Definition in_row (e : event) : Prop := is_row_delay e = false.

(** A method whose every effect satisfies [P]. *)
Definition emits {A} (P : event → Prop) (m : M A) : Prop :=
  ∀ c, Forall P (m c).2.

(** A method that returns: no exception leaves it. *)
Definition returns {A} (m : M A) : Prop :=
  ∀ c, ∃ a c' t, m c = (Ok a, c', t).

(** [result["output"]["choices"][0]["message"]["content"][0]["image"]] in a
    body of the layout the qwen script documents. *)
Definition output_image (result : json) : option json :=
  match result with
  | JDict m =>
      match m !! "output" with
      | Some (JDict output) =>
          match output !! "choices" with
          | Some (JList (JDict choice :: _)) =>
              match choice !! "message" with
              | Some (JDict message) =>
                  match message !! "content" with
                  | Some (JList (JDict content :: _)) => content !! "image"
                  | _ => None
                  end
              | _ => None
              end
          | _ => None
          end
      | _ => None
      end
  | _ => None
  end.

(** [result["data"][0]] when it is an object. *)
Definition data_item (result : json) : option (gmap string json) :=
  match result with
  | JDict m =>
      match m !! "data" with
      | Some (JList (JDict item :: _)) => Some item
      | _ => None
      end
  | _ => None
  end.

(** The counters after the POST, the debug dump and the image GET of one
    attempt. *)
Definition after_fetch (c : clock) : clock :=
  {| posts := S (posts c); queries := queries c;
     gets := S (gets c); dumps := S (dumps c) |}.

(** The batch drivers and the entry points of the three scripts. *)
Definition batch_drivers (w : world)
    : list (list (Z * str) → Q → M (list Z * list Z)) :=
  [Qwen.batch_generate w; Seedream.batch_generate w; Wan.batch_generate w].

Definition entry_points (w : world)
    : list (string → Z → bool → Q → M (option report)) :=
  [Qwen.generate_from_excel w; Seedream.generate_from_excel w;
   Wan.generate_from_excel w].




(** Each script's [generate_image], as its [batch_generate] calls it, with
    that [batch_generate]. *)
Definition adapters (w : world)
    : list ((str → Z → M (option filepath))
            * (list (Z * str) → Q → M (list Z * list Z))) :=
  [ (λ text row_num, Qwen.generate_image w text (Some row_num) 3,
     Qwen.batch_generate w);
    (λ text row_num, Seedream.generate_image w text row_num 3,
     Seedream.batch_generate w);
    (λ text row_num, Wan.generate_image w text (Some row_num),
     Wan.batch_generate w) ].

(** The calls of [generate_image] for the rows [todo], one after the other:
    each starts from the counters the one before has left.  A call is given
    with its result, the counters after it and its effects. *)
Fixpoint row_runs (generate_image : str → Z → M (option filepath))
    (todo : list (Z * str)) (c : clock)
    : list (py_result (option filepath) * clock * list event) :=
  match todo with
  | [] => []
  | (row_num, text) :: rest =>
      let run := generate_image text row_num c in
      run :: row_runs generate_image rest run.1.2
  end.

(** ** Worlds to run the scripts in *)

Module Examples.

(** A PNG image of one grey pixel, and its base64 text. *)
Definition png : bytes :=
  [x89; x50; x4e; x47; x0d; x0a; x1a; x0a; x00; x00; x00; x0d; x49; x48; x44;
   x52; x00; x00; x00; x01; x00; x00; x00; x01; x08; x00; x00; x00; x00; x3a;
   x7e; x9b; x55; x00; x00; x00; x0a; x49; x44; x41; x54; x78; xda; x63; x60;
   x00; x00; x00; x02; x00; x01; xe5; x27; xde; xfc; x00; x00; x00; x00; x49;
   x45; x4e; x44; xae; x42; x60; x82].

Definition png_base64 : string :=
  "iVBORw0KGgoAAAANSUhEUgAAAAEAAAABCAAAAAA6fptVAAAACklEQVR42mNgAAAAAgAB5Sfe/AAAAABJRU5ErkJggg==".

Fixpoint same_bytes (a b : bytes) : bool :=
  match a, b with
  | [], [] => true
  | x :: a', y :: b' => Byte.eqb x y && same_bytes a' b'
  | _, _ => false
  end.

(** A world that answers the POSTs by [post], the status queries by
    [query], serves [png] at every URL, decodes its base64 text and opens
    that image only, and in which the disk works. *)
Definition world_of (post query : nat → reply) : world := {|
  time_now := 1700000000;
  post_reply := λ k _, post k;
  query_reply := λ k _, query k;
  get_reply := λ _ _, Downloaded 200 png;
  dump_ok := λ _, true;
  b64decode := λ j, match j with
                    | JStr s => if String.eqb s png_base64 then Some png
                                else None
                    | _ => None
                    end;
  image_ok := λ data, same_bytes data png;
  open_workbook := λ _, Ok []
|}.

Definition no_reply : nat → reply := λ _, Fails (Error "ConnectionError").

Definition always_401 : world :=
  world_of (λ _, Response 401 NotJson) no_reply.

Definition always_timeout : world :=
  world_of (λ _, Fails Timeout) no_reply.

(** [{"images": ["iVBORw0KGgo..."]}] *)
Definition inline_image : json :=
  JDict {[ "images" := JList [JStr png_base64] ]}.

(** [{"output": {"choices": [{"message": {"content":
      [{"image": "http://oss/1.png"}]}}]}}] *)
Definition nested_url : json :=
  JDict {[ "output" :=
    JDict {[ "choices" :=
      JList [JDict {[ "message" :=
        JDict {[ "content" :=
          JList [JDict {[ "image" := JStr "http://oss/1.png" ]}] ]} ]}] ]} ]}.

Definition answers_nested_url : world :=
  world_of (λ _, Response 200 (Json nested_url)) no_reply.

Definition limited_twice : world :=
  world_of (λ k, if (k <? 2)%nat then Response 429 NotJson
                 else Response 200 (Json inline_image))
    no_reply.

(** [{"output": {"task_id": "task-1", "task_status": "PENDING"}}] *)
Definition task_created : json :=
  JDict {[ "output" := JDict {[ "task_id" := JStr "task-1";
                                "task_status" := JStr "PENDING" ]} ]}.

Definition task_running : json :=
  JDict {[ "output" := JDict {[ "task_id" := JStr "task-1";
                                "task_status" := JStr "RUNNING" ]} ]}.

Definition task_succeeded : json :=
  JDict {[ "output" :=
             JDict {[ "task_id" := JStr "task-1";
                      "task_status" := JStr "SUCCEEDED";
                      "results" :=
                        JList [JDict {[ "url" := JStr "http://oss/1.png" ]}]
                   ]} ]}.

Definition task_failed : json :=
  JDict {[ "output" := JDict {[ "task_id" := JStr "task-1";
                                "task_status" := JStr "FAILED";
                                "message" := JStr "content rejected" ]} ]}.

(** The task runs for two polls and has succeeded at the third. *)
Definition slow_task : world :=
  world_of (λ _, Response 200 (Json task_created))
    (λ k, if (k <? 2)%nat then Response 200 (Json task_running)
          else Response 200 (Json task_succeeded)).

(** The task has failed at the first poll. *)
Definition failing_task : world :=
  world_of (λ _, Response 200 (Json task_created))
    (λ _, Response 200 (Json task_failed)).

End Examples.

(** ** Further observations and the test mode *)

Definition is_save (e : event) : bool :=
  match e with SaveImage _ => true | _ => false end.

Definition is_report (e : event) : bool :=
  match e with WriteReport _ _ => true | _ => false end.

(** The prompts submitted along a trace, in order. *)
Definition posted_prompts (t : list event) : list str :=
  omap (λ e, match e with HttpPost prompt => Some prompt | _ => None end) t.

(** The events an adapter's [generate_image] may perform: all but the
    batch driver's own. *)
Definition adapter_event (e : event) : Prop :=
  is_row_delay e = false ∧ is_report e = false.

(** What a loop pass returns to the caller of the method, if it returns. *)
Definition returned {A} (c : ctl A) : option A :=
  match c with
  | Return a => Some a
  | _ => None
  end.

(** The link between the value of [generate_image] and the image file: a
    path is returned right after that very file was saved, and nothing else
    was saved. *)
Definition saves_iff_returns (row_num : Z) (r : option filepath)
    (t : list event) : Prop :=
  match r with
  | Some p =>
      p = RowPng row_num
      ∧ ∃ t0, t = t0 ++ [SaveImage p] ∧ count is_save t0 = 0%nat
  | None => count is_save t = 0%nat
  end.

(** A method that performs at most [n] events of a kind. *)
Definition at_most {A} (kind : event → bool) (n : nat) (m : M A) : Prop :=
  ∀ c, (count kind (m c).2 ≤ n)%nat.

(** The same link for the outcome of a part of the method, whose value
    [proj] turns into what the method returns. *)
Definition saves_ok {A} (proj : A → option filepath) (row_num : Z)
    (out : py_result A * clock * list event) : Prop :=
  match out.1.1 with
  | Ok a => saves_iff_returns row_num (proj a) out.2
  | Raise _ => count is_save out.2 = 0%nat
  end.

(** The row numbers of the rows whose generation gave a result that
    satisfies [pick]. *)
Definition rows_where (pick : option filepath → bool)
    (todo : list (Z * str)) (results : list (option filepath)) : list Z :=
  (List.filter (λ p, pick p.2) (zip todo results)).*1.*1.

(** The effects of passes that all end in a plain failure, and of passes
    that are all answered by 429. *)
Definition failure_trace (prompt : str) (retry_count : Z)
    (attempts : list Z) : list event :=
  attempts ≫= λ attempt, HttpPost prompt :: backoff_trace attempt retry_count.

Definition limited_trace (prompt : str) (attempts : list Z) : list event :=
  attempts ≫= λ attempt,
    [HttpPost prompt; Sleep RateLimitWait (inject_Z ((attempt + 1) * 10))].

(** A reply to a status query that ends the polling: a 200 whose document
    says SUCCEEDED or FAILED. *)
Definition terminal (r : reply) : bool :=
  match r with
  | Response status_code (Json result) =>
      (status_code =? 200)
      && (task_status_is "SUCCEEDED" result || task_status_is "FAILED" result)
  | _ => false
  end.

(** The task id [create_async_task] returns for a reply to the
    submission. *)
Definition task_id_of (r : reply) : json :=
  match r with
  | Response status_code (Json result) =>
      if status_code =? 200 then default JNull (created_task result)
      else JNull
  | _ => JNull
  end.

(** The first entry of [result["output"]["results"]] when it is an
    object. *)
Definition first_result (result : json) : option (gmap string json) :=
  match result with
  | JDict m =>
      match m !! "output" with
      | Some (JDict output) =>
          match output !! "results" with
          | Some (JList (JDict first :: _)) => Some first
          | _ => None
          end
      | _ => None
      end
  | _ => None
  end.

(** The world [w] with the submissions answered by [post]. *)
Definition with_post (w : world) (post : nat → str → reply) : world := {|
  time_now := time_now w;
  post_reply := post;
  query_reply := query_reply w;
  get_reply := get_reply w;
  dump_ok := dump_ok w;
  b64decode := b64decode w;
  image_ok := image_ok w;
  open_workbook := open_workbook w
|}.

(** The world [w] in which no payload opens as an image. *)
Definition rejecting (w : world) : world := {|
  time_now := time_now w;
  post_reply := post_reply w;
  query_reply := query_reply w;
  get_reply := get_reply w;
  dump_ok := dump_ok w;
  b64decode := b64decode w;
  image_ok := λ _, false;
  open_workbook := open_workbook w
|}.

(** The world [w] in which no debug file can be written. *)
Definition undumped (w : world) : world := {|
  time_now := time_now w;
  post_reply := post_reply w;
  query_reply := query_reply w;
  get_reply := get_reply w;
  dump_ok := λ _, false;
  b64decode := b64decode w;
  image_ok := image_ok w;
  open_workbook := open_workbook w
|}.


(** [{"output": {"choices": [{"message": {"content":
      [{"image": "iVBORw0KGgo..."}]}}]}}] *)
Definition nested_base64 : json :=
  JDict {[ "output" :=
    JDict {[ "choices" :=
      JList [JDict {[ "message" :=
        JDict {[ "content" :=
          JList [JDict {[ "image" := JStr Examples.png_base64 ]}] ]} ]}] ]} ]}.

(** The counters after one image GET. *)
Definition after_get (c : clock) : clock :=
  {| posts := posts c; queries := queries c;
     gets := S (gets c); dumps := dumps c |}.

(** [TestGenerator.read_texts_from_excel] of [test_mode]: the same read,
    but an exception is printed and the empty list returned. *)
Definition test_read_texts_from_excel (w : world) (excel_path : string)
    (column_index : Z) (has_header : bool) : M (list (Z * str)) :=
  try_except
    (df <- lift (read_excel w excel_path has_header);;
     lift (RowSource.read_rows df column_index has_header))
    (λ _, ret []).

(** [test_mode]: [true] when it prints "测试成功", [false] when it prints
    "测试失败". *)
Definition test_mode (w : world) (excel_file : string) : M bool :=
  texts <- test_read_texts_from_excel w excel_file 0 false;;
  match texts with
  | [] => ret false
  | _ => ret true
  end.

(** A world as [Examples.world_of], with a sheet of four rows in one
    column under every path. *)
Definition sheet_world (post query : nat → reply) : world := {|
  time_now := time_now (Examples.world_of post query);
  post_reply := post_reply (Examples.world_of post query);
  query_reply := query_reply (Examples.world_of post query);
  get_reply := get_reply (Examples.world_of post query);
  dump_ok := dump_ok (Examples.world_of post query);
  b64decode := b64decode (Examples.world_of post query);
  image_ok := image_ok (Examples.world_of post query);
  open_workbook := λ _,
    Ok [[RowSource.SText " a cat "]; [RowSource.SBlank];
        [RowSource.SText "a dog"]; [RowSource.SText "None"]]
|}.

(** * Properties *)

(** ** Strings *)

Section StringFacts.
Import PyStr.

Lemma eqb_eq a b : eqb a b = true ↔ a = b.
Proof.
  revert b. induction a as [|x a IH]; intros [|y b]; simpl; try done.
  rewrite andb_true_iff, N.eqb_eq, IH. split; [by intros [-> ->]|].
  by intros [= -> ->].
Qed.

Lemma eqb_neq a b : eqb a b = false ↔ a ≠ b.
Proof. rewrite <- not_true_iff_false. by rewrite eqb_eq. Qed.

(** [str.isspace] accepts exactly the code points listed as whitespace. *)
Lemma isspace_whitespace c : isspace c = true ↔ c ∈ RowSource.whitespace.
Proof.
  unfold isspace, RowSource.whitespace.
  rewrite !orb_true_iff, !andb_true_iff, !N.leb_le, !N.eqb_eq.
  rewrite !elem_of_cons, elem_of_nil. lia.
Qed.

Lemma all_space_blank s : all_space s = true ↔ RowSource.blank s.
Proof.
  unfold all_space, RowSource.blank.
  rewrite forallb_forall, Forall_forall.
  split; intros H c Hc.
  - apply isspace_whitespace, H. by apply list_elem_of_In.
  - apply isspace_whitespace, H. by apply list_elem_of_In.
Qed.

Lemma rstrip_empty s : rstrip s = [] ↔ all_space s = true.
Proof.
  induction s as [|c s IH]; simpl; [done|].
  destruct (rstrip s) eqn:E.
  - destruct (isspace c); simpl; [tauto|].
    split; [discriminate|]. intros [=].
  - split; [discriminate|]. intros H.
    apply andb_true_iff in H as [_ H]. apply IH in H. discriminate.
Qed.

Lemma all_space_lstrip s : all_space (lstrip s) = all_space s.
Proof.
  induction s as [|c s IH]; simpl; [done|].
  destruct (isspace c) eqn:E; simpl; [done|]. by rewrite E.
Qed.

(** Trimming leaves nothing exactly when the text is blank. *)
Lemma strip_empty s : strip s = [] ↔ all_space s = true.
Proof. unfold strip. by rewrite rstrip_empty, all_space_lstrip. Qed.

Lemma lstrip_app_space pre s : all_space pre = true → lstrip (pre ++ s) = lstrip s.
Proof.
  induction pre as [|c pre IH]; simpl; [done|].
  intros [-> H]%andb_true_iff. by apply IH.
Qed.

Lemma rstrip_app_space s post :
  all_space post = true → rstrip (s ++ post) = rstrip s.
Proof.
  intros H. induction s as [|c s IH]; simpl.
  - by apply rstrip_empty.
  - by rewrite IH.
Qed.

Lemma lstrip_head s : ∀ c, head (lstrip s) = Some c → isspace c = false.
Proof.
  induction s as [|c s IH]; simpl; [done|].
  destruct (isspace c) eqn:E; [done|]. simpl. by intros ? [= <-].
Qed.

Lemma lstrip_id s : (∀ c, head s = Some c → isspace c = false) → lstrip s = s.
Proof. destruct s as [|c s]; simpl; [done|]. intros H. by rewrite H. Qed.

Lemma rstrip_id s : (∀ c, last s = Some c → isspace c = false) → rstrip s = s.
Proof.
  induction s as [|c s IH]; simpl; [done|]. intros H.
  destruct s as [|c' s].
  - simpl. by rewrite H.
  - rewrite IH; [done|]. intros d Hd. apply H. by rewrite last_cons, Hd.
Qed.

Lemma rstrip_head s :
  (∀ c, head s = Some c → isspace c = false) →
  ∀ c, head (rstrip s) = Some c → isspace c = false.
Proof.
  destruct s as [|c s]; simpl; [done|]. intros Hc d.
  destruct (rstrip s).
  - rewrite Hc by done. simpl. intros [= <-]. by apply Hc.
  - simpl. intros [= <-]. by apply Hc.
Qed.

Lemma rstrip_last s : ∀ c, last (rstrip s) = Some c → isspace c = false.
Proof.
  induction s as [|c s IH]; simpl; [done|]. intros d.
  destruct (rstrip s) as [|c' r] eqn:E.
  - destruct (isspace c) eqn:Hc; simpl; [done|]. by intros [= <-].
  - simpl. apply IH.
Qed.

(** The whitespace [lstrip] and [rstrip] take away. *)
Lemma lstrip_split s :
  ∃ pre, s = pre ++ lstrip s ∧ all_space pre = true.
Proof.
  induction s as [|c s (pre & IH & Hpre)]; simpl; [by exists []|].
  destruct (isspace c) eqn:E.
  - exists (c :: pre). simpl. rewrite E, Hpre. split; [by f_equal|done].
  - by exists [].
Qed.

Lemma rstrip_split s :
  ∃ post, s = rstrip s ++ post ∧ all_space post = true.
Proof.
  induction s as [|c s (post & IH & Hpost)]; simpl; [by exists []|].
  destruct (rstrip s) as [|c' r] eqn:E.
  - destruct (isspace c) eqn:Hc.
    + exists (c :: post). simpl in *. rewrite Hc, Hpost. split; [|done].
      by rewrite IH at 1.
    + exists post. split; [|done]. simpl in *. by rewrite IH at 1.
  - exists post. split; [|done]. simpl. by rewrite IH at 1.
Qed.

(** [strip] gives the text without the whitespace around it, and nothing
    else does. *)
Lemma strip_trimmed s : RowSource.trimmed s (strip s).
Proof.
  destruct (lstrip_split s) as (pre & E1 & Hpre).
  destruct (rstrip_split (lstrip s)) as (post & E2 & Hpost).
  exists pre, post. fold (strip s) in E2.
  split; [by rewrite <- E2|].
  split; [by apply all_space_blank|]. split; [by apply all_space_blank|].
  split; intros c Hc; rewrite <- isspace_whitespace; apply not_true_iff_false.
  - eapply rstrip_head; [apply lstrip_head|done].
  - by eapply rstrip_last.
Qed.

Lemma trimmed_strip s t : RowSource.trimmed s t → strip s = t.
Proof.
  intros (pre & post & -> & Hpre%all_space_blank & Hpost%all_space_blank
          & Hh & Hl).
  unfold strip. rewrite lstrip_app_space by done.
  assert (Hh' : ∀ c, head t = Some c → isspace c = false).
  { intros c Hc. apply not_true_iff_false. rewrite isspace_whitespace.
    by apply Hh. }
  assert (Hl' : ∀ c, last t = Some c → isspace c = false).
  { intros c Hc. apply not_true_iff_false. rewrite isspace_whitespace.
    by apply Hl. }
  destruct t as [|c t].
  - simpl. by apply (strip_empty post).
  - rewrite lstrip_id by (simpl; intros d [= <-]; by apply Hh').
    rewrite rstrip_app_space by done. by apply rstrip_id.
Qed.

(** Trimming twice is trimming once. *)
Lemma strip_idemp s : strip (strip s) = strip s.
Proof.
  apply trimmed_strip.
  destruct (strip_trimmed s) as (p & q & _ & _ & _ & Hh & Hl).
  exists [], []. rewrite app_nil_r.
  split; [done|]. split; [constructor|]. split; [constructor|]. by split.
Qed.

(** *** Lower case *)

Lemma to_lower_in_cases runs c :
  to_lower_in runs c = c
  ∨ ∃ lo hi step image,
      (lo, hi, step, image) ∈ runs ∧ (lo ≤ c ≤ hi)%N
      ∧ to_lower_in runs c = (image + (c - lo))%N.
Proof.
  induction runs as [|[[[lo hi] step] image] runs IH]; simpl; [by left|].
  destruct ((lo <=? c)%N && (c <=? hi)%N && _) eqn:E.
  - right. exists lo, hi, step, image.
    apply andb_true_iff in E as [[E1%N.leb_le E2%N.leb_le]%andb_true_iff _].
    split; [by left|]. split; [lia|done].
  - destruct IH as [IH|(lo' & hi' & step' & image' & Hin & Hc & IH)];
      [by left|].
    right. exists lo', hi', step', image'. split; [by right|done].
Qed.

(** Of the code points that have a lowercase of their own, only A-Z and
    the Kelvin sign go below U+0080. *)
Lemma lower_runs_images :
  Forall (λ run : N * N * N * N,
            let '(lo, hi, step, image) := run in
            (0x80 ≤ image)%N ∨ run = (0x41, 0x5A, 1, 0x61)%N
            ∨ run = (0x212A, 0x212A, 1, 0x6B)%N) lower_runs.
Proof.
  apply Forall_forall. intros run Hin.
  assert (H : forallb (λ run : N * N * N * N,
                         let '(lo, hi, step, image) := run in
                         (0x80 <=? image)%N
                         || bool_decide (run = (0x41, 0x5A, 1, 0x61)%N)
                         || bool_decide (run = (0x212A, 0x212A, 1, 0x6B)%N))
                lower_runs = true) by (by vm_compute).
  rewrite forallb_forall in H.
  specialize (H run ltac:(by apply list_elem_of_In)).
  destruct run as [[[lo hi] step] image].
  rewrite !orb_true_iff, !bool_decide_eq_true, N.leb_le in H. tauto.
Qed.

Lemma to_lower_ascii c x :
  to_lower c = x → (x = 0x6E ∨ x = 0x61)%N → c = x ∨ (c + 0x20)%N = x.
Proof.
  unfold to_lower. intros E Hx.
  destruct (to_lower_in_cases lower_runs c)
    as [H|(lo & hi & step & image & Hin & Hc & H)]; [left; congruence|].
  pose proof lower_runs_images as Hall.
  rewrite Forall_forall in Hall. specialize (Hall _ Hin). simpl in Hall.
  destruct Hall as [Himg|[[= -> -> -> ->]|[= -> -> -> ->]]]; lia.
Qed.

Lemma lower_at_nonempty before c after : lower_at before c after ≠ [].
Proof.
  unfold lower_at. destruct (c =? 0x3A3)%N; [by destruct (final_sigma _ _)|].
  by destruct (c =? 0x130)%N.
Qed.

Lemma lower_from_nil before s : lower_from before s = [] → s = [].
Proof.
  destruct s as [|c s]; [done|]. simpl.
  intros [H _]%app_eq_nil. by apply lower_at_nonempty in H.
Qed.

Lemma lower_from_letter before c rest x out :
  lower_from before (c :: rest) = x :: out →
  (x = 0x6E ∨ x = 0x61)%N →
  (c = x ∨ (c + 0x20)%N = x) ∧ lower_from (c :: before) rest = out.
Proof.
  simpl. unfold lower_at.
  destruct (c =? 0x3A3)%N.
  { destruct (final_sigma _ _); simpl; intros [= <- _]; lia. }
  destruct (c =? 0x130)%N; [simpl; intros [= <- _]; lia|].
  simpl. intros [= Hx Hout] H. split; [|done]. by eapply to_lower_ascii.
Qed.

(** The texts whose lowercase is "nan" are the eight spellings of it. *)
Lemma lower_nan s : lower s = ("nan" : str) ↔ s ∈ RowSource.nan_spellings.
Proof.
  split.
  - unfold lower. change ("nan" : str) with [0x6E; 0x61; 0x6E]%N.
    destruct s as [|c1 s]; [done|].
    intros [H1 E]%lower_from_letter; [|by left].
    destruct s as [|c2 s]; [done|].
    apply lower_from_letter in E as [H2 E]; [|by right].
    destruct s as [|c3 s]; [done|].
    apply lower_from_letter in E as [H3 E]; [|by left].
    apply lower_from_nil in E as ->.
    assert (Hc1 : (c1 = 0x6E ∨ c1 = 0x4E)%N) by lia.
    assert (Hc2 : (c2 = 0x61 ∨ c2 = 0x41)%N) by lia.
    assert (Hc3 : (c3 = 0x6E ∨ c3 = 0x4E)%N) by lia.
    clear H1 H2 H3.
    destruct Hc1 as [-> | ->], Hc2 as [-> | ->], Hc3 as [-> | ->];
      vm_compute; set_solver.
  - unfold RowSource.nan_spellings. rewrite !elem_of_cons, elem_of_nil.
    intros [->|[->|[->|[->|[->|[->|[->|[->|[]]]]]]]]]; by vm_compute.
Qed.

End StringFacts.

(** ** Row source *)

Section RowSourceFacts.
Import PyStr RowSource.

(** The test of the loop on a trimmed text, in plain terms. *)
Lemma keep_true text :
  keep text = true ↔
  text ≠ [] ∧ (text ∉ nan_spellings) ∧ text ≠ ("None" : str).
Proof.
  unfold keep.
  rewrite !andb_true_iff, !negb_true_iff, !eqb_neq, <- lower_nan. tauto.
Qed.



(** The loop with its accumulator computes [selected]. *)
Lemma iterrows_selected rows : ∀ idx start_row column_index acc texts,
  iterrows rows idx start_row column_index acc = Ok texts →
  texts = acc ++ selected rows idx start_row column_index.
Proof.
  induction rows as [|row rows IH]; intros idx start c acc texts; simpl.
  - intros [= <-]. by rewrite app_nil_r.
  - unfold kept_text, cell_at.
    destruct (c <? len row); [|by apply IH].
    destruct (iloc row c) as [cl|e]; [|discriminate].
    destruct (keep (strip (py_str cl))); [|by apply IH].
    intros H. apply IH in H. by rewrite <- app_assoc in H.
Qed.

Lemma read_rows_selected df column_index has_header texts :
  read_rows df column_index has_header = Ok texts →
  texts = selected df 0 (start_of has_header) column_index.
Proof. intros H. by apply iterrows_selected in H. Qed.

Lemma elem_of_selected rows : ∀ idx start_row column_index r t,
  (r, t) ∈ selected rows idx start_row column_index ↔
  ∃ (i : nat) row, rows !! i = Some row
    ∧ r = idx + Z.of_nat i + start_row
    ∧ kept_text row column_index = Some t.
Proof.
  induction rows as [|row rows IH]; intros idx start c r t; simpl.
  - split; [by intros ?%elem_of_nil|]. by intros (i & row & ? & _).
  - assert (Hrest : (r, t) ∈ selected rows (idx + 1) start c ↔
              ∃ (i : nat) row', (row :: rows) !! S i = Some row'
                ∧ r = idx + Z.of_nat (S i) + start
                ∧ kept_text row' c = Some t).
    { rewrite IH. split; intros (i & row' & H1 & H2 & H3);
        exists i, row'; (split; [done|]); (split; [lia|done]). }
    destruct (kept_text row c) as [text|] eqn:Hk.
    + rewrite elem_of_cons, Hrest. split.
      * intros [[= -> ->]|(i & row' & ?)].
        -- exists 0%nat, row. split; [done|]. split; [lia|done].
        -- by exists (S i), row'.
      * intros ([|i] & row' & H1 & H2 & H3).
        -- left. simpl in H1. injection H1 as <-.
           rewrite Hk in H3. injection H3 as <-. f_equal. lia.
        -- right. by exists i, row'.
    + rewrite Hrest. split.
      * intros (i & row' & ?). by exists (S i), row'.
      * intros ([|i] & row' & H1 & H2 & H3).
        -- simpl in H1. injection H1 as <-. congruence.
        -- by exists i, row'.
Qed.

Lemma selected_lower_bound rows : ∀ idx start_row column_index r t,
  (r, t) ∈ selected rows idx start_row column_index → idx + start_row ≤ r.
Proof.
  intros idx start c r t (i & row & _ & -> & _)%elem_of_selected. lia.
Qed.

(** Row numbers come out in strictly increasing order. *)
Lemma selected_sorted rows : ∀ idx start_row column_index,
  StronglySorted Z.lt (selected rows idx start_row column_index).*1.
Proof.
  induction rows as [|row rows IH]; intros idx start c; simpl.
  - constructor.
  - destruct (kept_text row c); [|apply IH].
    simpl. constructor; [apply IH|].
    apply Forall_forall. intros r Hr.
    apply list_elem_of_fmap in Hr as ([r' t] & -> & Hin).
    apply selected_lower_bound in Hin. simpl. lia.
Qed.


End RowSourceFacts.

(** ** The monad *)

Section MonadFacts.
Context {A B : Type}.

Lemma bind_ok (m : M A) (k : A → M B) c a c1 t1 :
  m c = (Ok a, c1, t1) →
  bind m k c = (let '(r2, c2, t2) := k a c1 in (r2, c2, t1 ++ t2)).
Proof. unfold bind. by intros ->. Qed.

Lemma bind_raise (m : M A) (k : A → M B) c e c1 t1 :
  m c = (Raise e, c1, t1) → bind m k c = (Raise e, c1, t1).
Proof. unfold bind. by intros ->. Qed.

Lemma try_except_ok (body : M A) handler c a c1 t1 :
  body c = (Ok a, c1, t1) → try_except body handler c = (Ok a, c1, t1).
Proof. unfold try_except. by intros ->. Qed.

Lemma try_except_raise (body : M A) handler c e c1 t1 :
  body c = (Raise e, c1, t1) →
  try_except body handler c =
    (let '(r2, c2, t2) := handler e c1 in (r2, c2, t1 ++ t2)).
Proof. unfold try_except. by intros ->. Qed.

Lemma returns_ret (a : A) : returns (ret a).
Proof. intros c. by eexists _, _, _. Qed.

Lemma returns_emit e : returns (emit e).
Proof. intros c. by eexists _, _, _. Qed.

Lemma returns_bind (m : M A) (k : A → M B) :
  returns m → (∀ a, returns (k a)) → returns (bind m k).
Proof.
  intros Hm Hk c. destruct (Hm c) as (a & c1 & t1 & E).
  destruct (Hk a c1) as (b & c2 & t2 & E2).
  exists b, c2, (t1 ++ t2). unfold bind. by rewrite E, E2.
Qed.

(** A [try] whose handlers return lets nothing through. *)
Lemma returns_try (body : M A) handler :
  (∀ e, returns (handler e)) → returns (try_except body handler).
Proof.
  intros Hh c. unfold try_except.
  destruct (body c) as [[[a|e] c1] t1]; [by eexists _, _, _|].
  destruct (Hh e c1) as (a & c2 & t2 & ->). by eexists _, _, _.
Qed.

Lemma emits_ret P (a : A) : emits P (ret a).
Proof. intros c. constructor. Qed.

Lemma emits_raise P e : emits P (@raise A e).
Proof. intros c. constructor. Qed.

Lemma emits_lift P (r : py_result A) : emits P (lift r).
Proof. intros c. constructor. Qed.

Lemma emits_bind P (m : M A) (k : A → M B) :
  emits P m → (∀ a, emits P (k a)) → emits P (bind m k).
Proof.
  intros Hm Hk c. unfold bind. specialize (Hm c).
  destruct (m c) as [[[a|e] c1] t1]; simpl in *; [|done].
  specialize (Hk a c1). destruct (k a c1) as [[r2 c2] t2]; simpl in *.
  by apply Forall_app.
Qed.

Lemma emits_try P (body : M A) handler :
  emits P body → (∀ e, emits P (handler e)) →
  emits P (try_except body handler).
Proof.
  intros Hb Hh c. unfold try_except. specialize (Hb c).
  destruct (body c) as [[[a|e] c1] t1]; simpl in *; [done|].
  specialize (Hh e c1). destruct (handler e c1) as [[r2 c2] t2]; simpl in *.
  by apply Forall_app.
Qed.

End MonadFacts.

Lemma emits_emit P e : P e → emits P (emit e).
Proof. intros H c. by repeat constructor. Qed.

Lemma emits_sleep P site seconds :
  P (Sleep site seconds) → emits P (sleep site seconds).
Proof. apply emits_emit. Qed.

Lemma emits_http_post P w prompt :
  P (HttpPost prompt) → emits P (http_post w prompt).
Proof.
  intros H c. unfold http_post.
  destruct (post_reply _ _ _); by repeat constructor.
Qed.

Lemma emits_task_query P w task_id :
  P (TaskQuery task_id) → emits P (task_query w task_id).
Proof.
  intros H c. unfold task_query.
  destruct (query_reply _ _ _); by repeat constructor.
Qed.

Lemma emits_http_get P w image_url :
  P (HttpGet image_url) → emits P (http_get w image_url).
Proof.
  intros H c. unfold http_get.
  destruct (get_reply _ _ _); by repeat constructor.
Qed.

Lemma emits_dump_debug P w f :
  P (WriteDebug f) → emits P (dump_debug w f).
Proof.
  intros H c. unfold dump_debug.
  destruct (dump_ok _ _); by repeat constructor.
Qed.

Lemma emits_response_json P b : emits P (response_json b).
Proof. destruct b; [apply emits_raise|apply emits_ret]. Qed.

Lemma emits_pil_save P w data p :
  P (SaveImage p) → emits P (pil_save w data p).
Proof.
  intros H. unfold pil_save.
  destruct (image_ok _ _); [by apply emits_emit|apply emits_raise].
Qed.

Lemma emits_b64decode_or_raise P w j : emits P (b64decode_or_raise w j).
Proof.
  unfold b64decode_or_raise.
  destruct (b64decode _ _); [apply emits_ret|apply emits_raise].
Qed.

(** One step of a proof that a method only has effects of some kinds:
    follow the structure of the method. *)
Ltac emits_step :=
  first
    [ apply emits_ret | apply emits_raise | apply emits_lift
    | apply emits_response_json | apply emits_b64decode_or_raise
    | apply emits_sleep; done | apply emits_emit; done
    | apply emits_http_post; done | apply emits_task_query; done
    | apply emits_http_get; done | apply emits_dump_debug; done
    | apply emits_pil_save; done
    | apply emits_try; [|intros ?] | apply emits_bind; [|intros ?]
    | match goal with
      | |- emits _ (let '(_, _) := ?p in _) => destruct p
      | |- emits _ (if ?b then _ else _) => destruct b
      | |- emits _ (match ?x with _ => _ end) => destruct x
      end ].

Ltac emits_tac := repeat emits_step.

Lemma count_app kind t1 t2 :
  count kind (t1 ++ t2) = (count kind t1 + count kind t2)%nat.
Proof. unfold count. by rewrite List.filter_app, length_app. Qed.

Lemma count_none kind t :
  Forall (λ e, kind e = false) t → count kind t = 0%nat.
Proof.
  unfold count. induction 1 as [|e t He _ IH]; simpl; [done|].
  by rewrite He.
Qed.

Lemma range_cons n : 0 < n → ∃ rest, range n = 0 :: rest.
Proof.
  intros H. unfold range.
  destruct (Z.to_nat n) as [|k] eqn:E; [lia|]. simpl. eauto.
Qed.

(** ** Retry loop: replies that end an attempt without a result *)

(** One attempt of the qwen adapter answered by 401. *)
Lemma qwen_attempt_401 w prompt row_num attempt c :
  status_of (post_reply w (posts c) prompt) = Some 401 →
  try_except (Qwen.attempt_body w prompt row_num attempt) Qwen.handler c
  = (Ok Break, after_posts 1 c, [HttpPost prompt]).
Proof.
  intros H. unfold try_except, Qwen.attempt_body, bind, http_post.
  destruct (post_reply w (posts c) prompt) as [e|s b]; [done|].
  injection H as ->. done.
Qed.

(** The qwen loop stops at the first 401. *)
Lemma qwen_generate_image_401 w prompt row_num retry_count c :
  0 < retry_count →
  status_of (post_reply w (posts c) prompt) = Some 401 →
  Qwen.generate_image w prompt row_num retry_count c
  = (Ok None, after_posts 1 c, [HttpPost prompt]).
Proof.
  intros Hpos H. unfold Qwen.generate_image.
  destruct (range_cons retry_count Hpos) as [rest ->].
  cbn [Qwen.retry_loop].
  erewrite bind_ok by (by apply qwen_attempt_401). done.
Qed.

(** The wan adapter gives up when the task cannot be created. *)
Lemma wan_generate_image_401 w prompt row_num c :
  status_of (post_reply w (posts c) prompt) = Some 401 →
  Wan.generate_image w prompt row_num c
  = (Ok None, after_posts 1 c, [HttpPost prompt]).
Proof.
  intros H.
  unfold Wan.generate_image, Wan.create_async_task, bind, try_except, http_post.
  destruct (post_reply w (posts c) prompt) as [e|s b]; [done|].
  injection H as ->. done.
Qed.

Lemma seedream_attempt_plain_failure w prompt row_num attempt c :
  seedream_plain_failure (post_reply w (posts c) prompt) →
  try_except (Seedream.attempt_body w prompt row_num attempt) Seedream.handler c
  = (Ok Next, after_posts 1 c, [HttpPost prompt]).
Proof.
  intros H. unfold try_except, Seedream.attempt_body, bind, http_post.
  destruct (post_reply w (posts c) prompt) as [e|s b]; simpl in *.
  - by destruct e.
  - destruct H as [H1 H2].
    apply Z.eqb_neq in H1, H2. by rewrite H1, H2.
Qed.

Lemma after_posts_S n c : after_posts n (after_posts 1 c) = after_posts (S n) c.
Proof. unfold after_posts. simpl. f_equal. lia. Qed.

(** When every reply is such a failure the seedream loop goes through all
    its attempts, one POST each. *)
Lemma seedream_retry_loop_plain_failures w prompt row_num retry_count attempts :
  (∀ k, seedream_plain_failure (post_reply w k prompt)) →
  ∀ c, ∃ t,
    Seedream.retry_loop w prompt row_num retry_count attempts c
    = (Ok None, after_posts (length attempts) c, t)
    ∧ count is_post t = length attempts.
Proof.
  intros H. induction attempts as [|attempt rest IH]; intros c.
  - exists []. split; [|done]. by destruct c.
  - cbn [Seedream.retry_loop].
    erewrite bind_ok by (by apply seedream_attempt_plain_failure).
    destruct (IH (after_posts 1 c)) as (t & E & Ht).
    unfold Seedream.backoff. destruct (attempt <? retry_count - 1).
    + unfold bind at 1. cbn [sleep emit]. rewrite E, after_posts_S.
      eexists. split; [done|]. rewrite !count_app, Ht. done.
    + unfold bind at 1. cbn [ret]. rewrite E, after_posts_S.
      eexists. split; [done|]. rewrite !count_app, Ht. done.
Qed.

Lemma length_range n : length (range n) = Z.to_nat n.
Proof. unfold range. by rewrite length_fmap, length_seq. Qed.

Lemma qwen_attempt_plain_failure w prompt row_num attempt c :
  qwen_plain_failure (post_reply w (posts c) prompt) →
  try_except (Qwen.attempt_body w prompt row_num attempt) Qwen.handler c
  = (Ok Next, after_posts 1 c, [HttpPost prompt]).
Proof.
  intros H. unfold try_except, Qwen.attempt_body, bind, http_post.
  destruct (post_reply w (posts c) prompt) as [e|s b]; simpl in *.
  - by destruct e.
  - destruct H as (H1 & H2 & H3 & H4).
    apply Z.eqb_neq in H1, H2, H3, H4. by rewrite H1, H2, H3, H4.
Qed.

(** ** No exception leaves the retry loops *)

Lemma qwen_retry_loop_returns w prompt row_num retry_count attempts :
  returns (Qwen.retry_loop w prompt row_num retry_count attempts).
Proof.
  induction attempts as [|attempt rest IH]; cbn [Qwen.retry_loop].
  - apply returns_ret.
  - apply returns_bind.
    + apply returns_try. intros []; apply returns_ret.
    + intros [p| | |]; try apply returns_ret; [done|].
      apply returns_bind; [|done]. unfold Qwen.backoff.
      destruct (_ <? _); [apply returns_emit|apply returns_ret].
Qed.

Lemma seedream_retry_loop_returns w prompt row_num retry_count attempts :
  returns (Seedream.retry_loop w prompt row_num retry_count attempts).
Proof.
  induction attempts as [|attempt rest IH]; cbn [Seedream.retry_loop].
  - apply returns_ret.
  - apply returns_bind.
    + apply returns_try. intros []; apply returns_ret.
    + intros [p| | |]; try apply returns_ret; [done|].
      apply returns_bind; [|done]. unfold Seedream.backoff.
      destruct (_ <? _); [apply returns_emit|apply returns_ret].
Qed.

(** ** C1 *)

(** C1, as the scripts have it.  When every response to the submission
    carries status 401: [generate_image] of qwen-image-plus (with at least
    one attempt allowed) and of wan2.5 submit exactly once and return
    [None] with no retry and no wait; the seedream script has no branch for
    401, it handles it as any failed request and submits [retry_count]
    times before it returns [None]. *)
Theorem C1_unauthorized w prompt c :
  (∀ k, status_of (post_reply w k prompt) = Some 401) →
  (∀ row_num retry_count, 0 < retry_count →
     Qwen.generate_image w prompt row_num retry_count c
     = (Ok None, after_posts 1 c, [HttpPost prompt]))
  ∧ (∀ row_num,
       Wan.generate_image w prompt row_num c
       = (Ok None, after_posts 1 c, [HttpPost prompt]))
  ∧ (∀ row_num retry_count, ∃ t,
       Seedream.generate_image w prompt row_num retry_count c
       = (Ok None, after_posts (Z.to_nat retry_count) c, t)
       ∧ count is_post t = Z.to_nat retry_count).
Proof.
  intros H. split; [|split].
  - intros row_num retry_count Hpos. by apply qwen_generate_image_401.
  - intros row_num. by apply wan_generate_image_401.
  - intros row_num retry_count. unfold Seedream.generate_image.
    rewrite <- (length_range retry_count).
    apply seedream_retry_loop_plain_failures. intros k.
    specialize (H k). destruct (post_reply w k prompt) as [e|s b]; [done|].
    injection H as ->. done.
Qed.

Lemma C1_unauthorized_witness :
  Qwen.generate_image Examples.always_401 "a cat" (Some 2) 3 clock0
  = (Ok None, after_posts 1 clock0, [HttpPost "a cat"]).
Proof.
  apply (C1_unauthorized Examples.always_401 "a cat" clock0).
  - intros k. reflexivity.
  - reflexivity.
Defined.

(** C1 as stated fails on the seedream script: with every response a 401
    and the default [retry_count=3] it submits three times. *)
Lemma C1_counterexample :
  (∀ k p, status_of (post_reply Examples.always_401 k p) = Some 401)
  ∧ count is_post
      (Seedream.generate_image Examples.always_401 "a cat" 2 3 clock0).2
    ≠ 1%nat.
Proof. split; [done|]. by vm_compute. Qed.

(** ** The retry loops, one pass at a time *)

Ltac loop_step :=
  intros H; unfold bind at 1; rewrite H; try done;
  unfold bind, backoff_trace;
  match goal with
  | |- context [?backoff ?attempt ?retry_count] =>
      unfold backoff; destruct (attempt <? retry_count - 1)
  end;
  cbn [sleep emit ret];
  match goal with
  | |- context [?loop ?c] =>
      match type of c with clock => destruct (loop c) as [[? ?] ?] end
  end;
  done.

Lemma qwen_loop_next w prompt row_num retry_count attempt rest c c1 t1 :
  try_except (Qwen.attempt_body w prompt row_num attempt) Qwen.handler c
  = (Ok Next, c1, t1) →
  Qwen.retry_loop w prompt row_num retry_count (attempt :: rest) c
  = (let '(r, c2, t2) := Qwen.retry_loop w prompt row_num retry_count rest c1
     in (r, c2, t1 ++ backoff_trace attempt retry_count ++ t2)).
Proof. cbn [Qwen.retry_loop]. loop_step. Qed.

Lemma qwen_loop_continue w prompt row_num retry_count attempt rest c c1 t1 :
  try_except (Qwen.attempt_body w prompt row_num attempt) Qwen.handler c
  = (Ok Continue, c1, t1) →
  Qwen.retry_loop w prompt row_num retry_count (attempt :: rest) c
  = (let '(r, c2, t2) := Qwen.retry_loop w prompt row_num retry_count rest c1
     in (r, c2, t1 ++ t2)).
Proof. cbn [Qwen.retry_loop]. intros H. unfold bind at 1. by rewrite H. Qed.


Lemma seedream_loop_next w prompt row_num retry_count attempt rest c c1 t1 :
  try_except (Seedream.attempt_body w prompt row_num attempt)
    Seedream.handler c
  = (Ok Next, c1, t1) →
  Seedream.retry_loop w prompt row_num retry_count (attempt :: rest) c
  = (let '(r, c2, t2) :=
       Seedream.retry_loop w prompt row_num retry_count rest c1
     in (r, c2, t1 ++ backoff_trace attempt retry_count ++ t2)).
Proof. cbn [Seedream.retry_loop]. loop_step. Qed.

Lemma seedream_loop_continue w prompt row_num retry_count attempt rest c c1 t1 :
  try_except (Seedream.attempt_body w prompt row_num attempt)
    Seedream.handler c
  = (Ok Continue, c1, t1) →
  Seedream.retry_loop w prompt row_num retry_count (attempt :: rest) c
  = (let '(r, c2, t2) :=
       Seedream.retry_loop w prompt row_num retry_count rest c1
     in (r, c2, t1 ++ t2)).
Proof. cbn [Seedream.retry_loop]. intros H. unfold bind at 1. by rewrite H. Qed.


(** ** C5 *)

(** With three attempts allowed and every attempt a plain failure, both
    synchronous loops submit three times, wait 1 s and 2 s in between and
    return [None]. *)
Lemma qwen_three_plain_failures w prompt row_num c :
  (∀ k, qwen_plain_failure (post_reply w k prompt)) →
  Qwen.generate_image w prompt row_num 3 c
  = (Ok None, after_posts 3 c,
     [HttpPost prompt; Sleep RetryBackoff (inject_Z 1);
      HttpPost prompt; Sleep RetryBackoff (inject_Z 2);
      HttpPost prompt]).
Proof.
  intros H. unfold Qwen.generate_image.
  change (range 3) with [0; 1; 2].
  do 3 (erewrite qwen_loop_next by (by apply qwen_attempt_plain_failure)).
  cbn [Qwen.retry_loop ret]. by rewrite !after_posts_S.
Qed.

Lemma seedream_three_plain_failures w prompt row_num c :
  (∀ k, seedream_plain_failure (post_reply w k prompt)) →
  Seedream.generate_image w prompt row_num 3 c
  = (Ok None, after_posts 3 c,
     [HttpPost prompt; Sleep RetryBackoff (inject_Z 1);
      HttpPost prompt; Sleep RetryBackoff (inject_Z 2);
      HttpPost prompt]).
Proof.
  intros H. unfold Seedream.generate_image.
  change (range 3) with [0; 1; 2].
  do 3 (erewrite seedream_loop_next
          by (by apply seedream_attempt_plain_failure)).
  cbn [Seedream.retry_loop ret]. by rewrite !after_posts_S.
Qed.

(** C5.  Whatever the world answers, [generate_image] of the two
    synchronous scripts returns a value (a path or [None]): timeouts, JSON
    decode failures and any other exception of an attempt are caught by the
    [except] clauses of the loop.  When every attempt times out and
    [retry_count] is 3 it submits exactly three times, then returns
    [None]. *)
Theorem C5_exhausted_retries_return_none w prompt c :
  (∀ row_num retry_count,
     ∃ r c' t, Qwen.generate_image w prompt row_num retry_count c = (Ok r, c', t))
  ∧ (∀ row_num retry_count,
       ∃ r c' t,
         Seedream.generate_image w prompt row_num retry_count c = (Ok r, c', t))
  ∧ ((∀ k, post_reply w k prompt = Fails Timeout) →
     let t := [HttpPost prompt; Sleep RetryBackoff (inject_Z 1);
               HttpPost prompt; Sleep RetryBackoff (inject_Z 2);
               HttpPost prompt] in
     count is_post t = 3%nat
     ∧ (∀ row_num,
          Qwen.generate_image w prompt row_num 3 c
          = (Ok None, after_posts 3 c, t))
     ∧ (∀ row_num,
          Seedream.generate_image w prompt row_num 3 c
          = (Ok None, after_posts 3 c, t))).
Proof.
  split; [|split].
  - intros row_num retry_count. apply qwen_retry_loop_returns.
  - intros row_num retry_count. apply seedream_retry_loop_returns.
  - intros H t. split; [done|]. split; intros row_num.
    + apply qwen_three_plain_failures. intros k. by rewrite H.
    + apply seedream_three_plain_failures. intros k. by rewrite H.
Qed.

Lemma C5_exhausted_retries_return_none_witness :
  Qwen.generate_image Examples.always_timeout "a cat" (Some 2) 3 clock0
  = (Ok None, after_posts 3 clock0,
     [HttpPost "a cat"; Sleep RetryBackoff (inject_Z 1);
      HttpPost "a cat"; Sleep RetryBackoff (inject_Z 2);
      HttpPost "a cat"]).
Proof.
  destruct (C5_exhausted_retries_return_none
              Examples.always_timeout "a cat" clock0) as (_ & _ & H).
  apply (H (λ k, eq_refl)).
Defined.

(** ** An attempt that is rate limited *)

Lemma qwen_attempt_429 w prompt row_num attempt c :
  status_of (post_reply w (posts c) prompt) = Some 429 →
  try_except (Qwen.attempt_body w prompt row_num attempt) Qwen.handler c
  = (Ok Continue, after_posts 1 c,
     [HttpPost prompt; Sleep RateLimitWait (inject_Z ((attempt + 1) * 10))]).
Proof.
  intros H. unfold try_except, Qwen.attempt_body, bind, http_post.
  destruct (post_reply w (posts c) prompt) as [e|s b]; [done|].
  injection H as ->. done.
Qed.

Lemma seedream_attempt_429 w prompt row_num attempt c :
  status_of (post_reply w (posts c) prompt) = Some 429 →
  try_except (Seedream.attempt_body w prompt row_num attempt)
    Seedream.handler c
  = (Ok Continue, after_posts 1 c,
     [HttpPost prompt; Sleep RateLimitWait (inject_Z ((attempt + 1) * 10))]).
Proof.
  intros H. unfold try_except, Seedream.attempt_body, bind, http_post.
  destruct (post_reply w (posts c) prompt) as [e|s b]; [done|].
  injection H as ->. done.
Qed.

(** ** The asynchronous adapter *)

Lemma after_polls_S n c : after_polls n (after_polls 1 c) = after_polls (S n) c.
Proof. unfold after_polls. simpl. f_equal; lia. Qed.

Lemma after_polls_1 n c : after_polls 1 (after_polls n c) = after_polls (S n) c.
Proof. done. Qed.

Lemma after_polls_0 c : after_polls 0 c = c.
Proof. by destruct c. Qed.

(** The submission is answered by a document that carries a task id. *)
Lemma wan_create_ok w prompt c result task_id :
  post_reply w (posts c) prompt = Response 200 (Json result) →
  created_task result = Some task_id →
  Wan.create_async_task w prompt c
  = (Ok task_id, after_posts 1 c, [HttpPost prompt]).
Proof.
  intros Hr Hid. unfold Wan.create_async_task, try_except, bind, http_post.
  rewrite Hr. destruct result as [| | | | |m]; try done. simpl in Hid.
  destruct (m !! "output") as [[| | | | |output]|] eqn:Ho; try done.
  by repeat (progress (simpl; rewrite ?Ho, ?Hid)).
Qed.

(** A poll that finds the task running, whether or not the debug dump can
    be written. *)
Lemma wan_poll_running w task_id attempt retry_interval c result :
  query_reply w (queries c) task_id = Response 200 (Json result) →
  task_status_is "RUNNING" result = true →
  try_except (Wan.poll_body w task_id attempt retry_interval)
    (Wan.poll_handler retry_interval) c
  = (Ok Next, after_polls 1 c,
     [TaskQuery task_id; WriteDebug (DebugTask task_id attempt);
      Sleep PollInterval retry_interval]).
Proof.
  intros Hr Hs.
  unfold try_except, Wan.poll_body, Wan.poll_handler, bind, task_query,
    dump_debug.
  rewrite Hr. destruct result as [| | | | |m]; try done. simpl in Hs.
  destruct (m !! "output") as [[| | | | |output]|] eqn:Ho; try done.
  destruct (output !! "task_status") as [[| | |s| |]|] eqn:Hst; try done.
  apply String.eqb_eq in Hs as ->.
  simpl. destruct (dump_ok w (dumps c)); [|done].
  by repeat (progress (simpl; rewrite ?Ho, ?Hst)).
Qed.

Lemma wan_poll_succeeded w task_id attempt retry_interval c result :
  query_reply w (queries c) task_id = Response 200 (Json result) →
  dump_ok w (dumps c) = true →
  task_status_is "SUCCEEDED" result = true →
  try_except (Wan.poll_body w task_id attempt retry_interval)
    (Wan.poll_handler retry_interval) c
  = (Ok (Return result), after_polls 1 c,
     [TaskQuery task_id; WriteDebug (DebugTask task_id attempt)]).
Proof.
  intros Hr Hd Hs.
  unfold try_except, Wan.poll_body, Wan.poll_handler, bind, task_query,
    dump_debug.
  rewrite Hr. destruct result as [| | | | |m]; try done. simpl in Hs.
  destruct (m !! "output") as [[| | | | |output]|] eqn:Ho; try done.
  destruct (output !! "task_status") as [[| | |s| |]|] eqn:Hst; try done.
  apply String.eqb_eq in Hs as ->.
  by repeat (progress (simpl; rewrite ?Ho, ?Hst, ?Hd)).
Qed.

Lemma wan_poll_failed w task_id attempt retry_interval c result :
  query_reply w (queries c) task_id = Response 200 (Json result) →
  dump_ok w (dumps c) = true →
  task_status_is "FAILED" result = true →
  try_except (Wan.poll_body w task_id attempt retry_interval)
    (Wan.poll_handler retry_interval) c
  = (Ok (Return JNull), after_polls 1 c,
     [TaskQuery task_id; WriteDebug (DebugTask task_id attempt)]
     ++ reason_trace result).
Proof.
  intros Hr Hd Hs.
  unfold try_except, Wan.poll_body, Wan.poll_handler, bind, task_query,
    dump_debug, reason_trace.
  rewrite Hr. destruct result as [| | | | |m]; try done. simpl in Hs.
  destruct (m !! "output") as [[| | | | |output]|] eqn:Ho; try done.
  destruct (output !! "task_status") as [[| | |s| |]|] eqn:Hst; try done.
  apply String.eqb_eq in Hs as ->.
  repeat (progress (simpl; rewrite ?Ho, ?Hst, ?Hd)).
  by destruct (output !! "message").
Qed.

Lemma wan_loop_next w task_id retry_interval attempt rest c c1 t1 :
  try_except (Wan.poll_body w task_id attempt retry_interval)
    (Wan.poll_handler retry_interval) c
  = (Ok Next, c1, t1) →
  Wan.poll_loop w task_id retry_interval (attempt :: rest) c
  = (let '(r, c2, t2) := Wan.poll_loop w task_id retry_interval rest c1
     in (r, c2, t1 ++ t2)).
Proof. cbn [Wan.poll_loop]. intros H. unfold bind at 1. by rewrite H. Qed.

Lemma wan_loop_return w task_id retry_interval attempt rest c c1 t1 r :
  try_except (Wan.poll_body w task_id attempt retry_interval)
    (Wan.poll_handler retry_interval) c
  = (Ok (Return r), c1, t1) →
  Wan.poll_loop w task_id retry_interval (attempt :: rest) c
  = (Ok r, c1, t1 ++ []).
Proof. cbn [Wan.poll_loop]. intros H. unfold bind at 1. by rewrite H. Qed.

(** [n] polls that find the task running take the loop [n] passes on. *)
Lemma wan_loop_running w task_id retry_interval (n : nat) :
  ∀ attempts c,
    (n ≤ length attempts)%nat →
    (∀ k, (k < n)%nat → ∃ result,
       query_reply w (queries c + k) task_id = Response 200 (Json result)
       ∧ task_status_is "RUNNING" result = true) →
    Wan.poll_loop w task_id retry_interval attempts c
    = (let '(r, c2, t2) :=
         Wan.poll_loop w task_id retry_interval (drop n attempts)
           (after_polls n c)
       in (r, c2, running_trace task_id retry_interval (take n attempts) ++ t2)).
Proof.
  induction n as [|n IH]; intros attempts c Hlen Hrun.
  - rewrite drop_0, after_polls_0. simpl.
    by destruct (Wan.poll_loop _ _ _ _ _) as [[? ?] ?].
  - destruct attempts as [|attempt rest]; [simpl in Hlen; lia|].
    destruct (Hrun 0%nat ltac:(lia)) as (result & Hr & Hs).
    rewrite Nat.add_0_r in Hr.
    erewrite wan_loop_next by (by eapply wan_poll_running).
    rewrite (IH rest (after_polls 1 c)).
    + rewrite after_polls_S. simpl.
      by destruct (Wan.poll_loop _ _ _ _ _) as [[? ?] ?].
    + simpl in Hlen. lia.
    + intros k Hk. destruct (Hrun (S k) ltac:(lia)) as (res & Hr' & Hs').
      exists res. split; [|done]. simpl.
      by replace (S (queries c + k)) with (queries c + S k)%nat by lia.
Qed.

Lemma take_range (n : nat) m :
  Z.of_nat n ≤ m → take n (range m) = range (Z.of_nat n).
Proof.
  intros H. unfold range. rewrite <- fmap_take, take_seq, Nat2Z.id.
  by replace (n `min` Z.to_nat m)%nat with n by lia.
Qed.

Lemma drop_range (n : nat) m :
  Z.of_nat n < m → ∃ rest, drop n (range m) = Z.of_nat n :: rest.
Proof.
  intros H. unfold range. rewrite <- fmap_drop, drop_seq. simpl.
  destruct (Z.to_nat m - n)%nat as [|k] eqn:E; [lia|]. simpl. eauto.
Qed.

Lemma count_query_running task_id retry_interval attempts :
  count is_query (running_trace task_id retry_interval attempts)
  = length attempts.
Proof.
  unfold running_trace. induction attempts as [|a rest IH]; [done|].
  cbn [mbind list_bind]. rewrite count_app, IH. done.
Qed.

Lemma count_extract_running task_id retry_interval attempts :
  count is_extract (running_trace task_id retry_interval attempts) = 0%nat.
Proof.
  unfold running_trace. induction attempts as [|a rest IH]; [done|].
  cbn [mbind list_bind]. rewrite count_app, IH. done.
Qed.

(** [get_task_result] on a task that is found running [n] times, then
    succeeded. *)
Lemma wan_get_task_result_succeeded w task_id max_retries retry_interval c
    (n : nat) result :
  Z.of_nat n < max_retries →
  (∀ k, (k < n)%nat → ∃ running,
     query_reply w (queries c + k) task_id = Response 200 (Json running)
     ∧ task_status_is "RUNNING" running = true) →
  query_reply w (queries c + n) task_id = Response 200 (Json result) →
  dump_ok w (dumps c + n) = true →
  task_status_is "SUCCEEDED" result = true →
  Wan.get_task_result w task_id max_retries retry_interval c
  = (Ok result, after_polls (S n) c,
     running_trace task_id retry_interval (range (Z.of_nat n))
     ++ [TaskQuery task_id; WriteDebug (DebugTask task_id (Z.of_nat n))]).
Proof.
  intros Hn Hrun Hr Hd Hs. unfold Wan.get_task_result.
  rewrite (wan_loop_running w task_id retry_interval n); [|rewrite length_range; lia|done].
  destruct (drop_range n max_retries Hn) as [rest ->].
  rewrite take_range by lia.
  erewrite wan_loop_return.
  2:{ apply wan_poll_succeeded; [|simpl|done].
      - simpl. by rewrite Nat.add_comm.
      - by rewrite Nat.add_comm. }
  by rewrite after_polls_1, app_nil_r.
Qed.

(** [get_task_result] on a task whose first poll finds it failed. *)
Lemma wan_get_task_result_failed w task_id max_retries retry_interval c result :
  0 < max_retries →
  query_reply w (queries c) task_id = Response 200 (Json result) →
  dump_ok w (dumps c) = true →
  task_status_is "FAILED" result = true →
  Wan.get_task_result w task_id max_retries retry_interval c
  = (Ok JNull, after_polls 1 c,
     [TaskQuery task_id; WriteDebug (DebugTask task_id 0)]
     ++ reason_trace result).
Proof.
  intros Hn Hr Hd Hs. unfold Wan.get_task_result.
  destruct (range_cons max_retries Hn) as [rest ->].
  erewrite wan_loop_return by (by apply wan_poll_failed).
  by rewrite app_nil_r.
Qed.

Lemma task_status_truthy status result :
  task_status_is status result = true → Py.truthy result = true.
Proof.
  destruct result as [| | | | |m]; try done. simpl.
  destruct (m !! "output") eqn:Ho; [|done]. intros _.
  apply negb_true_iff, Nat.eqb_neq. intros E%map_size_empty_iff.
  by rewrite E, lookup_empty in Ho.
Qed.

Lemma bind_emit_first {A B} e (f : unit → M A) (k : A → M B) c :
  bind (bind (emit e) f) k c
  = (let '(r, c', t) := bind (f tt) k c in (r, c', e :: t)).
Proof.
  unfold bind, emit. simpl.
  destruct (f tt c) as [[[a|x] c1] t1]; simpl; [|done].
  by destruct (k a c1) as [[? ?] ?].
Qed.

(** What [generate_image] does once the status document is there: it
    enters the extraction, and neither polls nor extracts again. *)
Lemma wan_extract_and_save w row_num task_result c :
  ∃ r c' t,
    bind (Wan.extract_image_from_result w task_result)
      (λ image_data,
         if negb (bytes_truthy image_data) then ret None
         else
           try_except
             (bind (pil_save w (default [] image_data) (RowPng row_num))
                (λ _, ret (Some (RowPng row_num))))
             (λ _, ret None)) c
    = (Ok r, c', CallExtract :: t)
    ∧ Forall past_polling t.
Proof.
  unfold Wan.extract_image_from_result. rewrite bind_emit_first.
  match goal with |- context [bind ?m ?k c] => set (rest := bind m k) end.
  assert (Hr : returns rest).
  { apply returns_bind; [apply returns_try; intros; apply returns_ret|].
    intros image_data. destruct (negb _); [apply returns_ret|].
    apply returns_try. intros; apply returns_ret. }
  assert (He : emits past_polling rest).
  { unfold rest, Wan.download_image. emits_tac. }
  destruct (Hr c) as (r & c' & t & E). specialize (He c).
  rewrite E in He |- *. by exists r, c', t.
Qed.

Lemma wan_poll_loop_returns w task_id retry_interval attempts :
  returns (Wan.poll_loop w task_id retry_interval attempts).
Proof.
  induction attempts as [|attempt rest IH]; cbn [Wan.poll_loop].
  - apply returns_ret.
  - apply returns_bind.
    + apply returns_try. intros e. unfold Wan.poll_handler.
      apply returns_bind; [apply returns_emit|intros; apply returns_ret].
    + intros [r| | |]; try apply returns_ret; done.
Qed.

(** A poll answered by a status document whose debug dump cannot be
    written: the exception leaves the [try] before the status is looked
    at. *)
Lemma wan_poll_undumped w task_id attempt retry_interval c result :
  query_reply w (queries c) task_id = Response 200 (Json result) →
  dump_ok w (dumps c) = false →
  try_except (Wan.poll_body w task_id attempt retry_interval)
    (Wan.poll_handler retry_interval) c
  = (Ok Next, after_polls 1 c,
     [TaskQuery task_id; WriteDebug (DebugTask task_id attempt);
      Sleep PollInterval retry_interval]).
Proof.
  intros Hr Hd.
  unfold try_except, Wan.poll_body, Wan.poll_handler, bind, task_query,
    dump_debug.
  rewrite Hr. simpl. by rewrite Hd.
Qed.

Lemma wan_loop_undumped w task_id retry_interval :
  (∀ k, ∃ result, query_reply w k task_id = Response 200 (Json result)) →
  (∀ k, dump_ok w k = false) →
  ∀ attempts c,
    Wan.poll_loop w task_id retry_interval attempts c
    = (Ok JNull, after_polls (length attempts) c,
       running_trace task_id retry_interval attempts).
Proof.
  intros Hr Hd. induction attempts as [|attempt rest IH]; intros c.
  - by rewrite after_polls_0.
  - destruct (Hr (queries c)) as [result E].
    erewrite wan_loop_next by (by eapply wan_poll_undumped).
    rewrite IH, after_polls_S. done.
Qed.

Lemma count_reason_running task_id retry_interval attempts :
  Forall (λ e, ∀ message, e ≠ PrintReason message)
    (running_trace task_id retry_interval attempts).
Proof.
  unfold running_trace. induction attempts as [|a rest IH]; [constructor|].
  cbn [mbind list_bind]. by repeat constructor.
Qed.

Lemma bind_head {A B} (m : M A) (k : A → M B) c e :
  head (m c).2 = Some e → head (bind m k c).2 = Some e.
Proof.
  unfold bind. destruct (m c) as [[[a|x] c1] [|e1 t1]]; try done.
  by destruct (k a c1) as [[? ?] ?].
Qed.

Lemma try_head {A} (body : M A) handler c e :
  head (body c).2 = Some e → head (try_except body handler c).2 = Some e.
Proof.
  unfold try_except. destruct (body c) as [[[a|x] c1] [|e1 t1]]; try done.
  by destruct (handler x c1) as [[? ?] ?].
Qed.

(** Every pass through the polling loop begins with the status query. *)
Lemma wan_poll_loop_head w task_id retry_interval attempts c :
  attempts ≠ [] →
  head (Wan.poll_loop w task_id retry_interval attempts c).2
  = Some (TaskQuery task_id).
Proof.
  destruct attempts as [|attempt rest]; [done|]. intros _.
  cbn [Wan.poll_loop]. apply bind_head, try_head.
  unfold Wan.poll_body. apply bind_head. unfold task_query.
  by destruct (query_reply w (queries c) task_id).
Qed.

(** ** C3 *)

(** C3, as the script has it.  Let the submission be answered by a task
    id.  (1) [get_task_result] on a task found RUNNING at the first [n]
    polls and SUCCEEDED at the next one, with [n < max_retries], makes
    exactly [n+1] status queries and returns the last status document.
    (2) [generate_image] (at most 30 polls) then enters the extraction
    once, after these [n+1] queries.  (3) When the first poll finds the task
    FAILED, [generate_image] makes that one status query, prints the
    vendor's message if there is one, and returns [None] at once: the
    extraction is not entered.  In (1) to (3) the debug dump of the deciding
    poll is written.  (4) When the debug dump of a poll cannot be written,
    the status that poll reports is not looked at, be it FAILED or
    SUCCEEDED: the poll is followed by the wait and, if polls are left, by
    the next query.  (5) So with no dump written at all, a task every poll
    of which is answered by a status document is queried [max_retries]
    times, no reason is printed, and [generate_image] returns [None] after
    30 queries without entering the extraction. *)
Theorem C3_polling w prompt row_num c created task_id :
  post_reply w (posts c) prompt = Response 200 (Json created) →
  created_task created = Some task_id →
  Py.truthy task_id = true →
  (∀ (n : nat) result max_retries retry_interval,
     Z.of_nat n < max_retries →
     (∀ k, (k < n)%nat → ∃ running,
        query_reply w (queries c + k) task_id = Response 200 (Json running)
        ∧ task_status_is "RUNNING" running = true) →
     query_reply w (queries c + n) task_id = Response 200 (Json result) →
     dump_ok w (dumps c + n) = true →
     task_status_is "SUCCEEDED" result = true →
     ∃ polls,
       Wan.get_task_result w task_id max_retries retry_interval c
       = (Ok result, after_polls (S n) c, polls)
       ∧ count is_query polls = S n
       ∧ count is_extract polls = 0%nat
       ∧ (max_retries = 30 → retry_interval = inject_Z 30 →
          ∃ r c' t,
            Wan.generate_image w prompt row_num c
            = (Ok r, c', HttpPost prompt :: polls ++ CallExtract :: t)
            ∧ Forall past_polling t))
  ∧ (∀ result,
       query_reply w (queries c) task_id = Response 200 (Json result) →
       dump_ok w (dumps c) = true →
       task_status_is "FAILED" result = true →
       let t := [HttpPost prompt; TaskQuery task_id;
                 WriteDebug (DebugTask task_id 0)] ++ reason_trace result in
       Wan.generate_image w prompt row_num c
       = (Ok None, after_polls 1 (after_posts 1 c), t)
       ∧ count is_query t = 1%nat
       ∧ count is_extract t = 0%nat)
  ∧ (∀ result max_retries retry_interval c1,
       0 < max_retries →
       query_reply w (queries c1) task_id = Response 200 (Json result) →
       dump_ok w (dumps c1) = false →
       ∃ r c' t,
         Wan.get_task_result w task_id max_retries retry_interval c1
         = (Ok r, c',
            [TaskQuery task_id; WriteDebug (DebugTask task_id 0);
             Sleep PollInterval retry_interval] ++ t)
         ∧ (1 < max_retries → head t = Some (TaskQuery task_id)))
  ∧ ((∀ k, ∃ result, query_reply w k task_id = Response 200 (Json result)) →
     (∀ k, dump_ok w k = false) →
     (∀ max_retries retry_interval c1,
        Wan.get_task_result w task_id max_retries retry_interval c1
        = (Ok JNull, after_polls (Z.to_nat max_retries) c1,
           running_trace task_id retry_interval (range max_retries)))
     ∧ let t := HttpPost prompt
                :: running_trace task_id (inject_Z 30) (range 30) in
       Wan.generate_image w prompt row_num c
       = (Ok None, after_polls 30 (after_posts 1 c), t)
       ∧ count is_query t = 30%nat
       ∧ count is_extract t = 0%nat
       ∧ Forall (λ e, ∀ message, e ≠ PrintReason message) t).
Proof.
  intros Hpost Hid Htid. split; [|split; [|split]].
  - intros n result max_retries retry_interval Hn Hrun Hr Hd Hs.
    eexists. split; [by apply wan_get_task_result_succeeded|].
    split; [|split].
    + rewrite count_app, count_query_running, length_range, Nat2Z.id.
      unfold count. simpl. lia.
    + by rewrite count_app, count_extract_running.
    + intros -> ->. unfold Wan.generate_image.
      erewrite bind_ok by (by eapply wan_create_ok).
      rewrite Htid. cbn [negb].
      erewrite bind_ok by (by apply wan_get_task_result_succeeded).
      rewrite (task_status_truthy _ _ Hs). cbn [negb].
      match goal with
      | |- context [bind (Wan.extract_image_from_result w result) ?k ?c1] =>
          destruct (wan_extract_and_save w
                      (match row_num with Some r => r | None => time_now w end)
                      result c1) as (r & c' & t & E & Ht)
      end.
      rewrite E. exists r, c', t. split; [|done].
      by rewrite <- app_assoc.
  - intros result Hr Hd Hs t. split; [|split].
    + unfold Wan.generate_image.
      erewrite bind_ok by (by eapply wan_create_ok).
      rewrite Htid. cbn [negb].
      erewrite bind_ok by (by apply wan_get_task_result_failed).
      cbn [Py.truthy negb ret]. subst t. by rewrite app_nil_r.
    + subst t. unfold reason_trace. by destruct (failure_message result).
    + subst t. unfold reason_trace. by destruct (failure_message result).
  - intros result max_retries retry_interval c1 Hn Hr Hd.
    unfold Wan.get_task_result.
    destruct (range_cons max_retries Hn) as [rest E].
    pose proof (length_range max_retries) as Hlen. rewrite E in *.
    erewrite wan_loop_next by (by eapply wan_poll_undumped).
    pose proof (wan_poll_loop_head w task_id retry_interval rest
                  (after_polls 1 c1)) as Hhead.
    destruct (wan_poll_loop_returns w task_id retry_interval rest
                (after_polls 1 c1)) as (r & c' & t & E').
    rewrite E' in Hhead |- *. exists r, c', t. split; [done|].
    intros Hmore. apply Hhead. intros ->. simpl in Hlen. lia.
  - intros Hr Hd.
    assert (Hget : ∀ max_retries retry_interval c1,
              Wan.get_task_result w task_id max_retries retry_interval c1
              = (Ok JNull, after_polls (Z.to_nat max_retries) c1,
                 running_trace task_id retry_interval (range max_retries))).
    { intros max_retries retry_interval c1. unfold Wan.get_task_result.
      rewrite (wan_loop_undumped w task_id retry_interval Hr Hd).
      by rewrite length_range. }
    split; [exact Hget|]. intros t. split; [|split; [|split]].
    + unfold Wan.generate_image.
      erewrite bind_ok by (by eapply wan_create_ok).
      rewrite Htid. cbn [negb].
      erewrite bind_ok by apply Hget.
      cbn [Py.truthy negb ret]. subst t. by rewrite app_nil_r.
    + subst t. change (HttpPost prompt :: ?l) with ([HttpPost prompt] ++ l).
      by rewrite count_app, count_query_running, length_range.
    + subst t. change (HttpPost prompt :: ?l) with ([HttpPost prompt] ++ l).
      by rewrite count_app, count_extract_running.
    + subst t. constructor; [done|]. apply count_reason_running.
Qed.

Lemma C3_polling_witness :
  Wan.generate_image Examples.failing_task "a cat" (Some 2) clock0
  = (Ok None, after_polls 1 (after_posts 1 clock0),
     [HttpPost "a cat"; TaskQuery (JStr "task-1");
      WriteDebug (DebugTask (JStr "task-1") 0);
      PrintReason (JStr "content rejected")])
  ∧ (∃ polls,
      Wan.get_task_result Examples.slow_task (JStr "task-1") 30 (inject_Z 30)
        clock0
      = (Ok Examples.task_succeeded, after_polls 3 clock0, polls)
      ∧ count is_query polls = 3%nat)
  ∧ count is_query
      (Wan.generate_image (undumped Examples.failing_task) "a cat" (Some 2)
         clock0).2
    = 30%nat.
Proof.
  split; [|split].
  - refine (proj1 (proj1 (proj2 (C3_polling Examples.failing_task "a cat"
      (Some 2) clock0 Examples.task_created (JStr "task-1") eq_refl _ eq_refl))
      Examples.task_failed eq_refl eq_refl _)); by vm_compute.
  - pose proof (proj1 (C3_polling Examples.slow_task "a cat" (Some 2)
      clock0 Examples.task_created (JStr "task-1") eq_refl eq_refl eq_refl)
      2%nat Examples.task_succeeded 30 (inject_Z 30)) as H.
    destruct H as (polls & E & Hq & _).
    + lia.
    + intros [|[|k]] Hk; [| |lia]; exists Examples.task_running;
        split; by vm_compute.
    + reflexivity.
    + reflexivity.
    + by vm_compute.
    + exists polls. by split.
  - destruct (proj2 (proj2 (proj2 (C3_polling (undumped Examples.failing_task)
      "a cat" (Some 2) clock0 Examples.task_created (JStr "task-1")
      eq_refl eq_refl eq_refl)))) as (_ & E & Hq & _).
    + intros k. by exists Examples.task_failed.
    + done.
    + by rewrite E.
Defined.

(** C3 as stated fails on its second half.  When the first poll finds the
    task FAILED the script never enters the extraction.  And when the debug
    dump of that poll cannot be written it does not stop at all: the same
    task is polled thirty times and no reason is printed. *)
Lemma C3_counterexample :
  query_reply Examples.failing_task 0 (JStr "task-1")
  = Response 200 (Json Examples.task_failed)
  ∧ task_status_is "FAILED" Examples.task_failed = true
  ∧ count is_extract
      (Wan.generate_image Examples.failing_task "a cat" (Some 2) clock0).2
    ≠ 1%nat
  ∧ query_reply (undumped Examples.failing_task) 0 (JStr "task-1")
    = Response 200 (Json Examples.task_failed)
  ∧ count is_query
      (Wan.generate_image (undumped Examples.failing_task) "a cat" (Some 2)
         clock0).2
    ≠ 1%nat
  ∧ Forall (λ e, ∀ message, e ≠ PrintReason message)
      (Wan.generate_image (undumped Examples.failing_task) "a cat" (Some 2)
         clock0).2.
Proof.
  split; [done|]. split; [by vm_compute|]. split; [by vm_compute|].
  split; [done|]. split; [by vm_compute|].
  vm_compute. by repeat constructor.
Qed.

(** ** The batch driver *)

Section BatchFacts.
Variable generate_image : str → Z → M (option filepath).
Hypothesis generate_image_returns :
  ∀ text row_num, returns (generate_image text row_num).
Hypothesis generate_image_in_row :
  ∀ text row_num, emits in_row (generate_image text row_num).

Lemma row_delay_run delay texts c :
  Batch.row_delay delay texts c = (Ok tt, c, delay_trace delay texts).
Proof.
  unfold Batch.row_delay, delay_trace.
  by destruct (positive delay && _).
Qed.

Lemma length_row_runs todo : ∀ c,
  length (row_runs generate_image todo c) = length todo.
Proof.
  induction todo as [|[row_num text] rest IH]; intros c; simpl; [done|].
  by rewrite IH.
Qed.

Lemma row_runs_in_row todo : ∀ c,
  Forall (λ run, Forall in_row run.2) (row_runs generate_image todo c).
Proof.
  induction todo as [|[row_num text] rest IH]; intros c; simpl;
    constructor; [apply generate_image_in_row|apply IH].
Qed.

(** The trace of the loop is, row after row, the trace of the generation
    of that row followed by the wait. *)
Lemma batch_loop_runs delay texts todo :
  ∀ success_rows failed_rows c, ∃ r c',
    Batch.batch_loop generate_image delay texts todo success_rows failed_rows c
    = (Ok r, c',
       concat ((λ run, run.2 ++ delay_trace delay texts)
               <$> row_runs generate_image todo c)).
Proof.
  induction todo as [|[row_num text] rest IH]; intros s f c.
  - by exists (s, f), c.
  - cbn [Batch.batch_loop row_runs].
    destruct (generate_image_returns text row_num c) as (res & c1 & t1 & E).
    erewrite bind_ok by done. rewrite E. cbn [fst snd].
    destruct res as [p|].
    + destruct (IH (s ++ [row_num]) f c1) as (r & c' & E').
      erewrite bind_ok by apply row_delay_run. rewrite E'.
      exists r, c'. rewrite fmap_cons. cbn [concat snd].
      by rewrite <- app_assoc.
    + destruct (IH s (f ++ [row_num]) c1) as (r & c' & E').
      erewrite bind_ok by apply row_delay_run. rewrite E'.
      exists r, c'. rewrite fmap_cons. cbn [concat snd].
      by rewrite <- app_assoc.
Qed.

Lemma count_row_delay_runs (d : list event)
    (runs : list (py_result (option filepath) * clock * list event)) :
  Forall (λ run, Forall in_row run.2) runs →
  count is_row_delay (concat ((λ run, run.2 ++ d) <$> runs))
  = (length runs * count is_row_delay d)%nat.
Proof.
  induction 1 as [|run runs Hrun _ IH]; [done|].
  rewrite fmap_cons. cbn [concat length].
  rewrite !count_app, IH, (count_none _ run.2); [lia|done].
Qed.

Lemma last_runs (d : event)
    (runs : list (py_result (option filepath) * clock * list event)) :
  runs ≠ [] →
  last (concat ((λ run, run.2 ++ [d]) <$> runs)) = Some d.
Proof.
  destruct runs as [|run runs _] using rev_ind; [done|]. intros _.
  rewrite fmap_app, concat_app. simpl.
  by rewrite app_nil_r, !app_assoc, last_snoc.
Qed.

End BatchFacts.

(** ** The three adapters under the batch driver *)

Lemma qwen_generate_image_returns w prompt row_num retry_count :
  returns (Qwen.generate_image w prompt row_num retry_count).
Proof. apply qwen_retry_loop_returns. Qed.

Lemma seedream_generate_image_returns w prompt row_num retry_count :
  returns (Seedream.generate_image w prompt row_num retry_count).
Proof. apply seedream_retry_loop_returns. Qed.

Lemma wan_generate_image_returns w prompt row_num :
  returns (Wan.generate_image w prompt row_num).
Proof.
  unfold Wan.generate_image.
  apply returns_bind; [apply returns_try; intros; apply returns_ret|].
  intros task_id. destruct (negb _); [apply returns_ret|].
  apply returns_bind; [apply wan_poll_loop_returns|].
  intros task_result. destruct (negb _); [apply returns_ret|].
  apply returns_bind.
  { apply returns_bind; [apply returns_emit|].
    intros _. apply returns_try. intros; apply returns_ret. }
  intros image_data. destruct (negb _); [apply returns_ret|].
  apply returns_try. intros; apply returns_ret.
Qed.

Lemma qwen_generate_image_in_row w prompt row_num retry_count :
  emits in_row (Qwen.generate_image w prompt row_num retry_count).
Proof.
  unfold Qwen.generate_image.
  generalize (match row_num with Some r => r | None => time_now w end).
  intros r. induction (range retry_count) as [|attempt rest IH];
    cbn [Qwen.retry_loop]; [apply emits_ret|].
  apply emits_bind.
  - unfold Qwen.attempt_body, Qwen.handler, Qwen.download_image,
      Qwen.save_image.
    emits_tac.
  - intros [p| | |]; try apply emits_ret; [done|].
    apply emits_bind; [|done]. unfold Qwen.backoff. emits_tac.
Qed.

Lemma seedream_generate_image_in_row w prompt row_num retry_count :
  emits in_row (Seedream.generate_image w prompt row_num retry_count).
Proof.
  unfold Seedream.generate_image.
  induction (range retry_count) as [|attempt rest IH];
    cbn [Seedream.retry_loop]; [apply emits_ret|].
  apply emits_bind.
  - unfold Seedream.attempt_body, Seedream.handler, Seedream.image_of,
      Seedream.save_image.
    emits_tac.
  - intros [p| | |]; try apply emits_ret; [done|].
    apply emits_bind; [|done]. unfold Seedream.backoff. emits_tac.
Qed.

Lemma wan_poll_loop_in_row w task_id retry_interval attempts :
  emits in_row (Wan.poll_loop w task_id retry_interval attempts).
Proof.
  induction attempts as [|attempt rest IH]; cbn [Wan.poll_loop];
    [apply emits_ret|].
  apply emits_bind.
  - unfold Wan.poll_body, Wan.poll_handler. emits_tac.
  - intros [r| | |]; try apply emits_ret; done.
Qed.

Lemma wan_generate_image_in_row w prompt row_num :
  emits in_row (Wan.generate_image w prompt row_num).
Proof.
  unfold Wan.generate_image. apply emits_bind.
  { unfold Wan.create_async_task. emits_tac. }
  intros task_id. destruct (negb _); [apply emits_ret|].
  apply emits_bind; [apply wan_poll_loop_in_row|].
  intros task_result. destruct (negb _); [apply emits_ret|].
  unfold Wan.extract_image_from_result, Wan.download_image. emits_tac.
Qed.

(** Each script's [batch_generate] is the common driver over an adapter
    that returns and does not wait between rows itself. *)
Lemma batch_drivers_spec w batch_generate :
  batch_generate ∈ batch_drivers w →
  ∃ generate_image,
    batch_generate = Batch.batch_generate generate_image
    ∧ (∀ text row_num, returns (generate_image text row_num))
    ∧ (∀ text row_num, emits in_row (generate_image text row_num)).
Proof.
  unfold batch_drivers. rewrite !elem_of_cons, elem_of_nil.
  intros [->|[->|[->|[]]]]; eexists; (split; [reflexivity|]); split; intros.
  - apply qwen_generate_image_returns.
  - apply qwen_generate_image_in_row.
  - apply seedream_generate_image_returns.
  - apply seedream_generate_image_in_row.
  - apply wan_generate_image_returns.
  - apply wan_generate_image_in_row.
Qed.

Lemma adapters_spec w generate_image batch_generate :
  (generate_image, batch_generate) ∈ adapters w →
  batch_generate = Batch.batch_generate generate_image
  ∧ (∀ text row_num, returns (generate_image text row_num))
  ∧ (∀ text row_num, emits in_row (generate_image text row_num)).
Proof.
  unfold adapters. rewrite !elem_of_cons, elem_of_nil.
  intros [[= -> ->]|[[= -> ->]|[[= -> ->]|[]]]];
    (split; [reflexivity|]); split; intros.
  - apply qwen_generate_image_returns.
  - apply qwen_generate_image_in_row.
  - apply seedream_generate_image_returns.
  - apply seedream_generate_image_in_row.
  - apply wan_generate_image_returns.
  - apply wan_generate_image_in_row.
Qed.

(** ** C2 *)

(** C2, as the scripts have it.  In each of the three scripts, for a
    non-empty list of rows and a positive delay, the effects of
    [batch_generate] are, row after row in the order of the list, the
    effects of [generate_image] for that row followed, when the list has two
    rows or more, by one wait of [delay] seconds, after the last row too, and
    by nothing when the list has one row.  [generate_image] itself never
    performs that wait, so [n] rows make [n] waits, only the batch of one
    row makes [n-1 = 0]. *)
Theorem C2_delay_count w generate_image batch_generate texts delay c :
  (generate_image, batch_generate) ∈ adapters w →
  texts ≠ [] →
  positive delay = true →
  let runs := row_runs generate_image texts c in
  let wait := if (length texts =? 1)%nat then [] else [Sleep RowDelay delay] in
  let t := concat ((λ run, run.2 ++ wait) <$> runs) in
  (∃ r c', batch_generate texts delay c = (Ok r, c', t))
  ∧ length runs = length texts
  ∧ Forall (λ run, count is_row_delay run.2 = 0%nat) runs
  ∧ count is_row_delay t
    = (if (length texts =? 1)%nat then 0 else length texts)%nat.
Proof.
  intros (-> & Hr & Hi)%adapters_spec Hne Hd runs wait t.
  assert (Hw : delay_trace delay texts = wait).
  { unfold delay_trace, wait. rewrite Hd.
    destruct texts as [|row [|row' rest]]; [done|done|].
    by replace (Z.of_nat (length (row :: row' :: rest)) >? 1) with true
      by (symmetry; apply Z.gtb_lt; simpl; lia). }
  pose proof (row_runs_in_row generate_image Hi texts c) as Hin.
  split; [|split; [|split]].
  - destruct (batch_loop_runs generate_image Hr delay texts texts [] [] c)
      as (r & c' & E).
    exists r, c'. unfold Batch.batch_generate. by rewrite E, Hw.
  - apply length_row_runs.
  - eapply Forall_impl; [exact Hin|]. intros run Hrun. by apply count_none.
  - unfold t. rewrite count_row_delay_runs by done.
    unfold runs. rewrite length_row_runs. unfold wait.
    destruct (length texts =? 1)%nat; unfold count; simpl; lia.
Qed.

Lemma C2_delay_count_witness :
  ∃ r c',
    Qwen.batch_generate Examples.always_401
      [(2, "a cat" : str); (3, "a dog" : str)] (2 # 1) clock0
    = (Ok r, c',
       [HttpPost "a cat"; Sleep RowDelay (2 # 1);
        HttpPost "a dog"; Sleep RowDelay (2 # 1)]).
Proof.
  refine (proj1 (C2_delay_count Examples.always_401
                   (λ text row_num,
                      Qwen.generate_image Examples.always_401 text
                        (Some row_num) 3)
                   (Qwen.batch_generate Examples.always_401)
                   [(2, "a cat" : str); (3, "a dog" : str)] (2 # 1) clock0
                   _ _ _)).
  - by left.
  - discriminate.
  - reflexivity.
Defined.

(** C2 as stated fails on every batch of two rows or more: two rows make
    two waits, not one. *)
Lemma C2_counterexample :
  positive (2 # 1) = true
  ∧ count is_row_delay
      (Qwen.batch_generate Examples.always_401 [(2, "a cat" : str); (3, "a dog" : str)]
         (2 # 1) clock0).2
    ≠ (length [(2, "a cat" : str); (3, "a dog" : str)] - 1)%nat.
Proof. split; by vm_compute. Qed.

(** ** C10 *)

(** C10.  In each of the three scripts: a batch of one row performs the
    effects of [generate_image] for that row and nothing else, no wait
    between rows, whatever the delay; with a positive delay, in a batch of
    two rows or more the effects are, row after row, those of
    [generate_image] for that row, which never hold the wait between rows,
    followed by one wait of [delay], so that every row, the last one
    included, is followed by the wait and the batch ends on it. *)
Theorem C10_delay_after_last_row w generate_image batch_generate c :
  (generate_image, batch_generate) ∈ adapters w →
  (∀ delay row, ∃ r c' t,
     batch_generate [row] delay c = (Ok r, c', t)
     ∧ Forall in_row t
     ∧ t = (generate_image row.2 row.1 c).2)
  ∧ (∀ delay texts, positive delay = true → (2 ≤ length texts)%nat →
     let runs := row_runs generate_image texts c in
     let t := concat ((λ run, run.2 ++ [Sleep RowDelay delay]) <$> runs) in
     (∃ r c', batch_generate texts delay c = (Ok r, c', t))
     ∧ length runs = length texts
     ∧ Forall (λ run, Forall in_row run.2) runs
     ∧ last t = Some (Sleep RowDelay delay)).
Proof.
  intros (-> & Hr & Hi)%adapters_spec. split.
  - intros delay [row_num text]. unfold Batch.batch_generate.
    destruct (batch_loop_runs generate_image Hr delay
                [(row_num, text)] [(row_num, text)] [] [] c) as (r & c' & E).
    eexists r, c', _. split; [exact E|].
    replace (delay_trace delay [(row_num, text)]) with (@nil event)
      by (unfold delay_trace; by rewrite andb_false_r).
    simpl. rewrite !app_nil_r. split; [|done]. apply Hi.
  - intros delay texts Hd Hn runs t.
    assert (Hw : delay_trace delay texts = [Sleep RowDelay delay]).
    { unfold delay_trace. rewrite Hd.
      by replace (Z.of_nat (length texts) >? 1) with true
        by (symmetry; apply Z.gtb_lt; lia). }
    split; [|split; [|split]].
    + destruct (batch_loop_runs generate_image Hr delay texts texts [] [] c)
        as (r & c' & E).
      exists r, c'. unfold Batch.batch_generate. by rewrite E, Hw.
    + apply length_row_runs.
    + by apply row_runs_in_row.
    + apply last_runs. intros E.
      pose proof (length_row_runs generate_image texts c) as Hl.
      fold runs in Hl. rewrite E in Hl. simpl in Hl. lia.
Qed.

Lemma C10_delay_after_last_row_witness :
  (∃ r c' t,
     Wan.batch_generate Examples.always_401 [(2, "a cat" : str)] (2 # 1)
       clock0
     = (Ok r, c', t)
     ∧ Forall in_row t
     ∧ t = [HttpPost "a cat"])
  ∧ ∃ r c',
      Wan.batch_generate Examples.always_401
        [(2, "a cat" : str); (3, "a dog" : str)] (2 # 1) clock0
      = (Ok r, c',
         [HttpPost "a cat"; Sleep RowDelay (2 # 1);
          HttpPost "a dog"; Sleep RowDelay (2 # 1)]).
Proof.
  destruct (C10_delay_after_last_row Examples.always_401
              (λ text row_num,
                 Wan.generate_image Examples.always_401 text (Some row_num))
              (Wan.batch_generate Examples.always_401) clock0)
    as [H1 H2].
  - right. right. by left.
  - split; [exact (H1 (2 # 1) (2, "a cat" : str))|].
    exact (proj1 (H2 (2 # 1) [(2, "a cat" : str); (3, "a dog" : str)]
                    eq_refl ltac:(simpl; lia))).
Defined.

(** ** C9 *)

(** C9.  In each of the three scripts, when the sheet is read and no row
    is kept, [generate_from_excel] returns [None] and has no effect at all:
    no submission, no other network call, no wait, no file written, the
    report included. *)
Theorem C9_empty_input_returns_none w generate_from_excel excel_path
    column_index has_header delay c df :
  generate_from_excel ∈ entry_points w →
  read_excel w excel_path has_header = Ok df →
  RowSource.read_rows df column_index has_header = Ok [] →
  generate_from_excel excel_path column_index has_header delay c
  = (Ok None, c, []).
Proof.
  unfold entry_points. rewrite !elem_of_cons, elem_of_nil.
  intros [->|[->|[->|[]]]] Hx Hrows;
    unfold Qwen.generate_from_excel, Seedream.generate_from_excel,
      Wan.generate_from_excel, Batch.generate_from_excel,
      Batch.read_texts_from_excel, bind, try_except, lift;
    rewrite Hx, Hrows; by destruct c.
Qed.

Lemma C9_empty_input_returns_none_witness :
  Seedream.generate_from_excel Examples.always_401 "prompts.xlsx" 0 true
    (2 # 1) clock0
  = (Ok None, clock0, []).
Proof.
  apply (C9_empty_input_returns_none Examples.always_401
           (Seedream.generate_from_excel Examples.always_401)
           "prompts.xlsx" 0 true (2 # 1) clock0 []).
  - right. by left.
  - reflexivity.
  - reflexivity.
Defined.

(** ** C7 and C8 *)

Section RowSourceClaims.
Import PyStr RowSource.








(** C8.  Whenever the sheet is read, the pairs of the output are exactly
    the kept texts of the rows, each with the number of its position:
    [idx + 2] with a header row and [idx + 1] without.  So no number is below
    2, respectively 1, the first row of the frame comes out with that number
    when it is kept, rows that are skipped leave the numbers of the later
    rows unchanged, and the numbers come out in increasing order. *)
Theorem C8_row_numbers df column_index has_header texts :
  read_rows df column_index has_header = Ok texts →
  let start_row := if has_header then 2 else 1 in
  (∀ r t, (r, t) ∈ texts ↔
     ∃ (idx : nat) row, df !! idx = Some row
       ∧ r = Z.of_nat idx + start_row
       ∧ kept_text row column_index = Some t)
  ∧ (∀ r t, (r, t) ∈ texts → start_row ≤ r)
  ∧ (∀ row t, df !! 0%nat = Some row →
       kept_text row column_index = Some t →
       head texts = Some (start_row, t))
  ∧ StronglySorted Z.lt texts.*1.
Proof.
  intros ->%read_rows_selected start_row. fold (start_of has_header).
  split; [|split; [|split]].
  - intros r t. rewrite elem_of_selected.
    split; intros (idx & row & ? & ? & ?); exists idx, row;
      (split; [done|]); (split; [unfold start_of, start_row in *; lia|done]).
  - intros r t H%selected_lower_bound. unfold start_of, start_row in *. lia.
  - intros row t Hrow Hkept. destruct df as [|row' df]; [done|].
    injection Hrow as ->. simpl. by rewrite Hkept.
  - apply selected_sorted.
Qed.

Lemma C8_row_numbers_witness :
  head [(2, "a cat" : str); (4, "a dog" : str)] = Some (2, "a cat" : str)
  ∧ ∀ r t, (r, t) ∈ [(2, "a cat" : str); (4, "a dog" : str)] → 2 ≤ r.
Proof.
  destruct (C8_row_numbers
              [[CText " a cat "]; [CNaN]; [CText "a dog"]; [CText "None"]]
              0 true [(2, "a cat" : str); (4, "a dog" : str)] eq_refl)
    as (_ & Hlow & Hfirst & _).
  split; [|exact Hlow].
  by apply (Hfirst [CText " a cat "]).
Defined.

End RowSourceClaims.

(** ** C4 *)

(** The chain of tests of the qwen script, without the outer
    [isinstance]. *)
Lemma qwen_parse_response_order w result :
  Qwen.parse_response w result
  = (if has_truthy "images" result then Qwen.shape_images w result
     else if Py.dict_has "output" result then Qwen.shape_output w result
     else if has_truthy "data" result then Qwen.shape_data w result
     else Ok (None, JNull)).
Proof. unfold Qwen.parse_response. by destruct result. Qed.

Lemma qwen_shape_images w m s rest :
  m !! "images" = Some (JList (JStr s :: rest)) →
  Qwen.shape_images w (JDict m) = Ok (b64decode w (JStr s), JNull).
Proof. intros H. unfold Qwen.shape_images. simpl. by rewrite H. Qed.

Lemma qwen_shape_output w result u :
  output_image result = Some (JStr u) →
  Qwen.shape_output w result
  = Ok (if String.prefix "http" u then None else b64decode w (JStr u), JStr u).
Proof.
  unfold output_image, Qwen.shape_output.
  destruct result as [| | | | |m]; try done.
  destruct (m !! "output") as [[| | | | |output]|] eqn:H1; try done.
  destruct (output !! "choices") as [[| | | |[|[| | | | |choice] ?]|]|]
    eqn:H2; try done.
  destruct (choice !! "message") as [[| | | | |message]|] eqn:H3; try done.
  destruct (message !! "content") as [[| | | |[|[| | | | |content] ?]|]|]
    eqn:H4; try done.
  intros H5.
  repeat (progress (simpl; rewrite ?H1, ?H2, ?H3, ?H4, ?H5)).
  destruct (String.eqb_spec u "") as [->|_]; [done|].
  cbn [negb bind_result]. by destruct (String.prefix "http" u).
Qed.

Lemma qwen_shape_data_url w result item u :
  data_item result = Some item →
  item !! "url" = Some (JStr u) →
  Qwen.shape_data w result = Ok (None, JStr u).
Proof.
  unfold data_item, Qwen.shape_data.
  destruct result as [| | | | |m]; try done.
  destruct (m !! "data") as [[| | | |[|[| | | | |item'] ?]|]|] eqn:H1;
    try done.
  intros [= ->] H2.
  by repeat (progress (simpl; rewrite ?H1, ?H2)).
Qed.

Lemma qwen_shape_data_b64 w result item v :
  data_item result = Some item →
  item !! "url" = None →
  item !! "b64_json" = Some v →
  Qwen.shape_data w result = Ok (b64decode w v, JNull).
Proof.
  unfold data_item, Qwen.shape_data.
  destruct result as [| | | | |m]; try done.
  destruct (m !! "data") as [[| | | |[|[| | | | |item'] ?]|]|] eqn:H1;
    try done.
  intros [= ->] H2 H3.
  by repeat (progress (simpl; rewrite ?H1, ?H2, ?H3)).
Qed.

(** A URL left by the chain of tests is fetched, and what the fetch returns
    with status 200 is the image data that goes on to be saved. *)
Lemma qwen_attempt_fetches w prompt row_num attempt c result image_data u
    content :
  post_reply w (posts c) prompt = Response 200 (Json result) →
  dump_ok w (dumps c) = true →
  Qwen.parse_response w result = Ok (image_data, JStr u) →
  u ≠ "" →
  get_reply w (gets c) (JStr u) = Downloaded 200 content →
  Qwen.attempt_body w prompt row_num attempt c
  = (let '(r, c', t) :=
       Qwen.save_image w row_num (Some content) (after_fetch c) in
     (r, c', [HttpPost prompt; WriteDebug (DebugResponse row_num);
              HttpGet (JStr u)] ++ t)).
Proof.
  intros Hpost Hdump Hparse Hu Hget.
  unfold Qwen.attempt_body, Qwen.download_image, bind, try_except, http_post,
    dump_debug, http_get, lift.
  rewrite Hpost. simpl. rewrite Hdump, Hparse. simpl.
  apply String.eqb_neq in Hu. rewrite Hu. simpl. rewrite Hget. simpl.
  unfold after_fetch.
  by destruct (Qwen.save_image w row_num (Some content) _) as [[r c'] t].
Qed.

(** The seedream script only looks at [images] and [data]. *)
Lemma seedream_image_of_neither w result c :
  has_truthy "images" result = false →
  has_truthy "data" result = false →
  Seedream.image_of w result c = (Ok None, c, []).
Proof. intros H1 H2. unfold Seedream.image_of. by rewrite H1, H2. Qed.

Lemma seedream_image_of_b64 w result item v c :
  has_truthy "images" result = false →
  data_item result = Some item →
  item !! "b64_json" = Some v →
  Seedream.image_of w result c
  = (match b64decode w v with
     | Some data => Ok (Some data)
     | None => Raise (Error "binascii.Error")
     end, c, []).
Proof.
  unfold data_item, Seedream.image_of. intros ->.
  destruct result as [| | | | |m]; try done.
  destruct (m !! "data") as [[| | | |[|[| | | | |item'] ?]|]|] eqn:H1;
    try done.
  intros [= ->] H2. unfold bind, lift, b64decode_or_raise.
  repeat (progress (simpl; rewrite ?H1, ?H2)).
  by destruct (b64decode w v).
Qed.

Lemma seedream_image_of_url w result item url c status_code content :
  has_truthy "images" result = false →
  data_item result = Some item →
  item !! "b64_json" = None →
  item !! "url" = Some url →
  get_reply w (gets c) url = Downloaded status_code content →
  Seedream.image_of w result c
  = (Ok (Some content),
     {| posts := posts c; queries := queries c;
        gets := S (gets c); dumps := dumps c |},
     [HttpGet url]).
Proof.
  unfold data_item, Seedream.image_of. intros ->.
  destruct result as [| | | | |m]; try done.
  destruct (m !! "data") as [[| | | |[|[| | | | |item'] ?]|]|] eqn:H1;
    try done.
  intros [= ->] H2 H3 H4. unfold bind, lift, http_get.
  by repeat (progress (simpl; rewrite ?H1, ?H2, ?H3, ?H4)).
Qed.

Lemma output_image_dict_has result v :
  output_image result = Some v → Py.dict_has "output" result = true.
Proof.
  destruct result as [| | | | |m]; try done. simpl.
  by destruct (m !! "output").
Qed.

Lemma data_item_has_truthy result item :
  data_item result = Some item → has_truthy "data" result = true.
Proof.
  destruct result as [| | | | |m]; try done. simpl.
  by destruct (m !! "data") as [[| | | |[|[] ?]|]|].
Qed.

(** C4, as the scripts have it.  qwen-image-plus: the parsed body of a 200
    response goes through one chain of tests, in this order: a truthy
    ["images"] entry, else an ["output"] key, else a truthy ["data"] entry;
    the first test that holds decides, whatever the later keys hold.  On
    the layouts the script names this gives: the base64 text [images[0]],
    decoded; the value at output.choices[0].message.content[0].image, kept
    as a URL when it starts with "http" and decoded as base64 otherwise;
    [data[0].url] as a URL, or else [data[0].b64_json] decoded.  A non-empty
    URL left by the chain is fetched by a second request, and the bytes of
    a 200 answer are the image that goes on to be saved.  seedream: only
    ["images"] and then ["data"] are looked at, [b64_json] before [url], a
    nested ["output"] is not, and the fetched bytes are taken whatever the
    status. *)
Theorem C4_response_shapes w :
  (∀ result,
     Qwen.parse_response w result
     = (if has_truthy "images" result then Qwen.shape_images w result
        else if Py.dict_has "output" result then Qwen.shape_output w result
        else if has_truthy "data" result then Qwen.shape_data w result
        else Ok (None, JNull)))
  ∧ (∀ m s rest,
       m !! "images" = Some (JList (JStr s :: rest)) →
       Qwen.parse_response w (JDict m) = Ok (b64decode w (JStr s), JNull))
  ∧ (∀ result u,
       has_truthy "images" result = false →
       output_image result = Some (JStr u) →
       Qwen.parse_response w result
       = Ok (if String.prefix "http" u then None else b64decode w (JStr u),
             JStr u))
  ∧ (∀ result item,
       has_truthy "images" result = false →
       Py.dict_has "output" result = false →
       data_item result = Some item →
       (∀ u, item !! "url" = Some (JStr u) →
             Qwen.parse_response w result = Ok (None, JStr u))
       ∧ (∀ v, item !! "url" = None → item !! "b64_json" = Some v →
               Qwen.parse_response w result = Ok (b64decode w v, JNull)))
  ∧ (∀ prompt row_num attempt c result image_data u content,
       post_reply w (posts c) prompt = Response 200 (Json result) →
       dump_ok w (dumps c) = true →
       Qwen.parse_response w result = Ok (image_data, JStr u) →
       u ≠ "" →
       get_reply w (gets c) (JStr u) = Downloaded 200 content →
       Qwen.attempt_body w prompt row_num attempt c
       = (let '(r, c', t) :=
            Qwen.save_image w row_num (Some content) (after_fetch c) in
          (r, c', [HttpPost prompt; WriteDebug (DebugResponse row_num);
                   HttpGet (JStr u)] ++ t)))
  ∧ (∀ result c,
       has_truthy "images" result = false →
       has_truthy "data" result = false →
       Seedream.image_of w result c = (Ok None, c, []))
  ∧ (∀ result item c,
       has_truthy "images" result = false →
       data_item result = Some item →
       (∀ v, item !! "b64_json" = Some v →
             Seedream.image_of w result c
             = (match b64decode w v with
                | Some data => Ok (Some data)
                | None => Raise (Error "binascii.Error")
                end, c, []))
       ∧ (∀ url status_code content,
            item !! "b64_json" = None →
            item !! "url" = Some url →
            get_reply w (gets c) url = Downloaded status_code content →
            Seedream.image_of w result c
            = (Ok (Some content),
               {| posts := posts c; queries := queries c;
                  gets := S (gets c); dumps := dumps c |},
               [HttpGet url]))).
Proof.
  split; [apply qwen_parse_response_order|].
  split.
  { intros m s rest H. rewrite qwen_parse_response_order.
    replace (has_truthy "images" (JDict m)) with true
      by (simpl; by rewrite H).
    by eapply qwen_shape_images. }
  split.
  { intros result u H1 H2. rewrite qwen_parse_response_order, H1.
    rewrite (output_image_dict_has _ _ H2). by apply qwen_shape_output. }
  split.
  { intros result item H1 H2 H3. split.
    - intros u Hu. rewrite qwen_parse_response_order.
      rewrite H1, H2, (data_item_has_truthy _ _ H3).
      by eapply qwen_shape_data_url.
    - intros v Hu Hb. rewrite qwen_parse_response_order.
      rewrite H1, H2, (data_item_has_truthy _ _ H3).
      by eapply qwen_shape_data_b64. }
  split; [intros; by eapply qwen_attempt_fetches|].
  split; [intros; by apply seedream_image_of_neither|].
  intros result item c H1 H2. split.
  - intros v Hv. by eapply seedream_image_of_b64.
  - intros url status_code content Hb Hu Hg.
    by eapply seedream_image_of_url.
Qed.

Lemma C4_response_shapes_witness :
  Qwen.parse_response Examples.answers_nested_url Examples.nested_url
  = Ok (None, JStr "http://oss/1.png")
  ∧ Qwen.attempt_body Examples.answers_nested_url "a cat" 2 0 clock0
    = (Ok (Return (RowPng 2)), after_fetch clock0,
       [HttpPost "a cat"; WriteDebug (DebugResponse 2);
        HttpGet (JStr "http://oss/1.png"); SaveImage (RowPng 2)]).
Proof.
  destruct (C4_response_shapes Examples.answers_nested_url)
    as (_ & _ & Hout & _ & Hfetch & _).
  split.
  - apply (Hout Examples.nested_url "http://oss/1.png"); reflexivity.
  - apply (Hfetch "a cat" 2 0 clock0 Examples.nested_url None
             "http://oss/1.png" Examples.png);
      [reflexivity|reflexivity| |discriminate|reflexivity].
    apply (Hout Examples.nested_url "http://oss/1.png"); reflexivity.
Defined.

(** C4 as stated fails on the seedream script: a body of the nested
    layout that holds an HTTP image URL is not recognised there; no second
    request is made and the attempt ends without an image. *)
Lemma C4_counterexample :
  output_image Examples.nested_url = Some (JStr "http://oss/1.png")
  ∧ Seedream.generate_image Examples.answers_nested_url "a cat" 2 1 clock0
    = (Ok None, after_posts 1 clock0, [HttpPost "a cat"])
  ∧ count is_get
      (Seedream.generate_image Examples.answers_nested_url "a cat" 2 1
         clock0).2
    = 0%nat.
Proof. repeat split; by vm_compute. Qed.

(** ** C6 *)

(** Saving does not depend on the call counters and leaves them as they
    are. *)
Lemma qwen_save_image_run w row_num image_data c :
  Qwen.save_image w row_num image_data c
  = (if bytes_truthy image_data && image_ok w (default [] image_data)
     then (Ok (Return (RowPng row_num)), c, [SaveImage (RowPng row_num)])
     else (Ok Next, c, [])).
Proof.
  unfold Qwen.save_image, try_except, bind, pil_save.
  destruct (bytes_truthy image_data); [|done]. simpl.
  by destruct (image_ok w _).
Qed.

Lemma qwen_attempt_inline w prompt row_num attempt c result data :
  post_reply w (posts c) prompt = Response 200 (Json result) →
  dump_ok w (dumps c) = true →
  Qwen.parse_response w result = Ok (Some data, JNull) →
  Qwen.attempt_body w prompt row_num attempt c
  = (let '(r, c', t) :=
       Qwen.save_image w row_num (Some data)
         {| posts := S (posts c); queries := queries c;
            gets := gets c; dumps := S (dumps c) |} in
     (r, c', [HttpPost prompt; WriteDebug (DebugResponse row_num)] ++ t)).
Proof.
  intros Hpost Hdump Hparse.
  unfold Qwen.attempt_body, Qwen.download_image, bind, http_post,
    dump_debug, lift.
  rewrite Hpost. simpl. rewrite Hdump, Hparse. simpl.
  by destruct (Qwen.save_image w row_num (Some data) _) as [[r c'] t].
Qed.










(** * Further properties of the scripts *)

(** ** Row source *)

Section RowSourceMore.
Import PyStr RowSource.

Lemma iterrows_out_of_range rows : ∀ idx start_row column_index acc,
  (∀ row, row ∈ rows → len row ≤ column_index) →
  iterrows rows idx start_row column_index acc = Ok acc.
Proof.
  induction rows as [|row rows IH]; intros idx start c acc H; simpl; [done|].
  replace (c <? len row) with false
    by (symmetry; apply Z.ltb_ge, H; by left).
  apply IH. intros row' Hin. apply H. by right.
Qed.

(** X1.  A column index at or beyond the width of every row makes the read
    return the empty list, with no error: each row is passed over by the
    test [column_index < len(row)]. *)
Theorem column_beyond_width_reads_nothing df column_index has_header :
  (∀ row, row ∈ df → len row ≤ column_index) →
  read_rows df column_index has_header = Ok [].
Proof. intros H. by apply iterrows_out_of_range. Qed.

Lemma column_beyond_width_reads_nothing_witness :
  read_rows [[CText "a cat"; CText "x"]; [CText "a dog"; CNaN]] 2 true = Ok [].
Proof.
  apply column_beyond_width_reads_nothing.
  intros row Hin. repeat (apply elem_of_cons in Hin as [->|Hin]);
    [vm_compute; discriminate|vm_compute; discriminate|].
  by apply elem_of_nil in Hin.
Defined.

Lemma iloc_negative row column_index :
  column_index < 0 →
  iloc row column_index
  = (if 0 <=? len row + column_index
     then match row !! Z.to_nat (len row + column_index) with
          | Some c => Ok c
          | None => Raise (Error "IndexError")
          end
     else Raise (Error "IndexError")).
Proof.
  intros H. unfold iloc.
  replace (column_index <? 0) with true by (symmetry; by apply Z.ltb_lt).
  replace (len row + column_index <? len row) with true
    by (symmetry; apply Z.ltb_lt; lia).
  by rewrite andb_true_r.
Qed.

Lemma iterrows_negative_raises rows : ∀ idx start_row column_index acc row,
  column_index < 0 →
  row ∈ rows →
  len row + column_index < 0 →
  iterrows rows idx start_row column_index acc = Raise (Error "IndexError").
Proof.
  induction rows as [|row' rows IH]; intros idx start c acc row Hc Hin Hrow.
  - by apply elem_of_nil in Hin.
  - simpl.
    replace (c <? len row') with true
      by (symmetry; apply Z.ltb_lt; unfold len; lia).
    rewrite iloc_negative by done.
    destruct (0 <=? len row' + c) eqn:Hge; [|done].
    apply Z.leb_le in Hge.
    destruct (row' !! Z.to_nat (len row' + c)) as [cl|]; [|done].
    apply elem_of_cons in Hin as [->|Hin]; [lia|].
    destruct (keep _); by eapply IH.
Qed.

(** X2.  The test [column_index < len(row)] lets every negative index through.
    One that reaches before the first cell of some row makes [row.iloc]
    raise IndexError, and the read fails as a whole. *)
Theorem negative_column_before_first_raises df column_index has_header row :
  column_index < 0 →
  row ∈ df →
  len row + column_index < 0 →
  read_rows df column_index has_header = Raise (Error "IndexError").
Proof. intros. by eapply iterrows_negative_raises. Qed.

Lemma negative_column_before_first_raises_witness :
  read_rows [[CText "a cat"; CText "x"]; [CText "a dog"; CNaN]] (-3) false
  = Raise (Error "IndexError").
Proof.
  apply (negative_column_before_first_raises _ _ _ [CText "a cat"; CText "x"]).
  - lia.
  - by left.
  - vm_compute. reflexivity.
Defined.

(** X3.  Every text the read returns is trimmed, not empty, and none of the
    sentinels: the prompts handed to the batch driver never are blank,
    "nan" in any letter case, or "None", and neither begin nor end with a
    whitespace character, U+3000 and the other Unicode spaces included. *)
Theorem read_texts_are_clean df column_index has_header texts r t :
  read_rows df column_index has_header = Ok texts →
  (r, t) ∈ texts →
  t ≠ [] ∧ strip t = t ∧ lower t ≠ ("nan" : str) ∧ t ≠ ("None" : str)
  ∧ (∀ c, head t = Some c → c ∉ whitespace)
  ∧ (∀ c, last t = Some c → c ∉ whitespace)
  ∧ (t ∉ nan_spellings).
Proof.
  intros ->%read_rows_selected (i & row & _ & _ & Hk)%elem_of_selected.
  unfold kept_text in Hk. destruct (cell_at row column_index) as [cl|]; [|done].
  destruct (keep (strip (py_str cl))) eqn:Hkeep; [|done].
  injection Hk as <-. apply keep_true in Hkeep as (H1 & H2 & H3).
  destruct (strip_trimmed (py_str cl)) as (p & q & _ & _ & _ & Hh & Hl).
  split; [done|]. split; [apply strip_idemp|].
  split; [by rewrite lower_nan|]. by repeat split.
Qed.

(** The cell holds U+3000 山水 U+2003. *)
Lemma read_texts_are_clean_witness :
  let t := [0x5C71; 0x6C34]%N in
  t ≠ [] ∧ strip t = t ∧ lower t ≠ ("nan" : str) ∧ t ≠ ("None" : str)
  ∧ (∀ c, head t = Some c → c ∉ whitespace)
  ∧ (∀ c, last t = Some c → c ∉ whitespace)
  ∧ (t ∉ nan_spellings).
Proof.
  apply (read_texts_are_clean
           [[CText [0x3000; 0x5C71; 0x6C34; 0x2003]%N]; [CNaN]; [CText "NAN"]]
           0 false [(1, [0x5C71; 0x6C34]%N)] 1).
  - reflexivity.
  - by left.
Defined.

Lemma selected_length rows : ∀ idx start_row column_index,
  (length (selected rows idx start_row column_index) ≤ length rows)%nat.
Proof.
  induction rows as [|row rows IH]; intros idx start c; simpl; [done|].
  destruct (kept_text row c); simpl; specialize (IH (idx + 1) start c); lia.
Qed.

Lemma selected_NoDup rows : ∀ idx start_row column_index,
  NoDup (selected rows idx start_row column_index).*1.
Proof.
  induction rows as [|row rows IH]; intros idx start c; simpl.
  - constructor.
  - destruct (kept_text row c); [|apply IH].
    simpl. constructor; [|apply IH].
    intros ([r t] & Hr & Hin%selected_lower_bound)%list_elem_of_fmap.
    simpl in Hr. lia.
Qed.

(** X4.  The read yields at most one pair per row of the frame, and no row
    number twice: the image files [row_NNNN.png] of one run do not
    overwrite each other. *)
Theorem read_row_numbers_distinct df column_index has_header texts :
  read_rows df column_index has_header = Ok texts →
  (length texts ≤ length df)%nat ∧ NoDup texts.*1.
Proof.
  intros ->%read_rows_selected.
  split; [apply selected_length|apply selected_NoDup].
Qed.

Lemma read_row_numbers_distinct_witness :
  (length [(2, "a cat" : str); (4, "a dog" : str)] ≤ 3)%nat
  ∧ NoDup [(2, "a cat" : str); (4, "a dog" : str)].*1.
Proof.
  exact (read_row_numbers_distinct
           [[CText " a cat "]; [CNaN]; [CText "a dog"]] 0 true
           [(2, "a cat" : str); (4, "a dog" : str)] eq_refl).
Defined.

End RowSourceMore.

(** ** Batch driver: which rows succeed, and the report *)

Lemma rows_where_cons pick row todo r results :
  rows_where pick (row :: todo) (r :: results)
  = (if pick r then [row.1] else []) ++ rows_where pick todo results.
Proof. unfold rows_where. simpl. by destruct (pick r). Qed.

Lemma rows_where_sublist pick todo : ∀ results,
  rows_where pick todo results `sublist_of` todo.*1.
Proof.
  induction todo as [|row todo IH]; intros [|r results];
    try (unfold rows_where; simpl; apply sublist_nil_l).
  rewrite rows_where_cons, fmap_cons.
  destruct (pick r); simpl; [by apply sublist_skip|by apply sublist_cons].
Qed.

Lemma rows_where_partition pick todo : ∀ results,
  length results = length todo →
  rows_where pick todo results ++ rows_where (λ r, negb (pick r)) todo results
  ≡ₚ todo.*1.
Proof.
  induction todo as [|row todo IH]; intros [|r results] Hlen; try done.
  rewrite !rows_where_cons, fmap_cons. simpl in Hlen.
  destruct (pick r); simpl.
  - constructor. apply IH. lia.
  - rewrite <- Permutation_middle. constructor. apply IH. lia.
Qed.

Section BatchOutcomes.
Variable generate_image : str → Z → M (option filepath).
Hypothesis generate_image_returns :
  ∀ text row_num, returns (generate_image text row_num).

(** The loop, row by row: what each generation returned and did. *)
Lemma batch_loop_outcomes delay texts todo :
  ∀ success_rows failed_rows c,
  ∃ c' (outs : list (option filepath * list event)),
    Forall2 (λ row out, ∃ c1 c2,
               generate_image row.2 row.1 c1 = (Ok out.1, c2, out.2))
      todo outs
    ∧ Batch.batch_loop generate_image delay texts todo success_rows
        failed_rows c
      = (Ok (success_rows ++ rows_where Py.is_some todo outs.*1,
             failed_rows
             ++ rows_where (λ r, negb (Py.is_some r)) todo outs.*1),
         c',
         concat ((λ out, out.2 ++ delay_trace delay texts) <$> outs)).
Proof.
  induction todo as [|[row_num text] rest IH]; intros s f c.
  - exists c, []. split; [constructor|].
    unfold rows_where. simpl. by rewrite !app_nil_r.
  - cbn [Batch.batch_loop].
    destruct (generate_image_returns text row_num c) as (res & c1 & t1 & E).
    erewrite bind_ok by done.
    destruct res as [p|].
    + destruct (IH (s ++ [row_num]) f c1) as (c' & outs & HF & E').
      erewrite bind_ok by apply row_delay_run. rewrite E'.
      exists c', ((Some p, t1) :: outs). split.
      * constructor; [by exists c, c1|done].
      * rewrite !fmap_cons, !rows_where_cons. simpl.
        by rewrite <- !app_assoc.
    + destruct (IH s (f ++ [row_num]) c1) as (c' & outs & HF & E').
      erewrite bind_ok by apply row_delay_run. rewrite E'.
      exists c', ((None, t1) :: outs). split.
      * constructor; [by exists c, c1|done].
      * rewrite !fmap_cons, !rows_where_cons. simpl.
        by rewrite <- !app_assoc.
Qed.

Lemma batch_generate_partition texts delay c :
  ∃ success failed c' t,
    Batch.batch_generate generate_image texts delay c
    = (Ok (success, failed), c', t)
    ∧ success `sublist_of` texts.*1
    ∧ failed `sublist_of` texts.*1
    ∧ success ++ failed ≡ₚ texts.*1.
Proof.
  unfold Batch.batch_generate.
  destruct (batch_loop_outcomes delay texts texts [] [] c)
    as (c' & outs & HF & E).
  eexists _, _, _, _. split; [exact E|]. simpl.
  split; [apply rows_where_sublist|].
  split; [apply rows_where_sublist|].
  apply rows_where_partition.
  rewrite length_fmap. symmetry. by eapply Forall2_length.
Qed.

End BatchOutcomes.

(** X5.  In each script [batch_generate] returns, whatever the rows do: every
    row number of the input lands in exactly one of the two lists, and each
    list keeps the order of the input.  A row that fails does not stop the
    batch. *)
Theorem batch_partitions_rows w batch_generate texts delay c :
  batch_generate ∈ batch_drivers w →
  ∃ success failed c' t,
    batch_generate texts delay c = (Ok (success, failed), c', t)
    ∧ success `sublist_of` texts.*1
    ∧ failed `sublist_of` texts.*1
    ∧ success ++ failed ≡ₚ texts.*1.
Proof.
  intros (generate_image & -> & Hr & _)%batch_drivers_spec.
  by apply batch_generate_partition.
Qed.

Lemma batch_partitions_rows_witness :
  ∃ success failed c' t,
    Seedream.batch_generate Examples.limited_twice
      [(2, "a cat" : str); (3, "a dog" : str)] (2 # 1) clock0
    = (Ok (success, failed), c', t)
    ∧ success ++ failed ≡ₚ [2; 3].
Proof.
  destruct (batch_partitions_rows Examples.limited_twice
              (Seedream.batch_generate Examples.limited_twice)
              [(2, "a cat" : str); (3, "a dog" : str)] (2 # 1) clock0)
    as (success & failed & c' & t & E & _ & _ & Hp).
  - right. by left.
  - by exists success, failed, c', t.
Defined.

(** ** What an adapter's [generate_image] may do *)

Lemma qwen_generate_image_events w prompt row_num retry_count :
  emits adapter_event (Qwen.generate_image w prompt row_num retry_count).
Proof.
  unfold Qwen.generate_image.
  generalize (match row_num with Some r => r | None => time_now w end).
  intros r. induction (range retry_count) as [|attempt rest IH];
    cbn [Qwen.retry_loop]; [apply emits_ret|].
  apply emits_bind.
  - unfold Qwen.attempt_body, Qwen.handler, Qwen.download_image,
      Qwen.save_image.
    emits_tac.
  - intros [p| | |]; try apply emits_ret; [done|].
    apply emits_bind; [|done]. unfold Qwen.backoff. emits_tac.
Qed.

Lemma seedream_generate_image_events w prompt row_num retry_count :
  emits adapter_event (Seedream.generate_image w prompt row_num retry_count).
Proof.
  unfold Seedream.generate_image.
  induction (range retry_count) as [|attempt rest IH];
    cbn [Seedream.retry_loop]; [apply emits_ret|].
  apply emits_bind.
  - unfold Seedream.attempt_body, Seedream.handler, Seedream.image_of,
      Seedream.save_image.
    emits_tac.
  - intros [p| | |]; try apply emits_ret; [done|].
    apply emits_bind; [|done]. unfold Seedream.backoff. emits_tac.
Qed.

Lemma wan_poll_loop_events P w task_id retry_interval attempts :
  P (TaskQuery task_id) →
  (∀ attempt, P (WriteDebug (DebugTask task_id attempt))) →
  (∀ message, P (PrintReason message)) →
  P (Sleep PollInterval retry_interval) →
  emits P (Wan.poll_loop w task_id retry_interval attempts).
Proof.
  intros H1 H2 H3 H4.
  induction attempts as [|attempt rest IH]; cbn [Wan.poll_loop];
    [apply emits_ret|].
  apply emits_bind.
  - unfold Wan.poll_body, Wan.poll_handler. emits_tac.
  - intros [r| | |]; try apply emits_ret; done.
Qed.

Lemma wan_generate_image_events w prompt row_num :
  emits adapter_event (Wan.generate_image w prompt row_num).
Proof.
  unfold Wan.generate_image. apply emits_bind.
  { unfold Wan.create_async_task. emits_tac. }
  intros task_id. destruct (negb _); [apply emits_ret|].
  apply emits_bind; [by apply wan_poll_loop_events|].
  intros task_result. destruct (negb _); [apply emits_ret|].
  unfold Wan.extract_image_from_result, Wan.download_image. emits_tac.
Qed.

Lemma batch_drivers_events w batch_generate :
  batch_generate ∈ batch_drivers w →
  ∃ generate_image,
    batch_generate = Batch.batch_generate generate_image
    ∧ (∀ text row_num, returns (generate_image text row_num))
    ∧ (∀ text row_num, emits adapter_event (generate_image text row_num)).
Proof.
  unfold batch_drivers. rewrite !elem_of_cons, elem_of_nil.
  intros [->|[->|[->|[]]]]; eexists; (split; [reflexivity|]); split; intros.
  - apply qwen_generate_image_returns.
  - apply qwen_generate_image_events.
  - apply seedream_generate_image_returns.
  - apply seedream_generate_image_events.
  - apply wan_generate_image_returns.
  - apply wan_generate_image_events.
Qed.

Lemma emits_impl {A} (P Q : event → Prop) (m : M A) :
  (∀ e, P e → Q e) → emits P m → emits Q m.
Proof. intros H Hm c. eapply Forall_impl; [apply Hm|done]. Qed.

Lemma batch_generate_emits P generate_image texts delay :
  (∀ text row_num, emits P (generate_image text row_num)) →
  P (Sleep RowDelay delay) →
  emits P (Batch.batch_generate generate_image texts delay).
Proof.
  intros Hg Hd. unfold Batch.batch_generate.
  generalize (@nil Z) at 1. generalize (@nil Z).
  generalize texts at 2.
  intros todo. induction todo as [|[row_num text] rest IH]; intros s f;
    cbn [Batch.batch_loop]; [apply emits_ret|].
  apply emits_bind; [done|]. intros [p|].
  - apply emits_bind; [|done]. unfold Batch.row_delay.
    destruct (_ && _); [by apply emits_sleep|apply emits_ret].
  - apply emits_bind; [|done]. unfold Batch.row_delay.
    destruct (_ && _); [by apply emits_sleep|apply emits_ret].
Qed.

Lemma entry_points_spec w generate_from_excel :
  generate_from_excel ∈ entry_points w →
  ∃ generate_image,
    generate_from_excel = Batch.generate_from_excel w generate_image
    ∧ (∀ text row_num, returns (generate_image text row_num))
    ∧ (∀ text row_num, emits adapter_event (generate_image text row_num)).
Proof.
  unfold entry_points. rewrite !elem_of_cons, elem_of_nil.
  intros [->|[->|[->|[]]]]; eexists; (split; [reflexivity|]); split; intros.
  - apply qwen_generate_image_returns.
  - apply qwen_generate_image_events.
  - apply seedream_generate_image_returns.
  - apply seedream_generate_image_events.
  - apply wan_generate_image_returns.
  - apply wan_generate_image_events.
Qed.

Lemma read_texts_run w excel_path column_index has_header c df :
  read_excel w excel_path has_header = Ok df →
  Batch.read_texts_from_excel w excel_path column_index has_header c
  = (RowSource.read_rows df column_index has_header, c, []).
Proof.
  intros H. unfold Batch.read_texts_from_excel, try_except, bind, lift, raise.
  rewrite H. by destruct (RowSource.read_rows _ _ _).
Qed.

(** X6.  In each script, when the read yields at least one row,
    [generate_from_excel] returns a report: its lists are the two lists of
    the batch, its counts are their lengths and add up to the number of
    rows read, and the report file is written once, as the last effect of
    the run, from the same two lists. *)
Theorem report_matches_batch w generate_from_excel excel_path column_index
    has_header delay c df texts :
  generate_from_excel ∈ entry_points w →
  read_excel w excel_path has_header = Ok df →
  RowSource.read_rows df column_index has_header = Ok texts →
  texts ≠ [] →
  ∃ rep c' t,
    generate_from_excel excel_path column_index has_header delay c
    = (Ok (Some rep), c',
       t ++ [WriteReport (success_rows rep) (failed_rows rep)])
    ∧ count is_report t = 0%nat
    ∧ total rep = Z.of_nat (length texts)
    ∧ success rep = Z.of_nat (length (success_rows rep))
    ∧ failed rep = Z.of_nat (length (failed_rows rep))
    ∧ success rep + failed rep = total rep
    ∧ success_rows rep ++ failed_rows rep ≡ₚ texts.*1.
Proof.
  intros (generate_image & -> & Hr & He)%entry_points_spec Hx Hrows Hne.
  unfold Batch.generate_from_excel.
  erewrite bind_ok
    by (rewrite (read_texts_run _ _ _ _ _ _ Hx); by rewrite Hrows).
  destruct texts as [|row texts]; [done|].
  destruct (batch_generate_partition generate_image Hr (row :: texts) delay c)
    as (success & failed & c' & t & E & _ & _ & Hp).
  pose proof (batch_generate_emits (λ e, is_report e = false) generate_image
                (row :: texts) delay) as Hq.
  specialize (Hq ltac:(intros; eapply emits_impl; [|apply He]; by intros ? [_ ?])
                 eq_refl c).
  rewrite E in Hq. simpl in Hq.
  cbn beta iota. erewrite bind_ok by exact E.
  unfold Batch.generate_report, bind, emit, ret. simpl.
  eexists (Build_report _ _ _ _ _), c', t. split; [reflexivity|]. simpl.
  split; [by apply count_none|].
  split; [done|]. split; [done|]. split; [done|]. split; [|done].
  apply Permutation_length in Hp. rewrite length_app, length_fmap in Hp.
  simpl in Hp. lia.
Qed.

Lemma report_matches_batch_witness :
  ∃ rep c' t,
    Qwen.generate_from_excel
      (sheet_world (λ _, Response 401 NotJson) Examples.no_reply)
      "prompts.xlsx" 0 false (2 # 1) clock0
    = (Ok (Some rep), c',
       t ++ [WriteReport (success_rows rep) (failed_rows rep)])
    ∧ success_rows rep ++ failed_rows rep ≡ₚ [1; 3].
Proof.
  destruct (report_matches_batch
              (sheet_world (λ _, Response 401 NotJson) Examples.no_reply)
              (Qwen.generate_from_excel
                 (sheet_world (λ _, Response 401 NotJson) Examples.no_reply))
              "prompts.xlsx" 0 false (2 # 1) clock0
              [[RowSource.CText " a cat "]; [RowSource.CNaN];
               [RowSource.CText "a dog"]; [RowSource.CNaN]]
              [(1, "a cat" : str); (3, "a dog" : str)])
    as (rep & c' & t & E & _ & _ & _ & _ & _ & Hp).
  - by left.
  - reflexivity.
  - reflexivity.
  - discriminate.
  - by exists rep, c', t.
Defined.

(** X7.  In each script a failure of the read, be it pandas that raises or the
    loop over the rows, leaves [generate_from_excel] as that exception
    before anything was done: no submission, no wait, no file. *)
Theorem read_failure_stops_run w generate_from_excel excel_path column_index
    has_header delay c e :
  generate_from_excel ∈ entry_points w →
  (read_excel w excel_path has_header = Raise e
   ∨ ∃ df, read_excel w excel_path has_header = Ok df
           ∧ RowSource.read_rows df column_index has_header = Raise e) →
  generate_from_excel excel_path column_index has_header delay c
  = (Raise e, c, []).
Proof.
  intros (generate_image & -> & _ & _)%entry_points_spec H.
  unfold Batch.generate_from_excel, Batch.read_texts_from_excel, bind,
    try_except, lift, raise.
  destruct H as [->|(df & -> & ->)]; by destruct c.
Qed.

Lemma read_failure_stops_run_witness :
  Wan.generate_from_excel
    (sheet_world (λ _, Response 401 NotJson) Examples.no_reply)
    "prompts.xlsx" (-2) false (5 # 1) clock0
  = (Raise (Error "IndexError"), clock0, []).
Proof.
  apply (read_failure_stops_run
           (sheet_world (λ _, Response 401 NotJson) Examples.no_reply)).
  - right. right. by left.
  - right. eexists. split; reflexivity.
Defined.

(** ** Test mode *)

(** X8.  [test_mode] sends no request and writes no image, debug or report
    file, whatever the sheet (the creation of its output directory is not
    part of the trace).  It reports success exactly when the read of the
    scripts proper returns at least one row; where that read raises,
    [test_mode] reports a failure instead of raising, as for a sheet without
    any valid text. *)
Theorem test_mode_reads_only w excel_file c :
  ∃ ok,
    test_mode w excel_file c = (Ok ok, c, [])
    ∧ (ok = true ↔
       ∃ row texts,
         Batch.read_texts_from_excel w excel_file 0 false c
         = (Ok (row :: texts), c, [])).
Proof.
  unfold test_mode, test_read_texts_from_excel, Batch.read_texts_from_excel,
    bind, try_except, lift, raise, ret.
  destruct (read_excel w excel_file false) as [df|e]; simpl.
  - destruct (RowSource.read_rows df 0 false) as [[|row texts]|e]; simpl.
    + exists false. destruct c. split; [done|].
      split; [done|]. by intros (? & ? & ?).
    + exists true. destruct c. split; [done|].
      split; [|done]. intros _. by exists row, texts.
    + exists false. destruct c. split; [done|].
      split; [done|]. by intros (? & ? & ?).
  - exists false. destruct c. split; [done|].
    split; [done|]. by intros (? & ? & ?).
Qed.

(** ** Retry loops: the other replies *)

Lemma qwen_attempt_400 w prompt row_num attempt c :
  status_of (post_reply w (posts c) prompt) = Some 400 →
  try_except (Qwen.attempt_body w prompt row_num attempt) Qwen.handler c
  = (Ok Break, after_posts 1 c, [HttpPost prompt]).
Proof.
  intros H. unfold try_except, Qwen.attempt_body, bind, http_post.
  destruct (post_reply w (posts c) prompt) as [e|s b]; [done|].
  injection H as ->. done.
Qed.

(** X9.  A 400 ends the qwen loop at once, like a 401: one submission, no wait,
    [None].  The seedream loop takes a 400 for a failed request like any
    other and goes through all its attempts. *)
Theorem bad_request_aborts_qwen_only w prompt c :
  (∀ k, status_of (post_reply w k prompt) = Some 400) →
  (∀ row_num retry_count, 0 < retry_count →
     Qwen.generate_image w prompt row_num retry_count c
     = (Ok None, after_posts 1 c, [HttpPost prompt]))
  ∧ (∀ row_num retry_count, ∃ t,
       Seedream.generate_image w prompt row_num retry_count c
       = (Ok None, after_posts (Z.to_nat retry_count) c, t)
       ∧ count is_post t = Z.to_nat retry_count).
Proof.
  intros H. split.
  - intros row_num retry_count Hpos. unfold Qwen.generate_image.
    destruct (range_cons retry_count Hpos) as [rest ->].
    cbn [Qwen.retry_loop].
    erewrite bind_ok by (by apply qwen_attempt_400). done.
  - intros row_num retry_count. unfold Seedream.generate_image.
    rewrite <- (length_range retry_count).
    apply seedream_retry_loop_plain_failures. intros k.
    specialize (H k). destruct (post_reply w k prompt) as [e|s b]; [done|].
    injection H as ->. done.
Qed.

Lemma bad_request_aborts_qwen_only_witness :
  Qwen.generate_image
    (Examples.world_of (λ _, Response 400 NotJson) Examples.no_reply)
    "a cat" (Some 2) 3 clock0
  = (Ok None, after_posts 1 clock0, [HttpPost "a cat"]).
Proof.
  apply (bad_request_aborts_qwen_only
           (Examples.world_of (λ _, Response 400 NotJson) Examples.no_reply)
           "a cat" clock0).
  - intros k. reflexivity.
  - reflexivity.
Defined.

Lemma qwen_loop_plain_failures w prompt row_num retry_count attempts :
  (∀ k, qwen_plain_failure (post_reply w k prompt)) →
  ∀ c,
    Qwen.retry_loop w prompt row_num retry_count attempts c
    = (Ok None, after_posts (length attempts) c,
       failure_trace prompt retry_count attempts).
Proof.
  intros H. induction attempts as [|attempt rest IH]; intros c.
  - by destruct c.
  - erewrite qwen_loop_next by (by apply qwen_attempt_plain_failure).
    rewrite IH, after_posts_S. done.
Qed.

Lemma seedream_loop_plain_failures w prompt row_num retry_count attempts :
  (∀ k, seedream_plain_failure (post_reply w k prompt)) →
  ∀ c,
    Seedream.retry_loop w prompt row_num retry_count attempts c
    = (Ok None, after_posts (length attempts) c,
       failure_trace prompt retry_count attempts).
Proof.
  intros H. induction attempts as [|attempt rest IH]; intros c.
  - by destruct c.
  - erewrite seedream_loop_next by (by apply seedream_attempt_plain_failure).
    rewrite IH, after_posts_S. done.
Qed.

Lemma sleeps_failure_trace prompt retry_count attempts :
  sleeps (failure_trace prompt retry_count attempts)
  = (λ attempt, Sleep RetryBackoff (inject_Z (2 ^ attempt)))
    <$> List.filter (λ attempt, attempt <? retry_count - 1) attempts.
Proof.
  unfold failure_trace, sleeps.
  induction attempts as [|a rest IH]; [done|].
  cbn [mbind list_bind]. rewrite List.filter_app, IH. unfold backoff_trace.
  simpl. by destruct (a <? retry_count - 1).
Qed.

Lemma count_post_failure_trace prompt retry_count attempts :
  count is_post (failure_trace prompt retry_count attempts) = length attempts.
Proof.
  unfold failure_trace. induction attempts as [|a rest IH]; [done|].
  cbn [mbind list_bind]. rewrite count_app, IH. unfold backoff_trace.
  by destruct (a <? retry_count - 1).
Qed.

Lemma range_snoc m : 0 ≤ m → range (m + 1) = range m ++ [m].
Proof.
  intros H. unfold range.
  replace (Z.to_nat (m + 1)) with (S (Z.to_nat m)) by lia.
  rewrite seq_S, fmap_app. simpl. by rewrite Z2Nat.id.
Qed.

Lemma range_bound m a : a ∈ range m → 0 ≤ a < m.
Proof.
  unfold range. intros (k & -> & Hk)%list_elem_of_fmap.
  apply elem_of_seq in Hk. lia.
Qed.

Lemma filter_range_below n :
  List.filter (λ attempt, attempt <? n - 1) (range n) = range (n - 1).
Proof.
  destruct (Z.le_gt_cases n 0) as [Hn|Hn].
  - unfold range. replace (Z.to_nat n) with 0%nat by lia.
    by replace (Z.to_nat (n - 1)) with 0%nat by lia.
  - assert (Hr : range n = range (n - 1) ++ [n - 1])
      by (rewrite <- range_snoc by lia; f_equal; lia).
    rewrite Hr, List.filter_app. simpl.
    rewrite Z.ltb_irrefl, app_nil_r.
    apply List.forallb_filter_id, forallb_forall.
    intros a Ha%list_elem_of_In%range_bound. apply Z.ltb_lt. lia.
Qed.

(** X10.  When every request fails plainly (no reply, or a status that is not
    handled apart), both synchronous loops submit [retry_count] times and
    return [None]; they wait 2^attempt seconds after every attempt but the
    last one, that is 1, 2, 4, ... seconds, [retry_count - 1] times. *)
Theorem persistent_failure_backs_off w prompt c retry_count :
  let t := failure_trace prompt retry_count (range retry_count) in
  count is_post t = Z.to_nat retry_count
  ∧ sleeps t
    = (λ attempt, Sleep RetryBackoff (inject_Z (2 ^ attempt)))
      <$> range (retry_count - 1)
  ∧ ((∀ k, qwen_plain_failure (post_reply w k prompt)) →
     ∀ row_num,
       Qwen.generate_image w prompt row_num retry_count c
       = (Ok None, after_posts (Z.to_nat retry_count) c, t))
  ∧ ((∀ k, seedream_plain_failure (post_reply w k prompt)) →
     ∀ row_num,
       Seedream.generate_image w prompt row_num retry_count c
       = (Ok None, after_posts (Z.to_nat retry_count) c, t)).
Proof.
  intros t. split; [|split; [|split]].
  - unfold t. by rewrite count_post_failure_trace, length_range.
  - unfold t. by rewrite sleeps_failure_trace, filter_range_below.
  - intros H row_num. unfold Qwen.generate_image.
    rewrite <- (length_range retry_count).
    by apply qwen_loop_plain_failures.
  - intros H row_num. unfold Seedream.generate_image.
    rewrite <- (length_range retry_count).
    by apply seedream_loop_plain_failures.
Qed.

Lemma persistent_failure_backs_off_witness :
  Seedream.generate_image
    (Examples.world_of (λ _, Response 500 NotJson) Examples.no_reply)
    "a cat" 2 4 clock0
  = (Ok None, after_posts 4 clock0,
     [HttpPost "a cat"; Sleep RetryBackoff (inject_Z 1);
      HttpPost "a cat"; Sleep RetryBackoff (inject_Z 2);
      HttpPost "a cat"; Sleep RetryBackoff (inject_Z 4);
      HttpPost "a cat"]).
Proof.
  apply (persistent_failure_backs_off
           (Examples.world_of (λ _, Response 500 NotJson) Examples.no_reply)
           "a cat" clock0 4).
  intros k. by vm_compute.
Defined.

Lemma qwen_loop_limited w prompt row_num retry_count attempts :
  (∀ k, status_of (post_reply w k prompt) = Some 429) →
  ∀ c,
    Qwen.retry_loop w prompt row_num retry_count attempts c
    = (Ok None, after_posts (length attempts) c, limited_trace prompt attempts).
Proof.
  intros H. induction attempts as [|attempt rest IH]; intros c.
  - by destruct c.
  - erewrite qwen_loop_continue by (by apply qwen_attempt_429).
    rewrite IH, after_posts_S. done.
Qed.

Lemma seedream_loop_limited w prompt row_num retry_count attempts :
  (∀ k, status_of (post_reply w k prompt) = Some 429) →
  ∀ c,
    Seedream.retry_loop w prompt row_num retry_count attempts c
    = (Ok None, after_posts (length attempts) c, limited_trace prompt attempts).
Proof.
  intros H. induction attempts as [|attempt rest IH]; intros c.
  - by destruct c.
  - erewrite seedream_loop_continue by (by apply seedream_attempt_429).
    rewrite IH, after_posts_S. done.
Qed.

Lemma sleeps_limited_trace prompt attempts :
  sleeps (limited_trace prompt attempts)
  = (λ attempt, Sleep RateLimitWait (inject_Z ((attempt + 1) * 10)))
    <$> attempts.
Proof.
  unfold limited_trace, sleeps.
  induction attempts as [|a rest IH]; [done|].
  cbn [mbind list_bind]. rewrite List.filter_app, IH. done.
Qed.

Lemma count_post_limited_trace prompt attempts :
  count is_post (limited_trace prompt attempts) = length attempts.
Proof.
  unfold limited_trace. induction attempts as [|a rest IH]; [done|].
  cbn [mbind list_bind]. rewrite count_app, IH. done.
Qed.

(** X11.  When every submission is answered by 429, both synchronous loops
    submit [retry_count] times and return [None].  They wait 10, 20, 30, ...
    seconds, once after every attempt: the wait after the last attempt is
    served too, before the method gives up. *)
Theorem persistent_rate_limit_waits_every_time w prompt c retry_count :
  (∀ k, status_of (post_reply w k prompt) = Some 429) →
  let t := limited_trace prompt (range retry_count) in
  count is_post t = Z.to_nat retry_count
  ∧ sleeps t
    = (λ attempt, Sleep RateLimitWait (inject_Z ((attempt + 1) * 10)))
      <$> range retry_count
  ∧ (∀ row_num,
       Qwen.generate_image w prompt row_num retry_count c
       = (Ok None, after_posts (Z.to_nat retry_count) c, t))
  ∧ (∀ row_num,
       Seedream.generate_image w prompt row_num retry_count c
       = (Ok None, after_posts (Z.to_nat retry_count) c, t)).
Proof.
  intros H t. split; [|split; [|split]].
  - unfold t. by rewrite count_post_limited_trace, length_range.
  - apply sleeps_limited_trace.
  - intros row_num. unfold Qwen.generate_image.
    rewrite <- (length_range retry_count). by apply qwen_loop_limited.
  - intros row_num. unfold Seedream.generate_image.
    rewrite <- (length_range retry_count). by apply seedream_loop_limited.
Qed.

Lemma persistent_rate_limit_waits_every_time_witness :
  Qwen.generate_image
    (Examples.world_of (λ _, Response 429 NotJson) Examples.no_reply)
    "a cat" (Some 2) 3 clock0
  = (Ok None, after_posts 3 clock0,
     [HttpPost "a cat"; Sleep RateLimitWait (inject_Z 10);
      HttpPost "a cat"; Sleep RateLimitWait (inject_Z 20);
      HttpPost "a cat"; Sleep RateLimitWait (inject_Z 30)]).
Proof.
  apply (persistent_rate_limit_waits_every_time
           (Examples.world_of (λ _, Response 429 NotJson) Examples.no_reply)
           "a cat" clock0 3).
  intros k. reflexivity.
Defined.

(** X12.  With [retry_count] zero or negative both synchronous methods make no
    attempt at all: they return [None] at once, whatever the service would
    have answered. *)
Theorem no_attempt_without_retry_count w prompt c retry_count :
  retry_count ≤ 0 →
  (∀ row_num,
     Qwen.generate_image w prompt row_num retry_count c = (Ok None, c, []))
  ∧ (∀ row_num,
       Seedream.generate_image w prompt row_num retry_count c
       = (Ok None, c, [])).
Proof.
  intros H. unfold Qwen.generate_image, Seedream.generate_image, range.
  replace (Z.to_nat retry_count) with 0%nat by lia. done.
Qed.

Lemma no_attempt_without_retry_count_witness :
  Qwen.generate_image Examples.limited_twice "a cat" (Some 2) 0 clock0
  = (Ok None, clock0, []).
Proof.
  apply (no_attempt_without_retry_count Examples.limited_twice "a cat"
           clock0 0).
  lia.
Defined.

(** ** A path is returned exactly when its image was saved *)

Lemma saves_iff_returns_prefix row_num r t1 t2 :
  count is_save t1 = 0%nat →
  saves_iff_returns row_num r t2 →
  saves_iff_returns row_num r (t1 ++ t2).
Proof.
  intros H1. destruct r as [p|]; simpl.
  - intros (-> & t0 & -> & H0). split; [done|].
    exists (t1 ++ t0). rewrite app_assoc. split; [done|].
    rewrite count_app. lia.
  - intros H2. rewrite count_app. lia.
Qed.

Lemma saves_ok_bind {A B} (proj : B → option filepath) row_num
    (m : M A) (k : A → M B) :
  emits (λ e, is_save e = false) m →
  (∀ a c, saves_ok proj row_num (k a c)) →
  ∀ c, saves_ok proj row_num (bind m k c).
Proof.
  intros Hm Hk c. unfold bind. specialize (Hm c).
  destruct (m c) as [[[a|e] c1] t1]; simpl in Hm.
  - specialize (Hk a c1). destruct (k a c1) as [[r2 c2] t2].
    unfold saves_ok in *. simpl in *.
    destruct r2 as [b|e].
    + apply saves_iff_returns_prefix; [by apply count_none|done].
    + rewrite count_app, Hk, count_none; done.
  - unfold saves_ok. simpl. by apply count_none.
Qed.

Lemma saves_ok_ret {A} (proj : A → option filepath) row_num a c :
  proj a = None → saves_ok proj row_num (ret a c).
Proof. intros H. unfold saves_ok. simpl. by rewrite H. Qed.

Lemma saves_ok_try {A} (proj : A → option filepath) row_num
    (body : M A) handler c :
  saves_ok proj row_num (body c) →
  (∀ e c1, ∃ a, handler e c1 = (Ok a, c1, []) ∧ proj a = None) →
  saves_ok proj row_num (try_except body handler c).
Proof.
  intros Hb Hh. unfold try_except.
  destruct (body c) as [[[a|e] c1] t1]; [done|].
  destruct (Hh e c1) as (a & -> & Ha).
  unfold saves_ok in *. simpl in *. by rewrite Ha, app_nil_r.
Qed.

(** The end of every [generate_image]: open the image and save it under
    the row's name, or give up on this path. *)
Lemma saves_ok_pil {A} (proj : A → option filepath) row_num w data a a0 c :
  proj a = Some (RowPng row_num) →
  proj a0 = None →
  saves_ok proj row_num
    (try_except
       (bind (pil_save w data (RowPng row_num)) (λ _, ret a))
       (λ _, ret a0) c).
Proof.
  intros Ha Ha0. unfold try_except, bind, pil_save, saves_ok.
  destruct (image_ok w data); simpl.
  - rewrite Ha. simpl. split; [done|]. by exists [].
  - by rewrite Ha0.
Qed.

Lemma saves_ok_bind_after {A B} (projA : A → option filepath)
    (projB : B → option filepath) row_num (m : M A) (k : A → M B) c :
  saves_ok projA row_num (m c) →
  (∀ a c1,
     match projA a with
     | None => saves_ok projB row_num (k a c1)
     | Some p => ∃ b, k a c1 = (Ok b, c1, []) ∧ projB b = Some p
     end) →
  saves_ok projB row_num (bind m k c).
Proof.
  intros Hm Hk. unfold bind.
  destruct (m c) as [[[a|e] c1] t1]; [|done].
  specialize (Hk a c1). unfold saves_ok in Hm. simpl in Hm.
  destruct (projA a) as [p|].
  - destruct Hk as (b & -> & Hb). unfold saves_ok. simpl.
    by rewrite Hb, app_nil_r.
  - destruct (k a c1) as [[[b|e] c2] t2]; unfold saves_ok in *; simpl in *.
    + by apply saves_iff_returns_prefix.
    + rewrite count_app. lia.
Qed.

Lemma qwen_attempt_saves w prompt row_num attempt c :
  saves_ok returned row_num
    (try_except (Qwen.attempt_body w prompt row_num attempt) Qwen.handler c).
Proof.
  apply saves_ok_try; [|intros [] c1; by eexists].
  unfold Qwen.attempt_body.
  apply saves_ok_bind; [by apply emits_http_post|]. intros [s b] c1.
  destruct (s =? 200).
  - apply saves_ok_bind; [apply emits_response_json|]. intros result c2.
    apply saves_ok_bind; [by apply emits_dump_debug|]. intros _ c3.
    apply saves_ok_bind; [apply emits_lift|]. intros [d u] c4.
    apply saves_ok_bind; [unfold Qwen.download_image; emits_tac|].
    intros d' c5. unfold Qwen.save_image.
    destruct (bytes_truthy d'); [by apply saves_ok_pil|by apply saves_ok_ret].
  - destruct (s =? 429).
    { apply saves_ok_bind; [by apply emits_sleep|].
      intros. by apply saves_ok_ret. }
    destruct (s =? 401); [by apply saves_ok_ret|].
    destruct (s =? 400); by apply saves_ok_ret.
Qed.

Lemma seedream_attempt_saves w prompt row_num attempt c :
  saves_ok returned row_num
    (try_except (Seedream.attempt_body w prompt row_num attempt)
       Seedream.handler c).
Proof.
  apply saves_ok_try; [|intros [] c1; by eexists].
  unfold Seedream.attempt_body.
  apply saves_ok_bind; [by apply emits_http_post|]. intros [s b] c1.
  destruct (s =? 200).
  - apply saves_ok_bind; [apply emits_response_json|]. intros result c2.
    apply saves_ok_bind; [unfold Seedream.image_of; emits_tac|].
    intros d' c5. unfold Seedream.save_image.
    destruct (bytes_truthy d'); [by apply saves_ok_pil|by apply saves_ok_ret].
  - destruct (s =? 429); [|by apply saves_ok_ret].
    apply saves_ok_bind; [by apply emits_sleep|].
    intros. by apply saves_ok_ret.
Qed.

Lemma qwen_loop_saves w prompt row_num retry_count attempts :
  ∀ c, saves_ok id row_num
         (Qwen.retry_loop w prompt row_num retry_count attempts c).
Proof.
  induction attempts as [|attempt rest IH]; intros c; cbn [Qwen.retry_loop].
  - by apply saves_ok_ret.
  - eapply saves_ok_bind_after; [apply qwen_attempt_saves|].
    intros [p| | |] c1; simpl; [by eexists|done|by apply saves_ok_ret|].
    apply saves_ok_bind; [|done]. unfold Qwen.backoff. emits_tac.
Qed.

Lemma seedream_loop_saves w prompt row_num retry_count attempts :
  ∀ c, saves_ok id row_num
         (Seedream.retry_loop w prompt row_num retry_count attempts c).
Proof.
  induction attempts as [|attempt rest IH]; intros c;
    cbn [Seedream.retry_loop].
  - by apply saves_ok_ret.
  - eapply saves_ok_bind_after; [apply seedream_attempt_saves|].
    intros [p| | |] c1; simpl; [by eexists|done|by apply saves_ok_ret|].
    apply saves_ok_bind; [|done]. unfold Seedream.backoff. emits_tac.
Qed.

Lemma wan_generate_image_saves w prompt row_num c :
  saves_ok id row_num (Wan.generate_image w prompt (Some row_num) c).
Proof.
  unfold Wan.generate_image.
  apply saves_ok_bind; [unfold Wan.create_async_task; emits_tac|].
  intros task_id c1. destruct (negb _); [by apply saves_ok_ret|].
  apply saves_ok_bind; [by apply wan_poll_loop_events|].
  intros task_result c2. destruct (negb _); [by apply saves_ok_ret|].
  apply saves_ok_bind;
    [unfold Wan.extract_image_from_result, Wan.download_image; emits_tac|].
  intros image_data c3. destruct (negb _); [by apply saves_ok_ret|].
  by apply saves_ok_pil.
Qed.

Lemma saves_ok_returns {A} (proj : A → option filepath) row_num (m : M A) c :
  returns m →
  saves_ok proj row_num (m c) →
  ∃ a c' t, m c = (Ok a, c', t) ∧ saves_iff_returns row_num (proj a) t.
Proof.
  intros Hr Hs. destruct (Hr c) as (a & c' & t & E).
  rewrite E in Hs. by exists a, c', t.
Qed.

(** X13.  In the three scripts [generate_image], called for a row, returns the
    path [row_NNNN.png] of that row exactly when it has just saved that
    file, as its last effect; and it saves no other image: none at all when
    it returns [None], whatever was received and however many attempts were
    made. *)
Theorem path_returned_iff_image_saved w prompt row_num c :
  (∀ retry_count, ∃ r c' t,
     Qwen.generate_image w prompt (Some row_num) retry_count c = (Ok r, c', t)
     ∧ saves_iff_returns row_num r t)
  ∧ (∀ retry_count, ∃ r c' t,
       Seedream.generate_image w prompt row_num retry_count c = (Ok r, c', t)
       ∧ saves_iff_returns row_num r t)
  ∧ (∃ r c' t,
       Wan.generate_image w prompt (Some row_num) c = (Ok r, c', t)
       ∧ saves_iff_returns row_num r t).
Proof.
  split; [|split].
  - intros retry_count.
    apply (saves_ok_returns id);
      [apply qwen_generate_image_returns|apply qwen_loop_saves].
  - intros retry_count.
    apply (saves_ok_returns id);
      [apply seedream_generate_image_returns|apply seedream_loop_saves].
  - apply (saves_ok_returns id);
      [apply wan_generate_image_returns|apply wan_generate_image_saves].
Qed.

Lemma count_save_delay_trace delay texts :
  count is_save (delay_trace delay texts) = 0%nat.
Proof. unfold delay_trace. by destruct (_ && _). Qed.

Section BatchSaves.
Variable generate_image : str → Z → M (option filepath).
Hypothesis generate_image_returns :
  ∀ text row_num, returns (generate_image text row_num).
Hypothesis generate_image_saves :
  ∀ text row_num c, saves_ok id row_num (generate_image text row_num c).

Lemma outcomes_saves (d : list event) todo
    (outs : list (option filepath * list event)) :
  count is_save d = 0%nat →
  Forall2 (λ row out, ∃ c1 c2,
             generate_image row.2 row.1 c1 = (Ok out.1, c2, out.2))
    todo outs →
  let t := concat ((λ out, out.2 ++ d) <$> outs) in
  count is_save t = length (rows_where Py.is_some todo outs.*1)
  ∧ ∀ r, r ∈ rows_where Py.is_some todo outs.*1 → SaveImage (RowPng r) ∈ t.
Proof.
  intros Hd. induction 1 as [|row out todo outs (c1 & c2 & E) _ IH]; intros t.
  { split; [done|]. by intros r ?%elem_of_nil. }
  destruct IH as [IHc IHm]. unfold t.
  pose proof (generate_image_saves row.2 row.1 c1) as Hs.
  rewrite E in Hs. unfold saves_ok in Hs. simpl in Hs.
  rewrite !fmap_cons, rows_where_cons. cbn [concat].
  destruct out as [[p|] t1]; simpl in *.
  - destruct Hs as (-> & t0 & -> & H0). split.
    + rewrite !count_app, IHc, H0, Hd. done.
    + intros r [->|Hr]%elem_of_cons.
      * rewrite !elem_of_app. left. left. right. by left.
      * rewrite elem_of_app. right. by apply IHm.
  - split.
    + rewrite !count_app, IHc, Hs, Hd. done.
    + intros r Hr. rewrite elem_of_app. right. by apply IHm.
Qed.

Lemma batch_generate_saves texts delay c :
  ∃ success failed c' t,
    Batch.batch_generate generate_image texts delay c
    = (Ok (success, failed), c', t)
    ∧ count is_save t = length success
    ∧ ∀ r, r ∈ success → SaveImage (RowPng r) ∈ t.
Proof.
  unfold Batch.batch_generate.
  destruct (batch_loop_outcomes generate_image generate_image_returns
              delay texts texts [] [] c) as (c' & outs & HF & E).
  eexists _, _, _, _. split; [exact E|]. simpl.
  by apply outcomes_saves; [apply count_save_delay_trace|].
Qed.

End BatchSaves.

(** X14.  In each script a batch writes as many image files as it reports rows
    successful, and for every row number in [success_rows] the file of that
    row is among them. *)
Theorem saved_images_match_success_rows w batch_generate texts delay c :
  batch_generate ∈ batch_drivers w →
  ∃ success failed c' t,
    batch_generate texts delay c = (Ok (success, failed), c', t)
    ∧ count is_save t = length success
    ∧ ∀ r, r ∈ success → SaveImage (RowPng r) ∈ t.
Proof.
  unfold batch_drivers. rewrite !elem_of_cons, elem_of_nil.
  intros [->|[->|[->|[]]]]; apply batch_generate_saves; intros.
  - apply qwen_generate_image_returns.
  - apply qwen_loop_saves.
  - apply seedream_generate_image_returns.
  - apply seedream_loop_saves.
  - apply wan_generate_image_returns.
  - apply wan_generate_image_saves.
Qed.

Lemma saved_images_match_success_rows_witness :
  ∃ success failed c' t,
    Qwen.batch_generate Examples.limited_twice
      [(2, "a cat" : str); (3, "a dog" : str)] (2 # 1) clock0
    = (Ok (success, failed), c', t)
    ∧ count is_save t = length success.
Proof.
  destruct (saved_images_match_success_rows Examples.limited_twice
              (Qwen.batch_generate Examples.limited_twice)
              [(2, "a cat" : str); (3, "a dog" : str)] (2 # 1) clock0)
    as (success & failed & c' & t & E & Hc & _).
  - by left.
  - by exists success, failed, c', t.
Defined.

(** ** How many requests a call makes *)

Lemma posted_prompts_app t1 t2 :
  posted_prompts (t1 ++ t2) = posted_prompts t1 ++ posted_prompts t2.
Proof. unfold posted_prompts. apply omap_app. Qed.

Lemma posted_prompts_none t :
  Forall (λ e, is_post e = false) t → posted_prompts t = [].
Proof.
  induction 1 as [|e t He _ IH]; [done|].
  destruct e; try done; exact IH.
Qed.

Lemma length_posted_prompts t : length (posted_prompts t) = count is_post t.
Proof.
  induction t as [|e t IH]; [done|].
  destruct e; try exact IH. unfold posted_prompts, count in *. simpl.
  by f_equal.
Qed.

(** A pass that starts with the submission and then submits nothing
    more. *)
Lemma posted_after_post {A} w prompt (k : Z * body → M A) handler c :
  (∀ a, emits (λ e, is_post e = false) (k a)) →
  (∀ e, emits (λ e, is_post e = false) (handler e)) →
  posted_prompts (try_except (bind (http_post w prompt) k) handler c).2
  = [prompt].
Proof.
  intros Hk Hh. unfold try_except, bind, http_post.
  destruct (post_reply w (posts c) prompt) as [e|s b].
  - match goal with |- context [handler e ?c1] =>
      specialize (Hh e c1); destruct (handler e c1) as [[r2 c2] t2] end.
    cbn [snd] in *.
    by rewrite posted_prompts_app, (posted_prompts_none t2).
  - match goal with |- context [k ?a ?c1] =>
      specialize (Hk a c1); destruct (k a c1) as [[[x|e] c2] t2] end;
      cbn [snd] in *.
    + by rewrite posted_prompts_app, (posted_prompts_none t2).
    + match goal with |- context [handler e ?c1] =>
        specialize (Hh e c1); destruct (handler e c1) as [[r3 c3] t3] end.
      cbn [snd] in *.
      by rewrite !posted_prompts_app, (posted_prompts_none t2),
        (posted_prompts_none t3).
Qed.

Lemma qwen_attempt_posts w prompt row_num attempt c :
  posted_prompts
    (try_except (Qwen.attempt_body w prompt row_num attempt) Qwen.handler c).2
  = [prompt].
Proof.
  unfold Qwen.attempt_body. apply posted_after_post.
  - intros [s b]. unfold Qwen.download_image, Qwen.save_image. emits_tac.
  - intros []; apply emits_ret.
Qed.

Lemma seedream_attempt_posts w prompt row_num attempt c :
  posted_prompts
    (try_except (Seedream.attempt_body w prompt row_num attempt)
       Seedream.handler c).2
  = [prompt].
Proof.
  unfold Seedream.attempt_body. apply posted_after_post.
  - intros [s b]. unfold Seedream.image_of, Seedream.save_image. emits_tac.
  - intros []; apply emits_ret.
Qed.

Lemma posted_bind {A B} (m : M A) (k : A → M B) c :
  posted_prompts (bind m k c).2
  = posted_prompts (m c).2
    ++ match m c with
       | (Ok a, c1, _) => posted_prompts (k a c1).2
       | _ => []
       end.
Proof.
  unfold bind. destruct (m c) as [[[a|e] c1] t1]; simpl.
  - destruct (k a c1) as [[r2 c2] t2]. simpl. apply posted_prompts_app.
  - by rewrite app_nil_r.
Qed.

Lemma qwen_loop_posts w prompt row_num retry_count attempts :
  ∀ c, ∃ n,
    posted_prompts (Qwen.retry_loop w prompt row_num retry_count attempts c).2
    = replicate n prompt
    ∧ (n ≤ length attempts)%nat
    ∧ (attempts ≠ [] → (1 ≤ n)%nat).
Proof.
  induction attempts as [|attempt rest IH]; intros c; cbn [Qwen.retry_loop].
  - by exists 0%nat.
  - rewrite posted_bind, qwen_attempt_posts.
    destruct (try_except _ _ c) as [[[[p| | |]|e] c1] t1].
    + exists 1%nat. simpl. split; [done|]. split; [lia|done].
    + destruct (IH c1) as (n & -> & Hn & _). exists (S n). simpl.
      split; [done|]. split; [lia|]. intros _. lia.
    + exists 1%nat. simpl. split; [done|]. split; [lia|done].
    + rewrite posted_bind.
      replace (posted_prompts (Qwen.backoff attempt retry_count c1).2)
        with (@nil str)
        by (unfold Qwen.backoff; by destruct (_ <? _)).
      replace (Qwen.backoff attempt retry_count c1)
        with (Ok tt, c1, backoff_trace attempt retry_count)
        by (unfold Qwen.backoff, backoff_trace; by destruct (_ <? _)).
      destruct (IH c1) as (n & -> & Hn & _). exists (S n). simpl.
      split; [done|]. split; [lia|]. intros _. lia.
    + exists 1%nat. simpl. split; [done|]. split; [lia|done].
Qed.

Lemma seedream_loop_posts w prompt row_num retry_count attempts :
  ∀ c, ∃ n,
    posted_prompts
      (Seedream.retry_loop w prompt row_num retry_count attempts c).2
    = replicate n prompt
    ∧ (n ≤ length attempts)%nat
    ∧ (attempts ≠ [] → (1 ≤ n)%nat).
Proof.
  induction attempts as [|attempt rest IH]; intros c;
    cbn [Seedream.retry_loop].
  - by exists 0%nat.
  - rewrite posted_bind, seedream_attempt_posts.
    destruct (try_except _ _ c) as [[[[p| | |]|e] c1] t1].
    + exists 1%nat. simpl. split; [done|]. split; [lia|done].
    + destruct (IH c1) as (n & -> & Hn & _). exists (S n). simpl.
      split; [done|]. split; [lia|]. intros _. lia.
    + exists 1%nat. simpl. split; [done|]. split; [lia|done].
    + rewrite posted_bind.
      replace (posted_prompts (Seedream.backoff attempt retry_count c1).2)
        with (@nil str)
        by (unfold Seedream.backoff; by destruct (_ <? _)).
      replace (Seedream.backoff attempt retry_count c1)
        with (Ok tt, c1, backoff_trace attempt retry_count)
        by (unfold Seedream.backoff, backoff_trace; by destruct (_ <? _)).
      destruct (IH c1) as (n & -> & Hn & _). exists (S n). simpl.
      split; [done|]. split; [lia|]. intros _. lia.
    + exists 1%nat. simpl. split; [done|]. split; [lia|done].
Qed.

Lemma qwen_generate_image_posts w prompt row_num retry_count c :
  ∃ n,
    posted_prompts (Qwen.generate_image w prompt row_num retry_count c).2
    = replicate n prompt
    ∧ (n ≤ Z.to_nat retry_count)%nat
    ∧ (0 < retry_count → (1 ≤ n)%nat).
Proof.
  unfold Qwen.generate_image.
  destruct (qwen_loop_posts w prompt
              (match row_num with Some r => r | None => time_now w end)
              retry_count (range retry_count) c) as (n & E & Hn & H1).
  exists n. split; [done|]. rewrite length_range in Hn. split; [done|].
  intros Hpos. apply H1. by destruct (range_cons _ Hpos) as [rest ->].
Qed.

Lemma seedream_generate_image_posts w prompt row_num retry_count c :
  ∃ n,
    posted_prompts (Seedream.generate_image w prompt row_num retry_count c).2
    = replicate n prompt
    ∧ (n ≤ Z.to_nat retry_count)%nat
    ∧ (0 < retry_count → (1 ≤ n)%nat).
Proof.
  unfold Seedream.generate_image.
  destruct (seedream_loop_posts w prompt row_num retry_count
              (range retry_count) c) as (n & E & Hn & H1).
  exists n. split; [done|]. rewrite length_range in Hn. split; [done|].
  intros Hpos. apply H1. by destruct (range_cons _ Hpos) as [rest ->].
Qed.

(** X15.  Whatever the service answers, one call of a synchronous
    [generate_image] submits its own prompt and nothing else, at least once
    when [retry_count] is positive and never more than [retry_count]
    times. *)
Theorem submissions_bounded_by_retry_count w prompt c retry_count :
  (∀ row_num, ∃ n,
     posted_prompts (Qwen.generate_image w prompt row_num retry_count c).2
     = replicate n prompt
     ∧ (n ≤ Z.to_nat retry_count)%nat
     ∧ (0 < retry_count → (1 ≤ n)%nat))
  ∧ (∀ row_num, ∃ n,
       posted_prompts
         (Seedream.generate_image w prompt row_num retry_count c).2
       = replicate n prompt
       ∧ (n ≤ Z.to_nat retry_count)%nat
       ∧ (0 < retry_count → (1 ≤ n)%nat)).
Proof.
  split; intros row_num.
  - apply qwen_generate_image_posts.
  - apply seedream_generate_image_posts.
Qed.

Lemma submissions_bounded_by_retry_count_witness :
  ∃ n,
    posted_prompts
      (Qwen.generate_image Examples.limited_twice "a cat" (Some 2) 3 clock0).2
    = replicate n ("a cat" : str)
    ∧ (1 ≤ n ≤ 3)%nat.
Proof.
  destruct (proj1 (submissions_bounded_by_retry_count Examples.limited_twice
                     "a cat" clock0 3) (Some 2)) as (n & E & Hn & H1).
  exists n. split; [done|]. split; [apply H1; lia|]. exact Hn.
Defined.

(** ** The asynchronous adapter: submission, exhaustion, extraction *)

(** [create_async_task] for every reply to the submission: the task id of
    a 200 document that has one under [output], and [None] in every other
    case; an exception raised on the way is caught. *)
Lemma wan_create_run w prompt c :
  Wan.create_async_task w prompt c
  = (Ok (task_id_of (post_reply w (posts c) prompt)), after_posts 1 c,
     [HttpPost prompt]).
Proof.
  unfold Wan.create_async_task, try_except, bind, http_post, task_id_of.
  destruct (post_reply w (posts c) prompt) as [e|s [|result]]; [done| |].
  - by destruct (s =? 200).
  - destruct (s =? 200); [|done].
    destruct result as [| | |x|l|m]; try done; simpl.
    + by destruct (Py.is_substring "output" x).
    + by destruct (existsb (Py.str_eq "output") l).
    + destruct (m !! "output") as [[| | |x|l|o]|]; try done; simpl.
      * by destruct (Py.is_substring "task_id" x).
      * by destruct (existsb (Py.str_eq "task_id") l).
      * by destruct (o !! "task_id").
Qed.

(** X16.  The asynchronous [generate_image] polls only for a task id it got.
    When the submission fails, is refused, is answered by something that is
    not JSON or carries no id under [output.task_id], or the id is empty,
    it returns [None] after that one request. *)
Theorem no_task_id_no_polling w prompt row_num c :
  Py.truthy (task_id_of (post_reply w (posts c) prompt)) = false →
  Wan.generate_image w prompt row_num c
  = (Ok None, after_posts 1 c, [HttpPost prompt]).
Proof.
  intros H. unfold Wan.generate_image.
  erewrite bind_ok by apply wan_create_run. by rewrite H.
Qed.

Lemma no_task_id_no_polling_witness :
  Wan.generate_image
    (Examples.world_of
       (λ _, Response 200 (Json (JDict {[ "output" := JDict ∅ ]})))
       Examples.no_reply)
    "a cat" (Some 2) clock0
  = (Ok None, after_posts 1 clock0, [HttpPost "a cat"]).
Proof.
  apply no_task_id_no_polling. by vm_compute.
Defined.

(** A poll whose reply does not end the polling: one query, then one
    wait. *)
Lemma wan_poll_nonterminal w task_id attempt retry_interval c :
  terminal (query_reply w (queries c) task_id) = false →
  ∃ c1 t1,
    try_except (Wan.poll_body w task_id attempt retry_interval)
      (Wan.poll_handler retry_interval) c
    = (Ok Next, c1, t1)
    ∧ queries c1 = S (queries c)
    ∧ count is_query t1 = 1%nat
    ∧ sleeps t1 = [Sleep PollInterval retry_interval].
Proof.
  unfold terminal, try_except, Wan.poll_body, Wan.poll_handler, bind,
    task_query, dump_debug.
  destruct (query_reply w (queries c) task_id) as [e|s [|result]].
  - intros _. by eexists _, _.
  - intros _. destruct (s =? 200); by eexists _, _.
  - destruct (s =? 200); [|intros _; by eexists _, _].
    simpl. destruct (dump_ok w (dumps c)); [|intros _; by eexists _, _].
    destruct result as [| | |x|l|m]; simpl; try (intros _; by eexists _, _).
    + intros _. destruct (Py.is_substring "output" x); by eexists _, _.
    + intros _. destruct (existsb (Py.str_eq "output") l); by eexists _, _.
    + destruct (m !! "output") as [[| | |x|l|o]|]; simpl;
        try (intros _; by eexists _, _).
      destruct (o !! "task_status") as [[| | |st| |]|]; simpl;
        try (intros _; by eexists _, _).
      intros [H1 H2]%orb_false_iff. rewrite H1, H2.
      destruct (st =? "RUNNING")%string; by eexists _, _.
Qed.

Lemma wan_loop_exhausted w task_id retry_interval attempts :
  (∀ k, terminal (query_reply w k task_id) = false) →
  ∀ c, ∃ c' t,
    Wan.poll_loop w task_id retry_interval attempts c = (Ok JNull, c', t)
    ∧ count is_query t = length attempts
    ∧ sleeps t = replicate (length attempts) (Sleep PollInterval retry_interval)
    ∧ count is_extract t = 0%nat.
Proof.
  intros H. induction attempts as [|attempt rest IH]; intros c.
  - by exists c, [].
  - destruct (wan_poll_nonterminal w task_id attempt retry_interval c (H _))
      as (c1 & t1 & E & _ & Hq & Hs).
    destruct (IH c1) as (c' & t & E' & Hq' & Hs' & He').
    erewrite wan_loop_next by exact E. rewrite E'.
    exists c', (t1 ++ t). split; [done|].
    split; [rewrite count_app; simpl; lia|].
    split.
    + unfold sleeps in *. rewrite List.filter_app, Hs, Hs'. done.
    + rewrite count_app, He'.
      pose proof (wan_poll_loop_events (λ e, is_extract e = false) w task_id
                    retry_interval [attempt] eq_refl (λ _, eq_refl)
                    (λ _, eq_refl) eq_refl c) as Hp.
      cbn [Wan.poll_loop] in Hp. unfold bind at 1 in Hp. rewrite E in Hp.
      simpl in Hp. rewrite app_nil_r in Hp. by rewrite (count_none _ t1).
Qed.

(** X17.  A task that never reaches SUCCEEDED or FAILED in the eyes of the
    script (it stays PENDING or RUNNING, the status query fails, is refused
    or cannot be read) is given up: [get_task_result] makes exactly
    [max_retries] queries, waits [retry_interval] after each of them, the
    last one included, and returns [None]; [generate_image] then returns
    [None] without entering the extraction. *)
Theorem polling_gives_up_after_max_retries w prompt row_num task_id c
    max_retries retry_interval :
  (∀ k, terminal (query_reply w k task_id) = false) →
  (∃ c' t,
     Wan.get_task_result w task_id max_retries retry_interval c
     = (Ok JNull, c', t)
     ∧ count is_query t = Z.to_nat max_retries
     ∧ sleeps t
       = replicate (Z.to_nat max_retries) (Sleep PollInterval retry_interval))
  ∧ (task_id_of (post_reply w (posts c) prompt) = task_id →
     Py.truthy task_id = true →
     ∃ c' t,
       Wan.generate_image w prompt row_num c = (Ok None, c', t)
       ∧ count is_query t = 30%nat
       ∧ count is_extract t = 0%nat).
Proof.
  intros H. split.
  - unfold Wan.get_task_result.
    destruct (wan_loop_exhausted w task_id retry_interval (range max_retries)
                H c) as (c' & t & E & Hq & Hs & _).
    rewrite length_range in Hq, Hs. by exists c', t.
  - intros Hid Ht. unfold Wan.generate_image.
    erewrite bind_ok by apply wan_create_run. rewrite Hid, Ht. cbn [negb].
    unfold Wan.get_task_result.
    destruct (wan_loop_exhausted w task_id (inject_Z 30) (range 30) H
                (after_posts 1 c)) as (c' & t & E & Hq & _ & He).
    erewrite bind_ok by exact E. cbn [Py.truthy negb ret].
    eexists _, _. split; [reflexivity|].
    rewrite app_nil_r.
    change (HttpPost prompt :: t) with ([HttpPost prompt] ++ t).
    rewrite !count_app, Hq, He. done.
Qed.

Lemma polling_gives_up_after_max_retries_witness :
  ∃ c' t,
    Wan.get_task_result
      (Examples.world_of (λ _, Response 200 (Json Examples.task_created))
         (λ _, Response 200 (Json Examples.task_running)))
      (JStr "task-1") 3 (inject_Z 30) clock0
    = (Ok JNull, c', t)
    ∧ count is_query t = 3%nat
    ∧ sleeps t = replicate 3 (Sleep PollInterval (inject_Z 30)).
Proof.
  apply (polling_gives_up_after_max_retries
           (Examples.world_of (λ _, Response 200 (Json Examples.task_created))
              (λ _, Response 200 (Json Examples.task_running)))
           "a cat" (Some 2) (JStr "task-1") clock0 3 (inject_Z 30)).
  intros k. by vm_compute.
Defined.

Lemma at_most_emits {A} kind (m : M A) :
  emits (λ e, kind e = false) m → at_most kind 0 m.
Proof. intros H c. by rewrite count_none. Qed.

Lemma at_most_weaken {A} kind n n' (m : M A) :
  (n ≤ n')%nat → at_most kind n m → at_most kind n' m.
Proof. intros Hn H c. specialize (H c). lia. Qed.

Lemma at_most_bind {A B} kind n1 n2 (m : M A) (k : A → M B) :
  at_most kind n1 m → (∀ a, at_most kind n2 (k a)) →
  at_most kind (n1 + n2) (bind m k).
Proof.
  intros Hm Hk c. unfold bind. specialize (Hm c).
  destruct (m c) as [[[a|e] c1] t1]; simpl in *; [|lia].
  specialize (Hk a c1). destruct (k a c1) as [[r2 c2] t2]; simpl in *.
  rewrite count_app. lia.
Qed.

Lemma at_most_try {A} kind n1 n2 (body : M A) handler :
  at_most kind n1 body → (∀ e, at_most kind n2 (handler e)) →
  at_most kind (n1 + n2) (try_except body handler).
Proof.
  intros Hb Hh c. unfold try_except. specialize (Hb c).
  destruct (body c) as [[[a|e] c1] t1]; simpl in *; [lia|].
  specialize (Hh e c1). destruct (handler e c1) as [[r2 c2] t2]; simpl in *.
  rewrite count_app. lia.
Qed.

Lemma at_most_task_query w task_id : at_most is_query 1 (task_query w task_id).
Proof.
  intros c. unfold task_query. by destruct (query_reply _ _ _).
Qed.

Lemma wan_poll_loop_queries w task_id retry_interval attempts :
  at_most is_query (length attempts)
    (Wan.poll_loop w task_id retry_interval attempts).
Proof.
  induction attempts as [|attempt rest IH]; cbn [Wan.poll_loop].
  - by apply at_most_emits, emits_ret.
  - change (length (attempt :: rest)) with (1 + 0 + 0 + length rest)%nat.
    apply at_most_bind.
    + apply at_most_try.
      * unfold Wan.poll_body. apply at_most_bind;
          [apply at_most_task_query|].
        intros [s b]. apply at_most_emits. emits_tac.
      * intros e. apply at_most_emits. unfold Wan.poll_handler. emits_tac.
    + intros [r| | |]; try done;
        apply (at_most_weaken _ 0); try lia; by apply at_most_emits, emits_ret.
Qed.

Lemma wan_generate_image_posts w prompt row_num c :
  posted_prompts (Wan.generate_image w prompt row_num c).2 = [prompt].
Proof.
  unfold Wan.generate_image. rewrite posted_bind.
  unfold Wan.create_async_task at 1.
  rewrite posted_after_post; [|intros [s b]; emits_tac|intros; emits_tac].
  rewrite wan_create_run.
  match goal with |- context [posted_prompts (?m ?c1).2] =>
    assert (Hq : emits (λ e, is_post e = false) m) end.
  { destruct (negb _); [apply emits_ret|].
    apply emits_bind; [by apply wan_poll_loop_events|].
    intros task_result. destruct (negb _); [apply emits_ret|].
    unfold Wan.extract_image_from_result, Wan.download_image. emits_tac. }
  by rewrite (posted_prompts_none _ (Hq _)).
Qed.

(** X18.  Whatever the service answers, one call of the asynchronous
    [generate_image] submits its prompt exactly once, there is no second
    submission, and queries the task status at most 30 times. *)
Theorem async_call_is_bounded w prompt row_num c :
  posted_prompts (Wan.generate_image w prompt row_num c).2 = [prompt]
  ∧ (count is_query (Wan.generate_image w prompt row_num c).2 ≤ 30)%nat.
Proof.
  split; [apply wan_generate_image_posts|].
  revert c. change (at_most is_query (0 + (30 + 0))
                      (Wan.generate_image w prompt row_num)).
  unfold Wan.generate_image. apply at_most_bind.
  { apply at_most_emits. unfold Wan.create_async_task. emits_tac. }
  intros task_id.
  destruct (negb _);
    [apply (at_most_weaken _ 0); [lia|]; by apply at_most_emits, emits_ret|].
  apply at_most_bind; [apply (wan_poll_loop_queries _ _ _ (range 30))|].
  intros task_result. apply at_most_emits.
  destruct (negb _); [apply emits_ret|].
  unfold Wan.extract_image_from_result, Wan.download_image. emits_tac.
Qed.

(** X19.  [extract_image_from_result] on a status document whose first result
    carries a non-empty [url]: the image is fetched from there and nothing
    is decoded, whatever else the entry holds.  Only the bytes of a 200
    answer are returned; a refused or failed download leaves [None], with no
    fallback to an [image] field. *)
Theorem extraction_prefers_url w result first u c :
  first_result result = Some first →
  first !! "url" = Some (JStr u) →
  u ≠ "" →
  Wan.extract_image_from_result w result c
  = (Ok match get_reply w (gets c) (JStr u) with
        | Downloaded status_code content =>
            if status_code =? 200 then Some content else None
        | DownloadFails _ => None
        end,
     after_get c, [CallExtract; HttpGet (JStr u)]).
Proof.
  unfold first_result. intros Hf Hu Hne.
  destruct result as [| | | | |m]; try done.
  destruct (m !! "output") as [[| | | | |output]|] eqn:H1; try done.
  destruct (output !! "results") as [[| | | |[|[| | | | |first'] ?]|]|]
    eqn:H2; try done.
  injection Hf as ->. apply String.eqb_neq in Hne.
  unfold Wan.extract_image_from_result, Wan.find_image, Wan.download_image,
    bind, try_except, lift, emit, http_get, after_get.
  repeat (progress (simpl; rewrite ?H1, ?H2, ?Hu, ?Hne)).
  destruct (get_reply w (gets c) (JStr u)) as [e|s content]; [done|].
  by destruct (s =? 200).
Qed.

Lemma extraction_prefers_url_witness :
  Wan.extract_image_from_result Examples.slow_task Examples.task_succeeded
    clock0
  = (Ok (Some Examples.png), after_get clock0,
     [CallExtract; HttpGet (JStr "http://oss/1.png")]).
Proof.
  refine (extraction_prefers_url Examples.slow_task Examples.task_succeeded
            {[ "url" := JStr "http://oss/1.png" ]} "http://oss/1.png" clock0
            _ _ _).
  - reflexivity.
  - reflexivity.
  - discriminate.
Defined.

(** ** Batch driver: the order of the submissions *)

Lemma posted_prompts_delay_trace delay texts :
  posted_prompts (delay_trace delay texts) = [].
Proof. unfold delay_trace. by destruct (_ && _). Qed.

Section BatchOrder.
Variable generate_image : str → Z → M (option filepath).
Variables lo hi : nat.
Hypothesis generate_image_returns :
  ∀ text row_num, returns (generate_image text row_num).
Hypothesis generate_image_posts :
  ∀ text row_num c, ∃ n,
    posted_prompts (generate_image text row_num c).2 = replicate n text
    ∧ (lo ≤ n ≤ hi)%nat.

Lemma outcomes_posts (d : list event) todo
    (outs : list (option filepath * list event)) :
  posted_prompts d = [] →
  Forall2 (λ row out, ∃ c1 c2,
             generate_image row.2 row.1 c1 = (Ok out.1, c2, out.2))
    todo outs →
  ∃ ns,
    length ns = length todo
    ∧ Forall (λ n, lo ≤ n ≤ hi)%nat ns
    ∧ posted_prompts (concat ((λ out, out.2 ++ d) <$> outs))
      = concat (zip_with replicate ns todo.*2).
Proof.
  intros Hd. induction 1 as [|row out todo outs (c1 & c2 & E) _ IH].
  - by exists [].
  - destruct IH as (ns & Hl & Hf & Hp).
    destruct (generate_image_posts row.2 row.1 c1) as (n & Hn & Hb).
    rewrite E in Hn. simpl in Hn.
    exists (n :: ns). split; [simpl; lia|]. split; [by constructor|].
    rewrite !fmap_cons. cbn [concat zip_with].
    by rewrite !posted_prompts_app, Hn, Hd, Hp, app_nil_r.
Qed.

Lemma batch_generate_posts texts delay c :
  ∃ r c' t ns,
    Batch.batch_generate generate_image texts delay c = (Ok r, c', t)
    ∧ length ns = length texts
    ∧ Forall (λ n, lo ≤ n ≤ hi)%nat ns
    ∧ posted_prompts t = concat (zip_with replicate ns texts.*2).
Proof.
  unfold Batch.batch_generate.
  destruct (batch_loop_outcomes generate_image generate_image_returns
              delay texts texts [] [] c) as (c' & outs & HF & E).
  destruct (outcomes_posts (delay_trace delay texts) texts outs
              (posted_prompts_delay_trace _ _) HF) as (ns & Hl & Hf & Hp).
  eexists _, _, _, ns. by split; [exact E|].
Qed.

End BatchOrder.

(** X20.  In the two synchronous scripts a batch submits the prompts row after
    row in the order of the input: the submissions of a row, between one and
    three of them, all come before those of the next row, and no row is left
    out. *)
Theorem sync_batch_submits_rows_in_order w texts delay c :
  (∃ r c' t ns,
     Qwen.batch_generate w texts delay c = (Ok r, c', t)
     ∧ length ns = length texts
     ∧ Forall (λ n, 1 ≤ n ≤ 3)%nat ns
     ∧ posted_prompts t = concat (zip_with replicate ns texts.*2))
  ∧ (∃ r c' t ns,
       Seedream.batch_generate w texts delay c = (Ok r, c', t)
       ∧ length ns = length texts
       ∧ Forall (λ n, 1 ≤ n ≤ 3)%nat ns
       ∧ posted_prompts t = concat (zip_with replicate ns texts.*2)).
Proof.
  split.
  - apply batch_generate_posts; intros.
    + apply qwen_generate_image_returns.
    + destruct (qwen_generate_image_posts w text (Some row_num) 3 c0)
        as (n & E & Hn & H1).
      exists n. split; [done|]. split; [apply H1; lia|exact Hn].
  - apply batch_generate_posts; intros.
    + apply seedream_generate_image_returns.
    + destruct (seedream_generate_image_posts w text row_num 3 c0)
        as (n & E & Hn & H1).
      exists n. split; [done|]. split; [apply H1; lia|exact Hn].
Qed.

Lemma zip_with_replicate_once (texts : list str) :
  ∀ ns, length ns = length texts → Forall (λ n, 1 ≤ n ≤ 1)%nat ns →
  concat (zip_with replicate ns texts) = texts.
Proof.
  induction texts as [|text texts IH]; intros [|n ns] Hl Hf; try done.
  apply Forall_cons in Hf as [Hn Hf]. assert (n = 1%nat) as -> by lia.
  simpl. f_equal. apply IH; [simpl in Hl; lia|done].
Qed.

(** X21.  In the asynchronous script a batch submits every prompt exactly once,
    in the order of the input. *)
Theorem async_batch_submits_each_row_once w texts delay c :
  ∃ r c' t,
    Wan.batch_generate w texts delay c = (Ok r, c', t)
    ∧ posted_prompts t = texts.*2.
Proof.
  destruct (batch_generate_posts
              (λ text row_num, Wan.generate_image w text (Some row_num)) 1 1
              (λ _ _, wan_generate_image_returns _ _ _)
              (λ text row_num c0,
                 ex_intro _ 1%nat
                   (conj (wan_generate_image_posts w text (Some row_num) c0)
                      (conj (le_n 1) (le_n 1))))
              texts delay c) as (r & c' & t & ns & E & Hl & Hf & Hp).
  exists r, c', t. split; [exact E|].
  rewrite Hp. apply zip_with_replicate_once; [by rewrite length_fmap|done].
Qed.

(** ** The synchronous adapters: where the image comes from *)

(** X22.  In the qwen script an answer that carries the image inline and an
    answer that carries a URL under which the same bytes are served end the
    attempt in the same way: the same file is saved and returned, or the
    attempt fails alike; the effects differ by the one download. *)
Theorem inline_and_url_answers_agree w prompt row_num attempt c inline linked
    u data :
  Qwen.parse_response w inline = Ok (Some data, JNull) →
  Qwen.parse_response w linked = Ok (None, JStr u) →
  u ≠ "" →
  get_reply w (gets c) (JStr u) = Downloaded 200 data →
  dump_ok w (dumps c) = true →
  ∃ r c1 c2 t,
    Qwen.attempt_body (with_post w (λ _ _, Response 200 (Json inline)))
      prompt row_num attempt c
    = (r, c1, [HttpPost prompt; WriteDebug (DebugResponse row_num)] ++ t)
    ∧ Qwen.attempt_body (with_post w (λ _ _, Response 200 (Json linked)))
        prompt row_num attempt c
      = (r, c2, [HttpPost prompt; WriteDebug (DebugResponse row_num);
                 HttpGet (JStr u)] ++ t)
    ∧ t = (if bytes_truthy (Some data) && image_ok w data
           then [SaveImage (RowPng row_num)] else []).
Proof.
  intros Hi Hl Hu Hget Hdump.
  rewrite (qwen_attempt_inline _ prompt row_num attempt c inline data);
    [|done|done|done].
  rewrite (qwen_attempt_fetches _ prompt row_num attempt c linked None u data);
    [|done|done|done|done|done].
  rewrite !qwen_save_image_run. simpl.
  change (match data with [] => false | _ => true end)
    with (bytes_truthy (Some data)).
  destruct (bytes_truthy (Some data) && image_ok w data);
    eexists _, _, _, _; (split; [reflexivity|split; reflexivity]).
Qed.

Lemma inline_and_url_answers_agree_witness :
  ∃ r c1 c2 t,
    Qwen.attempt_body
      (with_post Examples.always_401
         (λ _ _, Response 200 (Json Examples.inline_image)))
      "a cat" 2 0 clock0
    = (r, c1, [HttpPost "a cat"; WriteDebug (DebugResponse 2)] ++ t)
    ∧ Qwen.attempt_body
        (with_post Examples.always_401
           (λ _ _, Response 200 (Json Examples.nested_url)))
        "a cat" 2 0 clock0
      = (r, c2, [HttpPost "a cat"; WriteDebug (DebugResponse 2);
                 HttpGet (JStr "http://oss/1.png")] ++ t)
    ∧ t = [SaveImage (RowPng 2)].
Proof.
  apply (inline_and_url_answers_agree Examples.always_401 "a cat" 2 0 clock0
           Examples.inline_image Examples.nested_url "http://oss/1.png"
           Examples.png).
  - reflexivity.
  - reflexivity.
  - discriminate.
  - reflexivity.
  - reflexivity.
Defined.

Lemma qwen_attempt_decoded_and_requested w prompt row_num attempt c result u :
  post_reply w (posts c) prompt = Response 200 (Json result) →
  dump_ok w (dumps c) = true →
  Qwen.parse_response w result = Ok (b64decode w (JStr u), JStr u) →
  u ≠ "" →
  Qwen.attempt_body w prompt row_num attempt c
  = (let image_data :=
       match get_reply w (gets c) (JStr u) with
       | Downloaded status_code content =>
           if status_code =? 200 then Some content
           else b64decode w (JStr u)
       | DownloadFails _ => b64decode w (JStr u)
       end in
     let '(r, c', t) := Qwen.save_image w row_num image_data (after_fetch c) in
     (r, c', [HttpPost prompt; WriteDebug (DebugResponse row_num);
              HttpGet (JStr u)] ++ t)).
Proof.
  intros Hpost Hdump Hparse Hu.
  unfold Qwen.attempt_body, Qwen.download_image, bind, try_except, http_post,
    dump_debug, http_get, lift.
  rewrite Hpost. simpl. rewrite Hdump, Hparse. simpl.
  apply String.eqb_neq in Hu. rewrite Hu. simpl. unfold after_fetch.
  destruct (get_reply w (gets c) (JStr u)) as [e|s content]; simpl.
  - by destruct (Qwen.save_image w row_num _ _) as [[r c'] t].
  - destruct (s =? 200); simpl;
      by destruct (Qwen.save_image w row_num _ _) as [[r c'] t].
Qed.

(** X23.  In the qwen script, a value under
    output.choices[0].message.content[0].image that does not start with
    "http" is decoded as base64, and, being a non-empty string, it is
    requested as a URL as well.  When that request is answered by 200 its
    bytes take the place of the decoded image; otherwise the decoded image
    is the one that goes on to be saved. *)
Theorem nested_base64_is_also_requested w prompt row_num attempt c result u :
  post_reply w (posts c) prompt = Response 200 (Json result) →
  dump_ok w (dumps c) = true →
  has_truthy "images" result = false →
  output_image result = Some (JStr u) →
  String.prefix "http" u = false →
  u ≠ "" →
  Qwen.attempt_body w prompt row_num attempt c
  = (let image_data :=
       match get_reply w (gets c) (JStr u) with
       | Downloaded status_code content =>
           if status_code =? 200 then Some content
           else b64decode w (JStr u)
       | DownloadFails _ => b64decode w (JStr u)
       end in
     let '(r, c', t) := Qwen.save_image w row_num image_data (after_fetch c) in
     (r, c', [HttpPost prompt; WriteDebug (DebugResponse row_num);
              HttpGet (JStr u)] ++ t)).
Proof.
  intros Hpost Hdump Hi Ho Hp Hu.
  apply (qwen_attempt_decoded_and_requested w prompt row_num attempt c result
           u); try done.
  rewrite qwen_parse_response_order, Hi, (output_image_dict_has _ _ Ho).
  rewrite (qwen_shape_output w result u Ho). by rewrite Hp.
Qed.

Lemma nested_base64_is_also_requested_witness :
  Qwen.attempt_body
    (with_post Examples.always_401 (λ _ _, Response 200 (Json nested_base64)))
    "a cat" 2 0 clock0
  = (Ok (Return (RowPng 2)), after_fetch clock0,
     [HttpPost "a cat"; WriteDebug (DebugResponse 2);
      HttpGet (JStr Examples.png_base64); SaveImage (RowPng 2)]).
Proof.
  rewrite (nested_base64_is_also_requested _ "a cat" 2 0 clock0 nested_base64
             Examples.png_base64).
  - reflexivity.
  - reflexivity.
  - reflexivity.
  - reflexivity.
  - reflexivity.
  - reflexivity.
  - discriminate.
Defined.

(** ** Payloads that are not images *)

Lemma sublist_full {A} (l1 l2 : list A) :
  l1 `sublist_of` l2 → (length l2 ≤ length l1)%nat → l1 = l2.
Proof.
  induction 1 as [|x l1 l2 _ IH|x l1 l2 Hs _]; simpl; intros Hlen.
  - done.
  - f_equal. apply IH. lia.
  - apply sublist_length in Hs. lia.
Qed.

Section Rejected.
Variable w : world.
Hypothesis image_rejected : ∀ data, image_ok w data = false.

Lemma emits_pil_rejected P data p : emits P (pil_save w data p).
Proof. unfold pil_save. rewrite image_rejected. apply emits_raise. Qed.

Lemma qwen_rejected_saves_nothing prompt row_num retry_count :
  emits (λ e, is_save e = false)
    (Qwen.generate_image w prompt row_num retry_count).
Proof.
  unfold Qwen.generate_image.
  generalize (match row_num with Some r => r | None => time_now w end).
  intros r. induction (range retry_count) as [|attempt rest IH];
    cbn [Qwen.retry_loop]; [apply emits_ret|].
  apply emits_bind.
  - unfold Qwen.attempt_body, Qwen.handler, Qwen.download_image,
      Qwen.save_image.
    emits_tac; apply emits_pil_rejected.
  - intros [p| | |]; try apply emits_ret; [done|].
    apply emits_bind; [|done]. unfold Qwen.backoff. emits_tac.
Qed.

Lemma seedream_rejected_saves_nothing prompt row_num retry_count :
  emits (λ e, is_save e = false)
    (Seedream.generate_image w prompt row_num retry_count).
Proof.
  unfold Seedream.generate_image.
  induction (range retry_count) as [|attempt rest IH];
    cbn [Seedream.retry_loop]; [apply emits_ret|].
  apply emits_bind.
  - unfold Seedream.attempt_body, Seedream.handler, Seedream.image_of,
      Seedream.save_image.
    emits_tac; apply emits_pil_rejected.
  - intros [p| | |]; try apply emits_ret; [done|].
    apply emits_bind; [|done]. unfold Seedream.backoff. emits_tac.
Qed.

Lemma wan_rejected_saves_nothing prompt row_num :
  emits (λ e, is_save e = false) (Wan.generate_image w prompt row_num).
Proof.
  unfold Wan.generate_image. apply emits_bind.
  { unfold Wan.create_async_task. emits_tac. }
  intros task_id. destruct (negb _); [apply emits_ret|].
  apply emits_bind; [by apply wan_poll_loop_events|].
  intros task_result. destruct (negb _); [apply emits_ret|].
  unfold Wan.extract_image_from_result, Wan.download_image.
  emits_tac; apply emits_pil_rejected.
Qed.

End Rejected.

Lemma batch_without_saves generate_image texts delay c :
  (∀ text row_num, returns (generate_image text row_num)) →
  (∀ text row_num c, saves_ok id row_num (generate_image text row_num c)) →
  (∀ text row_num,
     emits (λ e, is_save e = false) (generate_image text row_num)) →
  ∃ c' t,
    Batch.batch_generate generate_image texts delay c
    = (Ok ([], texts.*1), c', t)
    ∧ count is_save t = 0%nat.
Proof.
  intros Hr Hs He.
  destruct (batch_generate_partition generate_image Hr texts delay c)
    as (success & failed & c' & t & E & _ & Hf & Hp).
  destruct (batch_generate_saves generate_image Hr Hs texts delay c)
    as (success' & failed' & c'' & t' & E' & Hc & _).
  rewrite E in E'. injection E' as <- <- <- <-.
  assert (H0 : count is_save t = 0%nat).
  { apply count_none.
    pose proof (batch_generate_emits (λ e, is_save e = false) generate_image
                  texts delay He eq_refl c) as H.
    by rewrite E in H. }
  rewrite H0 in Hc. destruct success; [|done].
  simpl in Hp. apply Permutation_length in Hp.
  exists c', t. split; [|done].
  rewrite E. by rewrite (sublist_full failed (texts.*1) Hf) by lia.
Qed.

(** X24.  When the image library opens none of the payloads received, every row
    of a batch is reported failed, in the order of the input, and no image
    file is written, in each of the three scripts and whatever the service
    answers. *)
Theorem unreadable_images_fail_every_row w batch_generate texts delay c :
  (∀ data, image_ok w data = false) →
  batch_generate ∈ batch_drivers w →
  ∃ c' t,
    batch_generate texts delay c = (Ok ([], texts.*1), c', t)
    ∧ count is_save t = 0%nat.
Proof.
  intros H. unfold batch_drivers. rewrite !elem_of_cons, elem_of_nil.
  intros [->|[->|[->|[]]]]; apply batch_without_saves; intros.
  - apply qwen_generate_image_returns.
  - apply qwen_loop_saves.
  - by apply qwen_rejected_saves_nothing.
  - apply seedream_generate_image_returns.
  - apply seedream_loop_saves.
  - by apply seedream_rejected_saves_nothing.
  - apply wan_generate_image_returns.
  - apply wan_generate_image_saves.
  - by apply wan_rejected_saves_nothing.
Qed.

Lemma unreadable_images_fail_every_row_witness :
  ∃ c' t,
    Seedream.batch_generate (rejecting Examples.limited_twice)
      [(2, "a cat" : str); (3, "a dog" : str)] (2 # 1) clock0
    = (Ok ([], [2; 3]), c', t)
    ∧ count is_save t = 0%nat.
Proof.
  apply (unreadable_images_fail_every_row (rejecting Examples.limited_twice)
           (Seedream.batch_generate (rejecting Examples.limited_twice))
           [(2, "a cat" : str); (3, "a dog" : str)] (2 # 1) clock0).
  - intros data. reflexivity.
  - right. by left.
Defined.
